(** * terraform-provider-idsec: the [schemas] engine

    A shallow embedding of the reflection-driven conversion engine of the
    provider (package [internal/schemas]) and of the parts of the Terraform
    plugin framework it relies on, followed by the properties of the
    specification that are stated about it.

    Layout:
    - [attr]: the framework's attribute types and tri-state attribute values;
    - the immutability plan modifiers ([schemas_planmodifiers.go]);
    - the attribute-tree deep merge ([mergePlanAndStateMap] and friends);
    - the reflection model of Go types and values, field resolution,
      decode ([objectToMap]), schema derivation, encode, reconcile;
    - [DeepCopy] over an explicit heap. *)

From Stdlib Require Import QArith.Qcanon.
From Stdlib Require Import Strings.Ascii Strings.String.
From stdpp Require Import gmap strings list fin_maps pretty.
Set Warnings "-register-all".

Open Scope Z_scope.

(** ** Outcomes of Go calls

    A call returns its value, returns an [error], or panics.  Functions
    whose recursion is not structural take a fuel argument and end in
    [OutOfFuel] when it does not suffice; no run of the program does. *)

Inductive result (A : Type) : Type :=
| Ok (a : A)
| Err (msg : string)
| Panic (msg : string)
| OutOfFuel.
Arguments Ok {A} a.
Arguments Err {A} msg.
Arguments Panic {A} msg.
Arguments OutOfFuel {A}.

Definition rbind {A B} (r : result A) (k : A -> result B) : result B :=
  match r with
  | Ok a => k a
  | Err e => Err e
  | Panic e => Panic e
  | OutOfFuel => OutOfFuel
  end.

(** [fmt.Errorf("...: %w", err)]: an error gets a prefix, other outcomes
    pass. *)
Definition wrap_error {A} (pre : string) (r : result A) : result A :=
  match r with
  | Err e => Err (pre +:+ e)
  | _ => r
  end.

Notation "'let*' x := r 'in' k" := (rbind r (fun x => k))
  (at level 10, x name, r at level 100, k at level 200).

Definition newline : string := String (Ascii.ascii_of_nat 10) EmptyString.
Definition dquote : string := String (Ascii.ascii_of_nat 34) EmptyString.

(** ** Attribute types ([attr.Type]) *)

Inductive AttrType : Type :=
| StringType
| BoolType
| Int64Type
| NumberType
| Float64Type
| ListType (ElemType : AttrType)
| SetType (ElemType : AttrType)
| TupleType (ElemTypes : list AttrType)
| MapType (ElemType : AttrType)
| ObjectType (AttrTypes : gmap string AttrType)
| DynamicType.

(** [t.Equal(o)]: kind by kind; object types compare the number of
    attributes and then every attribute of the receiver. *)
Fixpoint TypeEqual (t o : AttrType) {struct t} : bool :=
  match t, o with
  | StringType, StringType => true
  | BoolType, BoolType => true
  | Int64Type, Int64Type => true
  | NumberType, NumberType => true
  | Float64Type, Float64Type => true
  | ListType e, ListType e' => TypeEqual e e'
  | SetType e, SetType e' => TypeEqual e e'
  | TupleType es, TupleType es' =>
      (fix go (xs ys : list AttrType) : bool :=
         match xs, ys with
         | [], [] => true
         | x :: xs, y :: ys => TypeEqual x y && go xs ys
         | _, _ => false
         end) es es'
  | MapType e, MapType e' => TypeEqual e e'
  | ObjectType a, ObjectType a' =>
      bool_decide (size a' = size a) &&
      map_fold (fun k v acc =>
                  acc && match a' !! k with
                         | Some v' => TypeEqual v v'
                         | None => false
                         end) true a
  | DynamicType, DynamicType => true
  | _, _ => false
  end.

(** The generic [isType[T]] checks used by the converters. *)
Definition isObjectType (t : AttrType) : bool :=
  match t with ObjectType _ => true | _ => false end.
Definition isMapType (t : AttrType) : bool :=
  match t with MapType _ => true | _ => false end.
Definition isListType (t : AttrType) : bool :=
  match t with ListType _ => true | _ => false end.
Definition isSetType (t : AttrType) : bool :=
  match t with SetType _ => true | _ => false end.

(** ** Attribute values ([attr.Value])

    Every value carries its tri-state.  A [Float64] payload is the IEEE-754
    bit pattern of the number, a [Number] payload a rational. *)

Inductive ValueState : Type :=
| ValueStateNull
| ValueStateUnknown
| ValueStateKnown.

Inductive Value : Type :=
| VString (state : ValueState) (value : string)
| VBool (state : ValueState) (value : bool)
| VInt64 (state : ValueState) (value : Z)
| VNumber (state : ValueState) (value : Qc)
| VFloat64 (state : ValueState) (value : Z)
| VList (elementType : AttrType) (state : ValueState) (elements : list Value)
| VSet (elementType : AttrType) (state : ValueState) (elements : list Value)
| VTuple (elementTypes : list AttrType) (state : ValueState)
         (elements : list Value)
| VMap (elementType : AttrType) (state : ValueState)
       (elements : gmap string Value)
| VObject (attributeTypes : gmap string AttrType) (state : ValueState)
          (attributes : gmap string Value)
| VDynamic (state : ValueState) (value : option Value).

Definition state_eqb (a b : ValueState) : bool :=
  match a, b with
  | ValueStateNull, ValueStateNull => true
  | ValueStateUnknown, ValueStateUnknown => true
  | ValueStateKnown, ValueStateKnown => true
  | _, _ => false
  end.

Definition is_known (s : ValueState) : bool := state_eqb s ValueStateKnown.

Definition StateOf (v : Value) : ValueState :=
  match v with
  | VString s _ | VBool s _ | VInt64 s _ | VNumber s _ | VFloat64 s _
  | VList _ s _ | VSet _ s _ | VTuple _ s _ | VMap _ s _ | VObject _ s _
  | VDynamic s _ => s
  end.

(** [v.IsNull()]; a dynamic value without underlying value is null too. *)
Definition IsNull (v : Value) : bool :=
  match v with
  | VDynamic s None => true
  | _ => state_eqb (StateOf v) ValueStateNull
  end.

Definition IsUnknown (v : Value) : bool :=
  state_eqb (StateOf v) ValueStateUnknown.

(** [v.Type(ctx)] *)
Definition TypeOf (v : Value) : AttrType :=
  match v with
  | VString _ _ => StringType
  | VBool _ _ => BoolType
  | VInt64 _ _ => Int64Type
  | VNumber _ _ => NumberType
  | VFloat64 _ _ => Float64Type
  | VList t _ _ => ListType t
  | VSet t _ _ => SetType t
  | VTuple ts _ _ => TupleType ts
  | VMap t _ _ => MapType t
  | VObject ats _ _ => ObjectType ats
  | VDynamic _ _ => DynamicType
  end.

(** Elements and attributes of a container; a null or unknown container
    carries none. *)
Definition Attributes (v : Value) : gmap string Value :=
  match v with VObject _ _ a => a | _ => ∅ end.
Definition AttributeTypes (v : Value) : gmap string AttrType :=
  match v with VObject ats _ _ => ats | _ => ∅ end.

(** Comparison of two float64 bit patterns as numbers: the two zeros are
    equal (the framework stores no NaN). *)
Definition float64_sign_bit : Z := 2 ^ 63.
Definition float64_eq (a b : Z) : bool :=
  (a =? b) ||
  (((a =? 0) || (a =? float64_sign_bit)) &&
   ((b =? 0) || (b =? float64_sign_bit))).

(** [v.Equal(o)] *)
Fixpoint Equal (v o : Value) {struct v} : bool :=
  match v, o with
  | VString s x, VString s' x' =>
      state_eqb s s' && (negb (is_known s) || bool_decide (x = x'))
  | VBool s x, VBool s' x' =>
      state_eqb s s' && (negb (is_known s) || bool_decide (x = x'))
  | VInt64 s x, VInt64 s' x' =>
      state_eqb s s' && (negb (is_known s) || (x =? x'))
  | VNumber s x, VNumber s' x' =>
      state_eqb s s' && (negb (is_known s) || bool_decide (x = x'))
  | VFloat64 s x, VFloat64 s' x' =>
      state_eqb s s' && (negb (is_known s) || float64_eq x x')
  | VList t s l, VList t' s' l' =>
      TypeEqual t t' && state_eqb s s' &&
      (negb (is_known s) ||
       (bool_decide (length l = length l') &&
        (fix go (xs ys : list Value) : bool :=
           match xs, ys with
           | x :: xs, y :: ys => Equal x y && go xs ys
           | _, _ => true
           end) l l'))
  | VSet t s l, VSet t' s' l' =>
      TypeEqual t t' && state_eqb s s' &&
      (negb (is_known s) ||
       (bool_decide (length l = length l') &&
        (fix go (xs : list Value) : bool :=
           match xs with
           | [] => true
           | x :: xs => existsb (Equal x) l' && go xs
           end) l))
  | VTuple ts s l, VTuple ts' s' l' =>
      TypeEqual (TupleType ts) (TupleType ts') && state_eqb s s' &&
      (negb (is_known s) ||
       (bool_decide (length l = length l') &&
        (fix go (xs ys : list Value) : bool :=
           match xs, ys with
           | x :: xs, y :: ys => Equal x y && go xs ys
           | _, _ => true
           end) l l'))
  | VMap t s m, VMap t' s' m' =>
      TypeEqual t t' && state_eqb s s' &&
      (negb (is_known s) ||
       (bool_decide (size m = size m') &&
        map_fold (fun k x acc =>
                    acc && match m' !! k with
                           | Some y => Equal x y
                           | None => false
                           end) true m))
  | VObject ats s m, VObject ats' s' m' =>
      TypeEqual (ObjectType ats) (ObjectType ats') && state_eqb s s' &&
      (negb (is_known s) ||
       (bool_decide (size m = size m') &&
        map_fold (fun k x acc =>
                    acc && match m' !! k with
                           | Some y => Equal x y
                           | None => false
                           end) true m))
  | VDynamic s u, VDynamic s' u' =>
      state_eqb s s' &&
      (negb (is_known s) ||
       match u, u' with
       | Some x, Some y => Equal x y
       | _, _ => false
       end)
  | _, _ => false
  end.

(** ** Value constructors of the framework

    The [*Null] constructors, the known scalar constructors, and the
    validating container constructors, which return the unknown value of
    the requested type together with error diagnostics (here: [true]) when
    an element does not have the declared type. *)

Definition StringNull : Value := VString ValueStateNull EmptyString.
Definition BoolNull : Value := VBool ValueStateNull false.
Definition Int64Null : Value := VInt64 ValueStateNull 0.
Definition NumberNull : Value := VNumber ValueStateNull 0%Qc.
Definition Float64Null : Value := VFloat64 ValueStateNull 0.
Definition ListNull (t : AttrType) : Value := VList t ValueStateNull [].
Definition SetNull (t : AttrType) : Value := VSet t ValueStateNull [].
Definition TupleNull (ts : list AttrType) : Value := VTuple ts ValueStateNull [].
Definition MapNull (t : AttrType) : Value := VMap t ValueStateNull ∅.
Definition ObjectNull (ats : gmap string AttrType) : Value :=
  VObject ats ValueStateNull ∅.
Definition DynamicNull : Value := VDynamic ValueStateNull None.

Definition StringValue (s : string) : Value := VString ValueStateKnown s.
Definition BoolValue (b : bool) : Value := VBool ValueStateKnown b.
Definition Int64Value (z : Z) : Value := VInt64 ValueStateKnown z.
Definition Float64Value (bits : Z) : Value := VFloat64 ValueStateKnown bits.
Definition NewDynamicValue (v : Value) : Value :=
  VDynamic ValueStateKnown (Some v).

Definition elements_have_type (t : AttrType) (l : list Value) : bool :=
  forallb (fun e => TypeEqual t (TypeOf e)) l.

Definition ListValue (t : AttrType) (elems : list Value) : Value * bool :=
  if elements_have_type t elems
  then (VList t ValueStateKnown elems, false)
  else (VList t ValueStateUnknown [], true).

Definition SetValue (t : AttrType) (elems : list Value) : Value * bool :=
  if elements_have_type t elems
  then (VSet t ValueStateKnown elems, false)
  else (VSet t ValueStateUnknown [], true).

Definition map_elements_have_type (t : AttrType) (m : gmap string Value)
  : bool :=
  map_fold (fun _ e acc => acc && TypeEqual t (TypeOf e)) true m.

Definition MapValue (t : AttrType) (elems : gmap string Value)
  : Value * bool :=
  if map_elements_have_type t elems
  then (VMap t ValueStateKnown elems, false)
  else (VMap t ValueStateUnknown ∅, true).

Fixpoint tuple_elements_have_types (ts : list AttrType) (l : list Value)
  : bool :=
  match ts, l with
  | [], [] => true
  | t :: ts, e :: l => TypeEqual t (TypeOf e) && tuple_elements_have_types ts l
  | _, _ => false
  end.

Definition TupleValue (ts : list AttrType) (elems : list Value)
  : Value * bool :=
  if tuple_elements_have_types ts elems
  then (VTuple ts ValueStateKnown elems, false)
  else (VTuple ts ValueStateUnknown [], true).

(** [types.ObjectValue]: every declared attribute needs a value of the
    declared type, and no undeclared attribute may be given. *)
Definition object_attributes_valid (ats : gmap string AttrType)
    (attrs : gmap string Value) : bool :=
  map_fold (fun name t acc =>
              acc && match attrs !! name with
                     | Some a => TypeEqual t (TypeOf a)
                     | None => false
                     end) true ats
  && map_fold (fun name _ acc =>
                 acc && bool_decide (is_Some (ats !! name))) true attrs.

Definition ObjectValue (ats : gmap string AttrType)
    (attrs : gmap string Value) : Value * bool :=
  if object_attributes_valid ats attrs
  then (VObject ats ValueStateKnown attrs, false)
  else (VObject ats ValueStateUnknown ∅, true).

(** [getNullValue]: the null value of an attribute type.  Every type of
    [AttrType] has one; the [default] error of the source is for attribute
    types from outside the framework. *)
Definition getNullValue (t : AttrType) : result Value :=
  match t with
  | StringType => Ok StringNull
  | BoolType => Ok BoolNull
  | Int64Type => Ok Int64Null
  | NumberType => Ok NumberNull
  | Float64Type => Ok Float64Null
  | ListType e => Ok (ListNull e)
  | SetType e => Ok (SetNull e)
  | TupleType es => Ok (TupleNull es)
  | MapType e => Ok (MapNull e)
  | ObjectType ats => Ok (ObjectNull ats)
  | DynamicType => Ok DynamicNull
  end.

(** ** [fmt.Sprintf] for the verbs the package uses

    Arguments are strings, integers and booleans; [%s], [%v], [%d] and
    [%t] print the next argument in its default format. *)

Inductive FmtArg : Type :=
| ArgString (s : string)
| ArgInt (z : Z)
| ArgBool (b : bool).

Definition render_arg (a : FmtArg) : string :=
  match a with
  | ArgString s => s
  | ArgInt z => pretty z
  | ArgBool true => "true"
  | ArgBool false => "false"
  end.

Definition is_verb (c : ascii) : bool :=
  bool_decide (c = "s"%char) || bool_decide (c = "v"%char)
  || bool_decide (c = "d"%char) || bool_decide (c = "t"%char).

Fixpoint Sprintf (format : string) (args : list FmtArg) : string :=
  match format with
  | EmptyString => EmptyString
  | String c rest =>
      if bool_decide (c = "%"%char) then
        match rest with
        | String v rest' =>
            if is_verb v then
              match args with
              | a :: args' => render_arg a +:+ Sprintf rest' args'
              | [] => "%!" +:+ String v "(MISSING)" +:+ Sprintf rest' []
              end
            else String c (Sprintf rest args)
        | EmptyString => "%!(NOVERB)"
        end
      else String c (Sprintf rest args)
  end.

(** ** The immutability plan modifiers ([schemas_planmodifiers.go]) *)

Definition errImmutableAttributeSummary : string :=
  "Immutable Attribute Cannot Be Changed".

Definition errImmutableAttributeDetailWithValues : string :=
  "The attribute '%s' is immutable and cannot be changed after resource creation."
  +:+ newline +:+ newline +:+
  "Current value: %v" +:+ newline +:+
  "Attempted new value: %v" +:+ newline +:+ newline +:+
  "To use a different value, you must create a new resource.".

Definition errImmutableAttributeDetailSimple : string :=
  "The attribute '%s' is immutable and cannot be changed after resource creation."
  +:+ newline +:+ newline +:+
  "To use a different value, you must create a new resource.".

(** The typed values handed to the modifiers. *)
Record types_String := { string_state : ValueState; string_value : string }.
Record types_Int64 := { int64_state : ValueState; int64_value : Z }.
Record types_Bool := { bool_state : ValueState; bool_value : bool }.
Record types_List := { list_elementType : AttrType; list_state : ValueState;
                       list_elements : list Value }.
Record types_Set := { set_elementType : AttrType; set_state : ValueState;
                      set_elements : list Value }.
Record types_Map := { map_elementType : AttrType; map_state : ValueState;
                      map_elements : gmap string Value }.

(** Every typed value is an [attr.Value]. *)
Class AttrValue (V : Type) := attr_value : V -> Value.

#[export] Instance String_attr : AttrValue types_String :=
  fun v => VString (string_state v) (string_value v).
#[export] Instance Int64_attr : AttrValue types_Int64 :=
  fun v => VInt64 (int64_state v) (int64_value v).
#[export] Instance Bool_attr : AttrValue types_Bool :=
  fun v => VBool (bool_state v) (bool_value v).
#[export] Instance List_attr : AttrValue types_List :=
  fun v => VList (list_elementType v) (list_state v) (list_elements v).
#[export] Instance Set_attr : AttrValue types_Set :=
  fun v => VSet (set_elementType v) (set_state v) (set_elements v).
#[export] Instance Map_attr : AttrValue types_Map :=
  fun v => VMap (map_elementType v) (map_state v) (map_elements v).

Definition ValueString (v : types_String) : string := string_value v.
Definition ValueInt64 (v : types_Int64) : Z := int64_value v.
Definition ValueBool (v : types_Bool) : bool := bool_value v.

Inductive Severity : Type := SeverityError | SeverityWarning.

Section PlanModifiers.
(** [path.Path] and its [String] method belong to the framework. *)
Context {Path : Type} `{EqDecision Path}.
Variable PathString : Path -> string.

(** An attribute diagnostic. *)
Record Diagnostic := {
  DiagSeverity : Severity;
  DiagPath : Path;
  DiagSummary : string;
  DiagDetail : string
}.

Definition Diagnostic_eqb (a b : Diagnostic) : bool :=
  match DiagSeverity a, DiagSeverity b with
  | SeverityError, SeverityError | SeverityWarning, SeverityWarning => true
  | _, _ => false
  end
  && bool_decide (DiagPath a = DiagPath b)
  && bool_decide (DiagSummary a = DiagSummary b)
  && bool_decide (DiagDetail a = DiagDetail b).

Definition Diagnostics := list Diagnostic.

(** [diags.Append] skips a diagnostic that is already contained. *)
Definition Append (diags : Diagnostics) (d : Diagnostic) : Diagnostics :=
  if existsb (Diagnostic_eqb d) diags then diags else diags ++ [d].

Definition AddAttributeError (diags : Diagnostics) (p : Path)
    (summary detail : string) : Diagnostics :=
  Append diags {| DiagSeverity := SeverityError; DiagPath := p;
                  DiagSummary := summary; DiagDetail := detail |}.

Definition HasError (diags : Diagnostics) : bool :=
  existsb (fun d => match DiagSeverity d with
                    | SeverityError => true
                    | SeverityWarning => false
                    end) diags.

(** The request of a plan modifier of value type [V]; [State_Raw] and
    [Plan_Raw] are the whole prior state and the whole plan. *)
Record Request (V : Type) := {
  ReqPath : Path;
  ConfigValue : V;
  PlanValue : V;
  StateValue : V;
  Plan_Raw : Value;
  State_Raw : Value
}.
Arguments ReqPath {V}.
Arguments ConfigValue {V}.
Arguments PlanValue {V}.
Arguments StateValue {V}.
Arguments Plan_Raw {V}.
Arguments State_Raw {V}.

(** The response: its diagnostics (the planned value is left as it is). *)
Definition PlanModifyString (req : Request types_String)
    (resp : Diagnostics) : Diagnostics :=
  if IsNull (State_Raw req) then resp
  else if IsUnknown (attr_value (PlanValue req)) then resp
  else if IsUnknown (attr_value (ConfigValue req)) then resp
  else if IsNull (Plan_Raw req) then resp
  else if Equal (attr_value (PlanValue req)) (attr_value (StateValue req))
  then resp
  else AddAttributeError resp (ReqPath req) errImmutableAttributeSummary
         (Sprintf errImmutableAttributeDetailWithValues
            [ArgString (PathString (ReqPath req));
             ArgString (ValueString (StateValue req));
             ArgString (ValueString (PlanValue req))]).

Definition PlanModifyInt64 (req : Request types_Int64)
    (resp : Diagnostics) : Diagnostics :=
  if IsNull (State_Raw req) then resp
  else if IsUnknown (attr_value (PlanValue req)) then resp
  else if IsUnknown (attr_value (ConfigValue req)) then resp
  else if IsNull (Plan_Raw req) then resp
  else if Equal (attr_value (PlanValue req)) (attr_value (StateValue req))
  then resp
  else AddAttributeError resp (ReqPath req) errImmutableAttributeSummary
         (Sprintf errImmutableAttributeDetailWithValues
            [ArgString (PathString (ReqPath req));
             ArgInt (ValueInt64 (StateValue req));
             ArgInt (ValueInt64 (PlanValue req))]).

Definition PlanModifyBool (req : Request types_Bool)
    (resp : Diagnostics) : Diagnostics :=
  if IsNull (State_Raw req) then resp
  else if IsUnknown (attr_value (PlanValue req)) then resp
  else if IsUnknown (attr_value (ConfigValue req)) then resp
  else if IsNull (Plan_Raw req) then resp
  else if Equal (attr_value (PlanValue req)) (attr_value (StateValue req))
  then resp
  else AddAttributeError resp (ReqPath req) errImmutableAttributeSummary
         (Sprintf errImmutableAttributeDetailWithValues
            [ArgString (PathString (ReqPath req));
             ArgBool (ValueBool (StateValue req));
             ArgBool (ValueBool (PlanValue req))]).

Definition PlanModifyList (req : Request types_List)
    (resp : Diagnostics) : Diagnostics :=
  if IsNull (State_Raw req) then resp
  else if IsUnknown (attr_value (PlanValue req)) then resp
  else if IsUnknown (attr_value (ConfigValue req)) then resp
  else if IsNull (Plan_Raw req) then resp
  else if Equal (attr_value (PlanValue req)) (attr_value (StateValue req))
  then resp
  else AddAttributeError resp (ReqPath req) errImmutableAttributeSummary
         (Sprintf errImmutableAttributeDetailSimple
            [ArgString (PathString (ReqPath req))]).

Definition PlanModifySet (req : Request types_Set)
    (resp : Diagnostics) : Diagnostics :=
  if IsNull (State_Raw req) then resp
  else if IsUnknown (attr_value (PlanValue req)) then resp
  else if IsUnknown (attr_value (ConfigValue req)) then resp
  else if IsNull (Plan_Raw req) then resp
  else if Equal (attr_value (PlanValue req)) (attr_value (StateValue req))
  then resp
  else AddAttributeError resp (ReqPath req) errImmutableAttributeSummary
         (Sprintf errImmutableAttributeDetailSimple
            [ArgString (PathString (ReqPath req))]).

Definition PlanModifyMap (req : Request types_Map)
    (resp : Diagnostics) : Diagnostics :=
  if IsNull (State_Raw req) then resp
  else if IsUnknown (attr_value (PlanValue req)) then resp
  else if IsUnknown (attr_value (ConfigValue req)) then resp
  else if IsNull (Plan_Raw req) then resp
  else if Equal (attr_value (PlanValue req)) (attr_value (StateValue req))
  then resp
  else AddAttributeError resp (ReqPath req) errImmutableAttributeSummary
         (Sprintf errImmutableAttributeDetailSimple
            [ArgString (PathString (ReqPath req))]).

(** A call of any of the six modifiers. *)
Inductive GuardCall : Type :=
| CallString (req : Request types_String)
| CallInt64 (req : Request types_Int64)
| CallBool (req : Request types_Bool)
| CallList (req : Request types_List)
| CallSet (req : Request types_Set)
| CallMap (req : Request types_Map).

Definition PlanModify (c : GuardCall) (resp : Diagnostics) : Diagnostics :=
  match c with
  | CallString r => PlanModifyString r resp
  | CallInt64 r => PlanModifyInt64 r resp
  | CallBool r => PlanModifyBool r resp
  | CallList r => PlanModifyList r resp
  | CallSet r => PlanModifySet r resp
  | CallMap r => PlanModifyMap r resp
  end.

(** The generic view of a call: path, the three values, the two roots. *)
Definition call_request (c : GuardCall) : Request Value :=
  let gen {V} `{AttrValue V} (r : Request V) : Request Value :=
    {| ReqPath := ReqPath r;
       ConfigValue := attr_value (ConfigValue r);
       PlanValue := attr_value (PlanValue r);
       StateValue := attr_value (StateValue r);
       Plan_Raw := Plan_Raw r;
       State_Raw := State_Raw r |} in
  match c with
  | CallString r => gen r
  | CallInt64 r => gen r
  | CallBool r => gen r
  | CallList r => gen r
  | CallSet r => gen r
  | CallMap r => gen r
  end.

(** The five conditions of a blocked update, on the generic view. *)
Definition update_changed (r : Request Value) : Prop :=
  IsNull (State_Raw r) = false /\
  IsNull (Plan_Raw r) = false /\
  IsUnknown (PlanValue r) = false /\
  IsUnknown (ConfigValue r) = false /\
  Equal (PlanValue r) (StateValue r) = false.

(** The text of a violation: the path, and for the scalar kinds the
    current and the attempted value. *)
Definition detail_with_values (p current attempted : string) : string :=
  "The attribute '" +:+ p +:+
  "' is immutable and cannot be changed after resource creation." +:+
  newline +:+ newline +:+
  "Current value: " +:+ current +:+ newline +:+
  "Attempted new value: " +:+ attempted +:+ newline +:+ newline +:+
  "To use a different value, you must create a new resource.".

Definition detail_simple (p : string) : string :=
  "The attribute '" +:+ p +:+
  "' is immutable and cannot be changed after resource creation." +:+
  newline +:+ newline +:+
  "To use a different value, you must create a new resource.".

Definition violation_detail (c : GuardCall) : string :=
  match c with
  | CallString r =>
      detail_with_values (PathString (ReqPath r))
        (string_value (StateValue r)) (string_value (PlanValue r))
  | CallInt64 r =>
      detail_with_values (PathString (ReqPath r))
        (pretty (int64_value (StateValue r)))
        (pretty (int64_value (PlanValue r)))
  | CallBool r =>
      detail_with_values (PathString (ReqPath r))
        (if bool_value (StateValue r) then "true" else "false")
        (if bool_value (PlanValue r) then "true" else "false")
  | CallList r => detail_simple (PathString (ReqPath r))
  | CallSet r => detail_simple (PathString (ReqPath r))
  | CallMap r => detail_simple (PathString (ReqPath r))
  end.

Definition violation (c : GuardCall) : Diagnostic :=
  {| DiagSeverity := SeverityError;
     DiagPath := ReqPath (call_request c);
     DiagSummary := errImmutableAttributeSummary;
     DiagDetail := violation_detail c |}.
End PlanModifiers.

Arguments ReqPath {Path V}.
Arguments ConfigValue {Path V}.
Arguments PlanValue {Path V}.
Arguments StateValue {Path V}.
Arguments Plan_Raw {Path V}.
Arguments State_Raw {Path V}.

(** *** A sample call: an update that renames a resource *)

Definition status_holder (s : string) : Value :=
  VObject {[ "name" := StringType ]} ValueStateKnown
    {[ "name" := StringValue s ]}.

Definition known_string (s : string) : types_String :=
  {| string_state := ValueStateKnown; string_value := s |}.

Definition rename_call : @GuardCall string :=
  CallString {| ReqPath := "name";
                ConfigValue := known_string "new";
                PlanValue := known_string "new";
                StateValue := known_string "old";
                Plan_Raw := status_holder "new";
                State_Raw := status_holder "old" |}.

(** ** The attribute-tree deep merge

    The maps of the source are updated in place; here every function
    returns the updated map.  A [for k, v := range m] loop is a [map_fold]
    whose accumulator is the map being updated. *)

Definition skip (v : Value) : bool := IsNull v || IsUnknown v.

Section MergeAttributes.
(** The recursive merge of the attributes of a nested object,
    [mergePlanAndStateMap] itself. *)
Variable mergePlanAndStateMap :
  gmap string Value -> gmap string Value -> gmap string Value.

Definition mergeObjectAttribute (existingAttrs : gmap string Value)
    (key : string) (planVal : Value) : gmap string Value :=
  match planVal with
  | VObject _ _ planAttributes =>
      match existingAttrs !! key with
      | Some existingVal =>
          if negb (isObjectType (TypeOf existingVal))
          then <[key := planVal]> existingAttrs
          else
            match existingVal with
            | VObject existingTypes _ existingAttributes =>
                let mergedInner :=
                  mergePlanAndStateMap existingAttributes planAttributes in
                let newObj := (ObjectValue existingTypes mergedInner).1 in
                <[key := newObj]> existingAttrs
            | _ => <[key := planVal]> existingAttrs
            end
      | None => <[key := planVal]> existingAttrs
      end
  | _ => <[key := planVal]> existingAttrs
  end.

(** One element of the incoming map, merged into [mergedMapValues]. *)
Definition mergeMapElement (k : string) (planMapVal : Value)
    (mergedMapValues : gmap string Value) : gmap string Value :=
  if skip planMapVal then mergedMapValues
  else
    match mergedMapValues !! k with
    | None => <[k := planMapVal]> mergedMapValues
    | Some existingMapVal =>
        match planMapVal, existingMapVal with
        | VObject _ _ planAttributes,
          VObject existingTypes _ existingAttributes =>
            let mergedNestedAttrs :=
              mergePlanAndStateMap existingAttributes planAttributes in
            let mergedObj :=
              (ObjectValue existingTypes mergedNestedAttrs).1 in
            <[k := mergedObj]> mergedMapValues
        | _, _ => <[k := planMapVal]> mergedMapValues
        end
    end.

Definition mergeMapAttribute (existingAttrs : gmap string Value)
    (key : string) (planVal : Value) : gmap string Value :=
  match planVal with
  | VMap planElemType _ planElements =>
      match existingAttrs !! key with
      | Some existingVal =>
          if negb (isMapType (TypeOf existingVal))
          then <[key := planVal]> existingAttrs
          else
            match existingVal with
            | VMap _ _ existingElements =>
                if negb (isObjectType planElemType)
                then <[key := planVal]> existingAttrs
                else
                  let mergedMapValues :=
                    map_fold mergeMapElement existingElements planElements in
                  let newMap := (MapValue planElemType mergedMapValues).1 in
                  <[key := newMap]> existingAttrs
            | _ => <[key := planVal]> existingAttrs
            end
      | None => <[key := planVal]> existingAttrs
      end
  | _ => <[key := planVal]> existingAttrs
  end.

(** Element [i] of the incoming list against the existing elements. *)
Definition mergeListElement (existingElems : list Value) (i : nat)
    (planElem : Value) : Value :=
  if skip planElem then
    match existingElems !! i with
    | Some e => e
    | None => planElem
    end
  else
    match planElem, existingElems !! i with
    | VObject _ _ planAttributes,
      Some (VObject existingTypes existingState existingAttributes) =>
        if skip (VObject existingTypes existingState existingAttributes)
        then planElem
        else
          let mergedNestedAttrs :=
            mergePlanAndStateMap existingAttributes planAttributes in
          (ObjectValue existingTypes mergedNestedAttrs).1
    | _, _ => planElem
    end.

(** The loop over the incoming elements, from index [i] on. *)
Definition mergeListElements (existingElems : list Value)
  : nat -> list Value -> list Value :=
  fix loop (i : nat) (elems : list Value) : list Value :=
    match elems with
    | [] => []
    | planElem :: rest =>
        mergeListElement existingElems i planElem :: loop (S i) rest
    end.

Definition mergeListAttribute (existingAttrs : gmap string Value)
    (key : string) (planVal : Value) : gmap string Value :=
  match planVal with
  | VList planElemType _ planElems =>
      if negb (isObjectType planElemType)
      then <[key := planVal]> existingAttrs
      else
        match existingAttrs !! key with
        | Some existingVal =>
            if negb (isListType (TypeOf existingVal))
            then <[key := planVal]> existingAttrs
            else
              match existingVal with
              | VList _ _ existingElems =>
                  if skip existingVal
                  then <[key := planVal]> existingAttrs
                  else
                    let mergedElems :=
                      mergeListElements existingElems 0%nat planElems in
                    let newList := (ListValue planElemType mergedElems).1 in
                    <[key := newList]> existingAttrs
              | _ => <[key := planVal]> existingAttrs
              end
        | None => <[key := planVal]> existingAttrs
        end
  | _ => <[key := planVal]> existingAttrs
  end.

Definition mergeSetAttribute (existingAttrs : gmap string Value)
    (key : string) (planVal : Value) : gmap string Value :=
  match planVal with
  | VSet planElemType _ planElems =>
      if negb (isObjectType planElemType)
      then <[key := planVal]> existingAttrs
      else
        let cleanedElems := filter (fun elem => skip elem = false) planElems in
        let newSet := (SetValue planElemType cleanedElems).1 in
        <[key := newSet]> existingAttrs
  | _ => <[key := planVal]> existingAttrs
  end.

(** The body of the loop of [mergePlanAndStateMap]. *)
Definition mergeAttribute (existingAttrs : gmap string Value)
    (key : string) (planVal : Value) : gmap string Value :=
  if skip planVal then existingAttrs
  else if isObjectType (TypeOf planVal)
  then mergeObjectAttribute existingAttrs key planVal
  else if isMapType (TypeOf planVal)
  then mergeMapAttribute existingAttrs key planVal
  else if isListType (TypeOf planVal)
  then mergeListAttribute existingAttrs key planVal
  else if isSetType (TypeOf planVal)
  then mergeSetAttribute existingAttrs key planVal
  else <[key := planVal]> existingAttrs.
End MergeAttributes.

(** The loop body with the recursion tied: the nested merges recurse into
    the attributes of the incoming value. *)
Fixpoint mergePlanValue (planVal : Value) (key : string)
    (existingAttrs : gmap string Value) {struct planVal}
  : gmap string Value :=
  mergeAttribute
    (fun existing attrsToMerge =>
       map_fold (fun k v acc => mergePlanValue v k acc) existing attrsToMerge)
    existingAttrs key planVal.

Definition mergePlanAndStateMap (existingAttrs attrsToMerge : gmap string Value)
  : gmap string Value :=
  map_fold (fun key planVal acc => mergePlanValue planVal key acc)
    existingAttrs attrsToMerge.

(** [MergePlanToStateObject], from the plan object read out of the plan. *)
Definition MergePlanToStateObject (planObj : Value) (stateResult : Value)
    (schemaAttrs : gmap string AttrType) : result Value :=
  let mergedAttrsValues :=
    map_fold (fun key val acc => if skip val then acc else <[key := val]> acc)
      ∅ (Attributes stateResult) in
  let mergedAttrsValues :=
    mergePlanAndStateMap mergedAttrsValues (Attributes planObj) in
  let* mergedAttrsValues :=
    map_fold (fun key attrType (acc : result (gmap string Value)) =>
                let* m := acc in
                match m !! key with
                | Some _ => Ok m
                | None =>
                    let* nullVal :=
                      wrap_error ("failed to create null value for attribute "
                                  +:+ key +:+ ": ") (getNullValue attrType) in
                    Ok (<[key := nullVal]> m)
                end) (Ok mergedAttrsValues) schemaAttrs in
  let mergedAttrsValues :=
    map_fold (fun key _ acc =>
                match schemaAttrs !! key with
                | Some _ => acc
                | None => delete key acc
                end) mergedAttrsValues mergedAttrsValues in
  let '(objVal, hasError) := ObjectValue schemaAttrs mergedAttrsValues in
  if hasError then Err "object value creation error" else Ok objVal.

(** *** Sample attribute trees for the merge *)

Definition status_type : gmap string AttrType := {[ "status" := StringType ]}.

Definition status_object (s : string) : Value :=
  VObject status_type ValueStateKnown {[ "status" := StringValue s ]}.

Definition instances_map (elems : gmap string Value) : Value :=
  VMap (ObjectType status_type) ValueStateKnown elems.

Definition existing_instances : gmap string Value :=
  {[ "instances" := instances_map {[ "k1" := status_object "running" ]} ]}.

Definition incoming_instances : gmap string Value :=
  {[ "instances" :=
       instances_map {[ "k1" := status_object "stopped";
                        "k2" := status_object "running" ]} ]}.

Definition incoming_null_instance : gmap string Value :=
  {[ "instances" := instances_map {[ "k2" := ObjectNull status_type ]} ]}.

Definition incoming_tags : gmap string Value :=
  {[ "tags" := VSet StringType ValueStateKnown [StringNull; StringValue "a"] ]}.

Definition disks_list (elems : list Value) : Value :=
  VList (ObjectType status_type) ValueStateKnown elems.

Definition existing_disks : gmap string Value :=
  {[ "disks" := disks_list [ status_object "running";
                             status_object "stopped";
                             status_object "failed" ] ]}.

Definition incoming_disks : gmap string Value :=
  {[ "disks" := disks_list [ status_object "attached";
                             ObjectNull status_type ] ]}.

Definition existing_status : gmap string Value :=
  {[ "status" := StringValue "running" ]}.

Definition incoming_null_status : gmap string Value :=
  {[ "status" := StringNull ]}.

(** ** The string functions of [strings] and [strconv] the package uses *)

(** [strings.Split(s, sep)] for a separator of one character. *)
Fixpoint strings_Split (s : string) (sep : ascii) : list string :=
  match s with
  | EmptyString => [EmptyString]
  | String c rest =>
      if bool_decide (c = sep) then EmptyString :: strings_Split rest sep
      else
        match strings_Split rest sep with
        | [] => [String c EmptyString]
        | part :: parts => String c part :: parts
        end
  end.

(** [strings.Split(s, ",")[0]] *)
Definition before_comma (s : string) : string :=
  match strings_Split s ","%char with
  | part :: _ => part
  | [] => EmptyString
  end.

Fixpoint strings_HasPrefix (s prefix : string) : bool :=
  match prefix, s with
  | EmptyString, _ => true
  | String p prefix', String c s' =>
      bool_decide (p = c) && strings_HasPrefix s' prefix'
  | String _ _, EmptyString => false
  end.

Fixpoint strings_Contains (s substr : string) : bool :=
  strings_HasPrefix s substr ||
  match s with
  | EmptyString => false
  | String _ s' => strings_Contains s' substr
  end.

(** [strconv.ParseBool]: the value and whether parsing failed. *)
Definition strconv_ParseBool (s : string) : bool * bool :=
  if bool_decide (s ∈ ["1"; "t"; "T"; "TRUE"; "true"; "True"])
  then (true, false)
  else if bool_decide (s ∈ ["0"; "f"; "F"; "FALSE"; "false"; "False"])
  then (false, false)
  else (false, true).

Definition digit_value (c : ascii) : option Z :=
  let n := Z.of_nat (nat_of_ascii c) in
  if (48 <=? n) && (n <=? 57) then Some (n - 48) else None.

Fixpoint parse_digits (s : string) (acc : Z) : option Z :=
  match s with
  | EmptyString => Some acc
  | String c rest =>
      match digit_value c with
      | Some d => parse_digits rest (10 * acc + d)
      | None => None
      end
  end.

Definition MaxInt64 : Z := 2 ^ 63 - 1.
Definition MinInt64 : Z := - 2 ^ 63.

(** [strconv.ParseInt(s, 10, 64)]: the value and whether parsing failed.
    A syntax error gives 0, a value out of range the nearest bound. *)
Definition strconv_ParseInt (s : string) : Z * bool :=
  let '(negative, digits) :=
    match s with
    | String c rest =>
        if bool_decide (c = "-"%char) then (true, rest)
        else if bool_decide (c = "+"%char) then (false, rest)
        else (false, s)
    | EmptyString => (false, s)
    end in
  match digits with
  | EmptyString => (0, true)
  | _ =>
      match parse_digits digits 0 with
      | None => (0, true)
      | Some n =>
          let v := if negative then - n else n in
          if v <? MinInt64 then (MinInt64, true)
          else if MaxInt64 <? v then (MaxInt64, true)
          else (v, false)
      end
  end.

(** ** Go types and values as [reflect] presents them *)

Module reflect.
Inductive Kind : Type :=
| Invalid | Bool
| Int | Int8 | Int16 | Int32 | Int64
| Uint | Uint8 | Uint16 | Uint32 | Uint64 | Uintptr
| Float32 | Float64 | Complex64 | Complex128
| Array | Chan | Func | Interface | Map | Pointer | Slice
| String | Struct | UnsafePointer.
End reflect.

#[export] Instance Kind_eq_dec : EqDecision reflect.Kind.
Proof. solve_decision. Defined.

(** What a [reflect.StructField] holds besides the type of the field.
    [PkgPath] is empty for an exported field; [Tag] maps the keys of the
    struct tag to their values. *)
Record FieldInfo := {
  Name : string;
  PkgPath : string;
  Tag : gmap string string;
  Anonymous : bool
}.

#[export] Instance FieldInfo_eq_dec : EqDecision FieldInfo.
Proof. solve_decision. Defined.

(** [field.Tag.Get(key)] *)
Definition TagGet (f : FieldInfo) (key : string) : string :=
  default EmptyString (Tag f !! key).

Inductive GoType : Type :=
| TBasic (k : reflect.Kind)
| TPointer (elem : GoType)
| TSlice (elem : GoType)
| TArray (len : nat) (elem : GoType)
| TMap (key elem : GoType)
| TStruct (fields : list (FieldInfo * GoType))
| TInterface
| TChan (elem : GoType)
| TFunc.

Abbreviation StructField := (FieldInfo * GoType)%type.

Definition KindOf (t : GoType) : reflect.Kind :=
  match t with
  | TBasic k => k
  | TPointer _ => reflect.Pointer
  | TSlice _ => reflect.Slice
  | TArray _ _ => reflect.Array
  | TMap _ _ => reflect.Map
  | TStruct _ => reflect.Struct
  | TInterface => reflect.Interface
  | TChan _ => reflect.Chan
  | TFunc => reflect.Func
  end.

Fixpoint GoType_eqb (a b : GoType) {struct a} : bool :=
  match a, b with
  | TBasic k, TBasic k' => bool_decide (k = k')
  | TPointer e, TPointer e' => GoType_eqb e e'
  | TSlice e, TSlice e' => GoType_eqb e e'
  | TArray n e, TArray n' e' => bool_decide (n = n') && GoType_eqb e e'
  | TMap k e, TMap k' e' => GoType_eqb k k' && GoType_eqb e e'
  | TStruct fs, TStruct fs' =>
      (fix go (xs ys : list (FieldInfo * GoType)) : bool :=
         match xs, ys with
         | [], [] => true
         | (i, t) :: xs, (i', t') :: ys =>
             bool_decide (i = i') && GoType_eqb t t' && go xs ys
         | _, _ => false
         end) fs fs'
  | TInterface, TInterface => true
  | TChan e, TChan e' => GoType_eqb e e'
  | TFunc, TFunc => true
  | _, _ => false
  end.

(** Values.  Integers carry their kind; floats carry their kind and their
    IEEE-754 bit pattern; a pointer, slice, map or channel may be nil and
    carries the type it was declared with; a map has string keys; a value
    held in a field, element or variable of interface type is wrapped in
    [GInterface]; [GOpaque] is a value of a kind the package never looks
    into (complex numbers, functions, ...), with whether it is zero. *)
Inductive GoValue : Type :=
| GBool (b : bool)
| GInt (k : reflect.Kind) (z : Z)
| GUint (k : reflect.Kind) (z : Z)
| GFloat (k : reflect.Kind) (bits : Z)
| GString (s : string)
| GPointer (elem : GoType) (target : option GoValue)
| GSlice (elem : GoType) (elems : option (list GoValue))
| GArray (elem : GoType) (elems : list GoValue)
| GMap (elem : GoType) (entries : option (gmap string GoValue))
| GStruct (fields : list (FieldInfo * GoValue))
| GInterface (dynamic : option GoValue)
| GChan (elem : GoType) (channel : option nat)
| GOpaque (k : reflect.Kind) (zero : bool).

(** [v.Kind()] *)
Definition ValueKind (v : GoValue) : reflect.Kind :=
  match v with
  | GBool _ => reflect.Bool
  | GInt k _ | GUint k _ | GFloat k _ | GOpaque k _ => k
  | GString _ => reflect.String
  | GPointer _ _ => reflect.Pointer
  | GSlice _ _ => reflect.Slice
  | GArray _ _ => reflect.Array
  | GMap _ _ => reflect.Map
  | GStruct _ => reflect.Struct
  | GInterface _ => reflect.Interface
  | GChan _ _ => reflect.Chan
  end.

(** [v.Type()] *)
Fixpoint GoTypeOf (v : GoValue) : GoType :=
  match v with
  | GBool _ => TBasic reflect.Bool
  | GInt k _ | GUint k _ | GFloat k _ | GOpaque k _ => TBasic k
  | GString _ => TBasic reflect.String
  | GPointer e _ => TPointer e
  | GSlice e _ => TSlice e
  | GArray e l => TArray (length l) e
  | GMap e _ => TMap (TBasic reflect.String) e
  | GStruct fields =>
      TStruct ((fix go (fs : list (FieldInfo * GoValue))
                  : list (FieldInfo * GoType) :=
                  match fs with
                  | [] => []
                  | (i, x) :: fs => (i, GoTypeOf x) :: go fs
                  end) fields)
  | GInterface _ => TInterface
  | GChan e _ => TChan e
  end.

Definition is_int_kind (k : reflect.Kind) : bool :=
  match k with
  | reflect.Int | reflect.Int8 | reflect.Int16 | reflect.Int32
  | reflect.Int64 => true
  | _ => false
  end.

Definition is_uint_kind (k : reflect.Kind) : bool :=
  match k with
  | reflect.Uint | reflect.Uint8 | reflect.Uint16 | reflect.Uint32
  | reflect.Uint64 | reflect.Uintptr => true
  | _ => false
  end.

Definition is_float_kind (k : reflect.Kind) : bool :=
  match k with
  | reflect.Float32 | reflect.Float64 => true
  | _ => false
  end.

(** [reflect.Zero(t)] *)
Fixpoint Zero (t : GoType) : GoValue :=
  match t with
  | TBasic k =>
      match k with
      | reflect.Bool => GBool false
      | reflect.String => GString EmptyString
      | _ => if is_int_kind k then GInt k 0
             else if is_uint_kind k then GUint k 0
             else if is_float_kind k then GFloat k 0
             else GOpaque k true
      end
  | TPointer e => GPointer e None
  | TSlice e => GSlice e None
  | TArray n e => GArray e (replicate n (Zero e))
  | TMap _ e => GMap e None
  | TStruct fields =>
      GStruct ((fix go (fs : list (FieldInfo * GoType))
                  : list (FieldInfo * GoValue) :=
                  match fs with
                  | [] => []
                  | (i, ft) :: fs => (i, Zero ft) :: go fs
                  end) fields)
  | TInterface => GInterface None
  | TChan e => GChan e None
  | TFunc => GOpaque reflect.Func true
  end.

(** [v.IsZero()] *)
Fixpoint IsZero (v : GoValue) : bool :=
  match v with
  | GBool b => negb b
  | GInt _ z | GUint _ z => z =? 0
  | GFloat _ bits => bits =? 0
  | GString s => bool_decide (s = EmptyString)
  | GPointer _ None | GSlice _ None | GMap _ None | GInterface None
  | GChan _ None => true
  | GPointer _ (Some _) | GSlice _ (Some _) | GMap _ (Some _)
  | GInterface (Some _) | GChan _ (Some _) => false
  | GArray _ l => forallb IsZero l
  | GStruct fields =>
      (fix go (fs : list (FieldInfo * GoValue)) : bool :=
         match fs with
         | [] => true
         | (_, x) :: fs => IsZero x && go fs
         end) fields
  | GOpaque _ zero => zero
  end.

(** [v.IsNil()] for the kinds that can be nil (it panics for the others,
    which no caller asks). *)
Definition IsNil (v : GoValue) : bool :=
  match v with
  | GPointer _ None | GSlice _ None | GMap _ None | GInterface None
  | GChan _ None => true
  | GOpaque reflect.Func zero => zero
  | _ => false
  end.

(** [v.Interface()]: the value as an [interface{}]; [None] is the nil
    interface.  A value of interface kind gives what it holds. *)
Definition Interface (v : GoValue) : option GoValue :=
  match v with
  | GInterface d => d
  | _ => Some v
  end.

(** Comparison of floats with [==] on their bit patterns. *)
Definition float_is_nan (k : reflect.Kind) (bits : Z) : bool :=
  match k with
  | reflect.Float32 =>
      (Z.land (Z.shiftr bits 23) 255 =? 255) && negb (Z.land bits (2 ^ 23 - 1) =? 0)
  | _ =>
      (Z.land (Z.shiftr bits 52) 2047 =? 2047) && negb (Z.land bits (2 ^ 52 - 1) =? 0)
  end.

Definition float_is_zero (k : reflect.Kind) (bits : Z) : bool :=
  match k with
  | reflect.Float32 => (bits =? 0) || (bits =? 2 ^ 31)
  | _ => (bits =? 0) || (bits =? 2 ^ 63)
  end.

Definition go_float_eq (k : reflect.Kind) (a b : Z) : bool :=
  negb (float_is_nan k a) && negb (float_is_nan k b) &&
  ((a =? b) || (float_is_zero k a && float_is_zero k b)).

(** [reflect.DeepEqual] on two values of interface kind. *)
Fixpoint deepValueEqual (v1 v2 : GoValue) {struct v1} : bool :=
  GoType_eqb (GoTypeOf v1) (GoTypeOf v2) &&
  match v1, v2 with
  | GBool a, GBool b => bool_decide (a = b)
  | GInt _ a, GInt _ b | GUint _ a, GUint _ b => a =? b
  | GFloat k a, GFloat _ b => go_float_eq k a b
  | GString a, GString b => bool_decide (a = b)
  | GPointer _ None, GPointer _ None => true
  | GPointer _ (Some a), GPointer _ (Some b) => deepValueEqual a b
  | GInterface None, GInterface None => true
  | GInterface (Some a), GInterface (Some b) => deepValueEqual a b
  | GSlice _ None, GSlice _ None => true
  | GSlice _ (Some l1), GSlice _ (Some l2) | GArray _ l1, GArray _ l2 =>
      bool_decide (length l1 = length l2) &&
      (fix go (xs ys : list GoValue) : bool :=
         match xs, ys with
         | x :: xs, y :: ys => deepValueEqual x y && go xs ys
         | _, _ => true
         end) l1 l2
  | GMap _ None, GMap _ None => true
  | GMap _ (Some m1), GMap _ (Some m2) =>
      bool_decide (size m1 = size m2) &&
      map_fold (fun k x acc =>
                  acc && match m2 !! k with
                         | Some y => deepValueEqual x y
                         | None => false
                         end) true m1
  | GStruct f1, GStruct f2 =>
      (fix go (xs ys : list (FieldInfo * GoValue)) : bool :=
         match xs, ys with
         | (_, x) :: xs, (_, y) :: ys => deepValueEqual x y && go xs ys
         | _, _ => true
         end) f1 f2
  | GChan _ a, GChan _ b => bool_decide (a = b)
  | GOpaque _ a, GOpaque _ b => a && b
  | _, _ => false
  end.

Definition DeepEqual (x y : option GoValue) : bool :=
  match x, y with
  | None, None => true
  | Some v1, Some v2 => deepValueEqual v1 v2
  | _, _ => false
  end.

Definition intTypes : list reflect.Kind :=
  [reflect.Int; reflect.Int8; reflect.Int16; reflect.Int32; reflect.Int64;
   reflect.Uint; reflect.Uint8; reflect.Uint16; reflect.Uint32;
   reflect.Uint64; reflect.Float32; reflect.Float64].

Definition simpleTypes : list reflect.Kind :=
  [reflect.String; reflect.Bool;
   reflect.Int; reflect.Int8; reflect.Int16; reflect.Int32; reflect.Int64;
   reflect.Uint; reflect.Uint8; reflect.Uint16; reflect.Uint32;
   reflect.Uint64; reflect.Float32; reflect.Float64].

(** [slices.Contains] *)
Definition slices_Contains {A} `{EqDecision A} (l : list A) (x : A) : bool :=
  bool_decide (x ∈ l).

(** ** Field resolution *)

Definition is_squash (f : FieldInfo) : bool :=
  bool_decide (TagGet f "mapstructure" = ",squash").
Definition is_ignored (f : FieldInfo) : bool :=
  bool_decide (TagGet f "mapstructure" = "-").
Definition is_unexported (f : FieldInfo) : bool :=
  negb (bool_decide (PkgPath f = EmptyString)).

(** [resolveFieldsSquashed]: the fields of a struct type (or of a pointer
    to one), the fields of squashed fields in place of these, without the
    ignored and the unexported ones.  [NumField] panics on other types. *)
Fixpoint resolveFieldsSquashed (schema : GoType) : result (list StructField) :=
  let fieldsOf :=
    fix loop (fs : list StructField) : result (list StructField) :=
      match fs with
      | [] => Ok []
      | (info, ft) :: rest =>
          if is_squash info then
            let* nestedFields := resolveFieldsSquashed ft in
            let* fields := loop rest in
            Ok (nestedFields ++ fields)
          else if is_ignored info then loop rest
          else if is_unexported info then loop rest
          else
            let* fields := loop rest in
            Ok ((info, ft) :: fields)
      end in
  match schema with
  | TPointer (TStruct fs) => fieldsOf fs
  | TStruct fs => fieldsOf fs
  | _ => Panic "reflect: NumField of non-struct type"
  end.

(** [resolveFieldsValueSquashed]: the same walk over a struct value. *)
Fixpoint resolveFieldsValueSquashed (value : GoValue) : result (list GoValue) :=
  let fieldsOf :=
    fix loop (fs : list (FieldInfo * GoValue)) : result (list GoValue) :=
      match fs with
      | [] => Ok []
      | (info, field) :: rest =>
          if is_squash info then
            let* nestedFields := resolveFieldsValueSquashed field in
            let* fields := loop rest in
            Ok (nestedFields ++ fields)
          else if is_ignored info then loop rest
          else if is_unexported info then loop rest
          else
            let* fields := loop rest in
            Ok (field :: fields)
      end in
  match value with
  | GPointer _ (Some (GStruct fs)) => fieldsOf fs
  | GStruct fs => fieldsOf fs
  | _ => Panic "reflect: call of reflect.Value.NumField on non-struct Value"
  end.

Section FieldNames.
(** [strcase.ToSnake] of [github.com/iancoleman/strcase]. *)
Variable ToSnake : string -> string.

(** [resolveFieldName]: the wire name of a field. *)
Definition resolveFieldName (field : FieldInfo) : string :=
  let fieldName := before_comma (TagGet field "mapstructure") in
  if negb (bool_decide (fieldName = EmptyString)) then ToSnake fieldName
  else
    let fieldName := before_comma (TagGet field "flag") in
    if negb (bool_decide (fieldName = EmptyString)) then ToSnake fieldName
    else
      let fieldName := before_comma (TagGet field "json") in
      if negb (bool_decide (fieldName = EmptyString)) then ToSnake fieldName
      else ToSnake (Name field).
End FieldNames.

(** [findFieldByName]: the field of the prototype that goes by [name] in
    its [mapstructure] tag, else in its [json] tag, else by its
    identifier.  The prototype is given by its type; [None] is a nil
    prototype.  The search ends in the first squashed field it meets. *)
Fixpoint findFieldByType (schemaType : GoType) (name : string)
  : option StructField :=
  let search :=
    fix loop (fs : list StructField) : option StructField :=
      match fs with
      | [] => None
      | (field, ft) :: rest =>
          if is_unexported field && negb (Anonymous field) then loop rest
          else
            let flagName := TagGet field "mapstructure" in
            let flagName :=
              if bool_decide (flagName = EmptyString)
              then TagGet field "json" else flagName in
            let flagName :=
              if bool_decide (flagName = EmptyString)
              then Name field else flagName in
            if bool_decide (before_comma flagName = name)
            then Some (field, ft)
            else if is_squash field
            then
              (* subSchema := reflect.New(field.Type).Interface() *)
              match ft with
              | TStruct _ => findFieldByType ft name
              | _ => None
              end
            else loop rest
      end in
  match schemaType with
  | TStruct fs => search fs
  | _ => None
  end.

Definition findFieldByName (schema : option GoType) (name : string)
  : option StructField :=
  match schema with
  | None => None
  | Some schemaType =>
      if bool_decide (name = EmptyString) then None
      else
        let schemaType :=
          match schemaType with
          | TPointer e => e
          | _ => schemaType
          end in
        findFieldByType schemaType name
  end.

(** ** Decode: from an attribute tree to a generic mapping

    The mapping is a [map[string]interface{}]: every entry is an
    interface value, [GInterface None] being nil.  A prototype is given
    by its type, [None] being the nil prototype. *)

Definition interface_map (m : gmap string GoValue) : GoValue :=
  GMap TInterface (Some m).
Definition interface_slice (l : list GoValue) : GoValue :=
  GSlice TInterface (Some l).

(** [reflect.New(t).Interface()] as a prototype *)
Definition prototype_of (t : GoType) : option GoType := Some (TPointer t).

Section Decode.
(** [json.Unmarshal] into an [interface{}]. *)
Variable json_Unmarshal : string -> result (option GoValue).

Section ObjectToMap.
Variable attrToInterface :
  string -> Value -> option GoType -> result (option GoValue).

(** One attribute of the object, entered into [result]. *)
Definition objectToMapEntry (prototype : option GoType) (key : string)
    (val : Value) (res : gmap string GoValue)
  : result (gmap string GoValue) :=
  if IsNull val then Ok (<[key := GInterface None]> res)
  else if IsUnknown val then Ok res
  else
    let* goVal :=
      wrap_error ("error converting attribute " +:+ key +:+ ": ")
        (attrToInterface key val prototype) in
    match goVal with
    | None => Ok res
    | Some goVal =>
        let actualField := findFieldByName prototype key in
        if match actualField with
           | Some (_, ft) => bool_decide (KindOf ft = reflect.Pointer)
           | None => false
           end
        then
          if negb (bool_decide (ValueKind goVal = reflect.Pointer))
          then
            Ok (<[key := GInterface
                           (Some (GPointer (GoTypeOf goVal) (Some goVal)))]>
                  res)
          else Ok (<[key := GInterface (Some goVal)]> res)
        else
          match goVal with
          | GPointer _ target =>
              match target with
              | Some pointee =>
                  Ok (<[key := GInterface (Interface pointee)]> res)
              | None => Ok res
              end
          | _ =>
              if bool_decide (ValueKind goVal = reflect.Bool)
                 || negb (IsZero goVal)
              then Ok (<[key := GInterface (Some goVal)]> res)
              else Ok res
          end
    end.

Definition objectToMap_with (obj : Value) (prototype : option GoType)
  : result (gmap string GoValue) :=
  if IsNull obj || IsUnknown obj then Err "object is null or unknown"
  else
    match obj with
    | VObject _ _ attributes =>
        map_fold (fun key val acc =>
                    let* res := acc in
                    objectToMapEntry prototype key val res)
          (Ok ∅) attributes
    | _ => Ok ∅
    end.

(** The conversion of the elements of a map, with the prototype of
    the elements. *)
Definition mapToInterface (attrMap : gmap string Value)
    (elemPrototype : option GoType) : result (gmap string GoValue) :=
  map_fold (fun k elem acc =>
              let* m := acc in
              let* converted := attrToInterface k elem elemPrototype in
              Ok (<[k := GInterface converted]> m))
    (Ok ∅) attrMap.

Definition listToInterface (elemPrototype : option GoType)
  : list Value -> result (list GoValue) :=
  fix loop (elems : list Value) : result (list GoValue) :=
    match elems with
    | [] => Ok []
    | elem :: rest =>
        let* converted :=
          attrToInterface EmptyString elem elemPrototype in
        let* list := loop rest in
        Ok (GInterface converted :: list)
    end.
End ObjectToMap.

(** The prototype of the elements of a list, set or tuple field. *)
Fixpoint strip_pointers (t : GoType) : GoType :=
  match t with
  | TPointer e => strip_pointers e
  | _ => t
  end.

Definition list_elem_prototype (actualField : option StructField)
  : option GoType :=
  match actualField with
  | Some (_, ft) =>
      match strip_pointers ft with
      | TSlice elemType | TArray _ elemType =>
          match elemType with
          | TPointer e => prototype_of e
          | _ => prototype_of elemType
          end
      | _ => None
      end
  | None => None
  end.

Definition map_elem_prototype (actualField : option StructField)
  : option GoType :=
  match actualField with
  | Some (_, TMap _ elemType) => prototype_of elemType
  | _ => None
  end.

Definition nested_prototype (actualField : option StructField)
    (prototype : option GoType) : option GoType :=
  match actualField with
  | Some (_, ft) => prototype_of ft
  | None => prototype
  end.

Fixpoint attrToInterface_val (val : Value) (key : string)
    (prototype : option GoType) {struct val} : result (option GoValue) :=
  let rec := fun k v p => attrToInterface_val v k p in
  if IsNull val || IsUnknown val then Ok None
  else
    let actualField := findFieldByName prototype key in
    match val with
    | VString _ s => Ok (Some (GString s))
    | VInt64 _ z => Ok (Some (GInt reflect.Int64 z))
    | VBool _ b => Ok (Some (GBool b))
    | VFloat64 _ bits => Ok (Some (GFloat reflect.Float64 bits))
    | VObject _ _ _ =>
        let* m :=
          objectToMap_with rec val (nested_prototype actualField prototype) in
        Ok (Some (interface_map m))
    | VDynamic _ underlying =>
        match underlying with
        | Some (VString _ s) =>
            wrap_error "failed to unmarshal dynamic JSON value: "
              (json_Unmarshal s)
        | Some u =>
            attrToInterface_val u key
              (nested_prototype actualField prototype)
        | None => Ok None
        end
    | VMap _ _ attrMap =>
        let* m := mapToInterface rec attrMap (map_elem_prototype actualField) in
        Ok (Some (interface_map m))
    | VList _ _ elems | VSet _ _ elems | VTuple _ _ elems =>
        let* list :=
          listToInterface rec (list_elem_prototype actualField) elems in
        Ok (Some (interface_slice list))
    | VNumber _ _ => Err "unsupported attribute type"
    end.

Definition attrToInterface (key : string) (val : Value)
    (prototype : option GoType) : result (option GoValue) :=
  attrToInterface_val val key prototype.

Definition objectToMap (obj : Value) (prototype : option GoType)
  : result (gmap string GoValue) :=
  objectToMap_with attrToInterface obj prototype.
End Decode.

(** The attributes [objectToMap] converts without recursion. *)
Definition scalar_attr (v : Value) : bool :=
  match v with
  | VString _ _ | VInt64 _ _ | VBool _ _ | VFloat64 _ _ => true
  | _ => false
  end.

(** The decoded scalars that are the zero value of their Go type. *)
Definition zero_scalar (v : Value) : Prop :=
  v = StringValue EmptyString \/ v = Int64Value 0 \/ v = Float64Value 0.

(** The field [objectToMap] finds for an attribute is not of pointer type
    (or it finds none). *)
Definition non_pointer_target (prototype : option GoType) (key : string)
  : Prop :=
  match findFieldByName prototype key with
  | Some (_, ft) => KindOf ft <> reflect.Pointer
  | None => True
  end.

(** ** Schema derivation *)

Inductive AttrDefault : Type :=
| StringDefault (Value : string)
| BoolDefault (Value : bool)
| Int64Default (Value : Z)
| SetStringDefault (Values : list string)
| SetNumericDefault (Values : list Z)
| SetBoolDefault (Values : list bool)
| ListStringDefault (Values : list string)
| ListNumericDefault (Values : list Z)
| ListBoolDefault (Values : list bool).

Inductive AttrValidator : Type :=
| StringInChoicesValidator (Choices : list string)
| SliceInChoicesValidator (Choices : list string)
| SliceInSetValidator (Choices : list string).

Inductive AttrPlanModifier : Type :=
| RequiresReplace.

(** The fields all attributes of [schema] share. *)
Record AttrOptions := {
  Description : string;
  Optional : bool;
  Required : bool;
  Computed : bool;
  Sensitive : bool;
  Default : option AttrDefault;
  Validators : list AttrValidator;
  PlanModifiers : list AttrPlanModifier
}.

Inductive SchemaAttribute : Type :=
| StringAttribute (o : AttrOptions)
| BoolAttribute (o : AttrOptions)
| Int64Attribute (o : AttrOptions)
| DynamicAttribute (o : AttrOptions)
| SetAttribute (ElementType : AttrType) (o : AttrOptions)
| ListAttribute (ElementType : AttrType) (o : AttrOptions)
| MapAttribute (ElementType : AttrType) (o : AttrOptions)
| ListNestedAttribute (NestedAttributes : gmap string SchemaAttribute)
                      (o : AttrOptions)
| MapNestedAttribute (NestedAttributes : gmap string SchemaAttribute)
                     (o : AttrOptions)
| SingleNestedAttribute (NestedAttributes : gmap string SchemaAttribute)
                        (o : AttrOptions).

(** Optional and computed: every attribute of a computed schema. *)
Definition computedOptions (desc : string) (isSensitive : bool) : AttrOptions :=
  {| Description := desc; Optional := true; Required := false;
     Computed := true; Sensitive := isSensitive; Default := None;
     Validators := []; PlanModifiers := [] |}.

Definition declaredOptions (desc : string) (isRequired isSensitive : bool)
  : AttrOptions :=
  {| Description := desc; Optional := negb isRequired; Required := isRequired;
     Computed := negb isRequired; Sensitive := isSensitive; Default := None;
     Validators := []; PlanModifiers := [] |}.

(** A default makes the attribute optional and computed. *)
Definition withDefault (d : option AttrDefault) (o : AttrOptions) : AttrOptions :=
  {| Description := Description o; Optional := true; Required := false;
     Computed := true; Sensitive := Sensitive o; Default := d;
     Validators := Validators o; PlanModifiers := PlanModifiers o |}.

Definition withValidator (v : AttrValidator) (o : AttrOptions) : AttrOptions :=
  {| Description := Description o; Optional := Optional o;
     Required := Required o; Computed := Computed o; Sensitive := Sensitive o;
     Default := Default o; Validators := Validators o ++ [v];
     PlanModifiers := PlanModifiers o |}.

Definition withRequiresReplace (o : AttrOptions) : AttrOptions :=
  {| Description := Description o; Optional := Optional o;
     Required := Required o; Computed := Computed o; Sensitive := Sensitive o;
     Default := Default o; Validators := Validators o;
     PlanModifiers := [RequiresReplace] |}.

Definition nonempty (s : string) : bool := negb (bool_decide (s = EmptyString)).

(** The comma-separated integers, and booleans, of a default. *)
Definition parse_int_values (defaultValue : string) : list Z :=
  omap (fun v => if nonempty v
                 then match strconv_ParseInt v with
                      | (x, false) => Some x
                      | (_, true) => None
                      end
                 else None)
       (strings_Split defaultValue ","%char).

Definition parse_bool_values (defaultValue : string) : list bool :=
  omap (fun v => if nonempty v
                 then match strconv_ParseBool v with
                      | (x, false) => Some x
                      | (_, true) => None
                      end
                 else None)
       (strings_Split defaultValue ","%char).

(** [t.Elem()] of a slice, array, map, pointer or channel type. *)
Definition ElemOf (t : GoType) : result GoType :=
  match t with
  | TPointer e | TSlice e | TArray _ e | TMap _ e | TChan e => Ok e
  | _ => Panic "reflect: Elem of invalid type"
  end.

Section SchemaDerivation.
(** [strcase.ToSnake] *)
Variable ToSnake : string -> string.

(** [reflectTypeToTerraformType]; [None] is the nil type. *)
Fixpoint reflectTypeToTerraformType (fuel : nat) (t : option GoType)
  : result AttrType :=
  match fuel with
  | O => OutOfFuel
  | S fuel =>
      match t with
      | None => Ok StringType
      | Some t =>
          let t := strip_pointers t in
          match t with
          | TBasic reflect.String => Ok StringType
          | TBasic reflect.Bool => Ok BoolType
          | TBasic reflect.Int | TBasic reflect.Int8 | TBasic reflect.Int16
          | TBasic reflect.Int32 | TBasic reflect.Int64 => Ok Int64Type
          | TSlice e | TArray _ e =>
              let* elemType := reflectTypeToTerraformType fuel (Some e) in
              Ok (ListType elemType)
          | TMap k e =>
              if negb (bool_decide (KindOf k = reflect.String))
              then Err "map key type must be string"
              else
                let* elemType := reflectTypeToTerraformType fuel (Some e) in
                Ok (MapType elemType)
          | TStruct _ =>
              let* actualFields := resolveFieldsSquashed t in
              let* attrTypes :=
                foldl (fun (acc : result (gmap string AttrType))
                           (field : StructField) =>
                         let* attrTypes := acc in
                         if is_unexported field.1 then Ok attrTypes
                         else
                           let* fieldType :=
                             reflectTypeToTerraformType fuel (Some field.2) in
                           Ok (<[resolveFieldName ToSnake field.1 := fieldType]>
                                 attrTypes))
                  (Ok ∅) actualFields in
              Ok (ObjectType attrTypes)
          | TInterface => Ok DynamicType
          | _ => Err "unsupported type"
          end
      end
  end.

(** [hasInterfaceInnerType] *)
Fixpoint hasInterfaceInnerType (fuel : nat) (fieldType : GoType)
  : result bool :=
  match fuel with
  | O => OutOfFuel
  | S fuel =>
      match fieldType with
      | TInterface => Ok true
      | TSlice e | TArray _ e | TMap _ e =>
          if bool_decide (KindOf e = reflect.Interface) then Ok true
          else if bool_decide (KindOf e = reflect.Struct)
                  || bool_decide (KindOf e = reflect.Map)
          then hasInterfaceInnerType fuel e
          else Ok false
      | TStruct _ =>
          let* actualFields := resolveFieldsSquashed fieldType in
          foldl (fun (acc : result bool) (field : StructField) =>
                   let* found := acc in
                   if found then Ok true
                   else hasInterfaceInnerType fuel field.2)
            (Ok false) actualFields
      | _ => Ok false
      end
  end.

Section FieldAttribute.
Variables (setAsComputed : bool)
          (sensitiveAttrs extraRequiredAttrs computedAsSetAttrs : list string).

(** The nested call for the struct type of an element or field. *)
Variable nestedAttrs : GoType -> result (gmap string SchemaAttribute).

Definition options (desc : string) (isRequired isSensitive : bool)
  : AttrOptions :=
  if setAsComputed then computedOptions desc isSensitive
  else declaredOptions desc isRequired isSensitive.

Definition forceNewOptions (isForceNew : bool) (o : AttrOptions)
  : AttrOptions :=
  if isForceNew then withRequiresReplace o else o.

(** The default of a set or list of simple elements. *)
Definition sliceDefault (asSet : bool) (elemKind : reflect.Kind)
    (defaultValue : string) : option AttrDefault :=
  if bool_decide (elemKind = reflect.String) then
    let values := strings_Split defaultValue ","%char in
    Some (if asSet then SetStringDefault values
          else ListStringDefault values)
  else if slices_Contains intTypes elemKind then
    let values := parse_int_values defaultValue in
    Some (if asSet then SetNumericDefault values
          else ListNumericDefault values)
  else if bool_decide (elemKind = reflect.Bool) then
    let values := parse_bool_values defaultValue in
    Some (if asSet then SetBoolDefault values else ListBoolDefault values)
  else None.

(** The attribute a field contributes under its wire name; [None]
    when the loop goes on without setting one. *)
Definition fieldAttribute (fuel : nat) (field : StructField)
  : result (option SchemaAttribute) :=
  let fieldType := field.2 in
  let desc := TagGet field.1 "desc" in
  let required := TagGet field.1 "required" in
  let validate := TagGet field.1 "validate" in
  let choices := TagGet field.1 "choices" in
  let defaultValue := TagGet field.1 "default" in
  let forceNew := TagGet field.1 "forcenew" in
  let fieldName := resolveFieldName ToSnake field.1 in
  let isRequired :=
    strings_Contains required "true"
    || strings_Contains validate "required"
    || slices_Contains extraRequiredAttrs fieldName in
  let isSensitive := slices_Contains sensitiveAttrs fieldName in
  let isForceNew := strings_Contains forceNew "true" in
  let fieldType :=
    match fieldType with
    | TPointer e => e
    | _ => fieldType
    end in
  let plain := options desc isRequired isSensitive in
  match KindOf fieldType with
  | reflect.String =>
      if setAsComputed then Ok (Some (StringAttribute plain))
      else
        let o := plain in
        let o := if nonempty defaultValue
                 then withDefault (Some (StringDefault defaultValue)) o
                 else o in
        let o := if nonempty choices
                 then withValidator
                        (StringInChoicesValidator
                           (strings_Split choices ","%char)) o
                 else o in
        Ok (Some (StringAttribute (forceNewOptions isForceNew o)))
  | reflect.Bool =>
      if setAsComputed then Ok (Some (BoolAttribute plain))
      else
        let o := plain in
        let o := if nonempty defaultValue
                 then withDefault
                        (Some (BoolDefault
                                 (strconv_ParseBool defaultValue).1)) o
                 else o in
        Ok (Some (BoolAttribute (forceNewOptions isForceNew o)))
  | reflect.Int | reflect.Int8 | reflect.Int16 | reflect.Int32
  | reflect.Int64 | reflect.Uint | reflect.Uint8 | reflect.Uint16
  | reflect.Uint32 | reflect.Uint64 =>
      if setAsComputed then Ok (Some (Int64Attribute plain))
      else
        let o := plain in
        let o := if nonempty defaultValue
                 then withDefault
                        (Some (Int64Default
                                 (strconv_ParseInt defaultValue).1)) o
                 else o in
        Ok (Some (Int64Attribute (forceNewOptions isForceNew o)))
  | reflect.Slice | reflect.Array =>
      let* dynamic := hasInterfaceInnerType fuel fieldType in
      if dynamic then Ok (Some (DynamicAttribute plain))
      else
        let* elem := ElemOf fieldType in
        if slices_Contains simpleTypes (KindOf elem) then
          match reflectTypeToTerraformType fuel (Some elem) with
          | Ok terraType =>
              let asSet := slices_Contains computedAsSetAttrs fieldName in
              let attribute :=
                if asSet then SetAttribute terraType
                else ListAttribute terraType in
              if setAsComputed then Ok (Some (attribute plain))
              else
                let o := plain in
                let o := if nonempty defaultValue
                         then withDefault
                                (sliceDefault asSet (KindOf elem)
                                   defaultValue) o
                         else o in
                let o := if nonempty choices
                         then withValidator
                                ((if asSet then SliceInSetValidator
                                  else SliceInChoicesValidator)
                                   (strings_Split choices ","%char)) o
                         else o in
                Ok (Some (attribute (forceNewOptions isForceNew o)))
          | Err _ => Ok None
          | Panic e => Panic e
          | OutOfFuel => OutOfFuel
          end
        else
          match elem with
          | TMap key _ =>
              if bool_decide (KindOf key = reflect.String) then
                let mapElementType := MapType StringType in
                if setAsComputed
                then Ok (Some (ListAttribute mapElementType plain))
                else
                  Ok (Some (ListAttribute mapElementType
                              (forceNewOptions isForceNew plain)))
              else Ok None
          | TStruct _ =>
              let* nestedSchemaAttrs := nestedAttrs elem in
              Ok (Some (ListNestedAttribute nestedSchemaAttrs plain))
          | _ => Ok None
          end
  | reflect.Map =>
      let* dynamic := hasInterfaceInnerType fuel fieldType in
      if dynamic then Ok (Some (DynamicAttribute plain))
      else
        let* elem := ElemOf fieldType in
        if slices_Contains simpleTypes (KindOf elem) then
          match reflectTypeToTerraformType fuel (Some elem) with
          | Ok terraType =>
              if setAsComputed then Ok (Some (MapAttribute terraType plain))
              else
                Ok (Some (MapAttribute terraType
                            (forceNewOptions isForceNew plain)))
          | Err _ => Ok None
          | Panic e => Panic e
          | OutOfFuel => OutOfFuel
          end
        else if bool_decide (KindOf elem = reflect.Interface)
        then Ok (Some (DynamicAttribute plain))
        else if bool_decide (KindOf elem = reflect.Struct)
        then
          let* nested := nestedAttrs elem in
          Ok (Some (MapNestedAttribute nested plain))
        else Ok None
  | reflect.Struct =>
      let* nestedSchemaAttrs := nestedAttrs fieldType in
      Ok (Some (SingleNestedAttribute nestedSchemaAttrs plain))
  | reflect.Interface => Ok (Some (DynamicAttribute plain))
  | _ => Ok None
  end.

(** [attributes[fieldName] = ...], when the field contributes. *)
Definition setFieldAttribute (fuel : nat)
    (acc : result (gmap string SchemaAttribute)) (field : StructField)
  : result (gmap string SchemaAttribute) :=
  let* attributes := acc in
  let* attribute := fieldAttribute fuel field in
  match attribute with
  | Some a => Ok (<[resolveFieldName ToSnake field.1 := a]> attributes)
  | None => Ok attributes
  end.
End FieldAttribute.

(** [resourceSchemaAttrsFromStruct], from the type of the input model. *)
Fixpoint resourceSchemaAttrsFromStruct (fuel : nat) (modelType : GoType)
    (setAsComputed : bool)
    (sensitiveAttrs extraRequiredAttrs computedAsSetAttrs : list string)
  : result (gmap string SchemaAttribute) :=
  match fuel with
  | O => OutOfFuel
  | S fuel =>
      let modelType :=
        match modelType with
        | TPointer e => e
        | _ => modelType
        end in
      let* actualFields := resolveFieldsSquashed modelType in
      foldl (setFieldAttribute setAsComputed sensitiveAttrs
               extraRequiredAttrs computedAsSetAttrs
               (fun nestedType =>
                  resourceSchemaAttrsFromStruct fuel nestedType
                    setAsComputed sensitiveAttrs extraRequiredAttrs
                    computedAsSetAttrs)
               fuel)
        (Ok ∅) actualFields
  end.

(** [GenerateResourceSchemaFromStruct]: the attributes of the schema;
    [None] is a nil update or state model. *)
Definition GenerateResourceSchemaFromStruct (fuel : nat)
    (createModel : GoType) (updateModel stateModel : option GoType)
    (sensitiveAttrs extraRequiredAttrs computedAsSetAttrs : list string)
  : result (gmap string SchemaAttribute) :=
  let addMissing (extra schemaAttrs : gmap string SchemaAttribute) :=
    map_fold (fun key a acc =>
                match acc !! key with
                | Some _ => acc
                | None => <[key := a]> acc
                end) schemaAttrs extra in
  let* schemaAttrs :=
    resourceSchemaAttrsFromStruct fuel createModel false sensitiveAttrs
      extraRequiredAttrs computedAsSetAttrs in
  let* schemaAttrs :=
    match updateModel with
    | Some updateModel =>
        let* updateModelAttrs :=
          resourceSchemaAttrsFromStruct fuel updateModel true sensitiveAttrs
            extraRequiredAttrs computedAsSetAttrs in
        Ok (addMissing updateModelAttrs schemaAttrs)
    | None => Ok schemaAttrs
    end in
  match stateModel with
  | Some stateModel =>
      let* outputModelAttrs :=
        resourceSchemaAttrsFromStruct fuel stateModel true sensitiveAttrs
          extraRequiredAttrs computedAsSetAttrs in
      Ok (addMissing outputModelAttrs schemaAttrs)
  | None => Ok schemaAttrs
  end.
End SchemaDerivation.

(** *** A record type with two fields of one wire name *)

Definition tagged_field (name tag : string) : FieldInfo :=
  {| Name := name; PkgPath := EmptyString;
     Tag := {[ "mapstructure" := tag ]}; Anonymous := false |}.

Definition plain_field (name : string) : FieldInfo :=
  {| Name := name; PkgPath := EmptyString; Tag := ∅; Anonymous := false |}.

Definition duplicate_name_model : GoType :=
  TStruct [ (tagged_field "Name" "name", TBasic reflect.String);
            (tagged_field "Title" "name", TBasic reflect.Bool) ].

(** A record type with a string field, and a plan that sets it to the
    empty string. *)
Definition named_type : GoType :=
  TStruct [ (tagged_field "Name" "name", TBasic reflect.String);
            (tagged_field "Enabled" "enabled", TBasic reflect.Bool) ].

Definition unnamed_plan : Value :=
  VObject {[ "name" := StringType; "enabled" := BoolType ]} ValueStateKnown
    {[ "name" := StringValue EmptyString; "enabled" := BoolValue false ]}.

(** ** Encode: from a record to an attribute tree

    [tflog] calls are kept as a log next to the outcome. *)

Inductive LogLevel : Type := LogInfo | LogWarn | LogError.

Abbreviation Log := (list (LogLevel * string)).

Definition logged (A : Type) : Type := (result A * Log)%type.

Definition lret {A} (a : A) : logged A := (Ok a, []).

Definition lift {A} (r : result A) : logged A := (r, []).

Definition lbind {A B} (m : logged A) (k : A -> logged B) : logged B :=
  match m with
  | (Ok a, l) => let '(r, l') := k a in (r, l ++ l')
  | (Err e, l) => (Err e, l)
  | (Panic e, l) => (Panic e, l)
  | (OutOfFuel, l) => (OutOfFuel, l)
  end.

Notation "'let+' x := m 'in' k" := (lbind m (fun x => k))
  (at level 10, x name, m at level 100, k at level 200).

Definition tflog_Warn (msg : string) : logged unit := (Ok tt, [(LogWarn, msg)]).

Definition field_not_found (tagName : string) : string :=
  "Field '" +:+ tagName +:+ "' not found in schema attributes".

Definition kind_name (k : reflect.Kind) : string :=
  match k with
  | reflect.Invalid => "invalid" | reflect.Bool => "bool"
  | reflect.Int => "int" | reflect.Int8 => "int8" | reflect.Int16 => "int16"
  | reflect.Int32 => "int32" | reflect.Int64 => "int64"
  | reflect.Uint => "uint" | reflect.Uint8 => "uint8"
  | reflect.Uint16 => "uint16" | reflect.Uint32 => "uint32"
  | reflect.Uint64 => "uint64" | reflect.Uintptr => "uintptr"
  | reflect.Float32 => "float32" | reflect.Float64 => "float64"
  | reflect.Complex64 => "complex64" | reflect.Complex128 => "complex128"
  | reflect.Array => "array" | reflect.Chan => "chan" | reflect.Func => "func"
  | reflect.Interface => "interface" | reflect.Map => "map"
  | reflect.Pointer => "ptr" | reflect.Slice => "slice"
  | reflect.String => "string" | reflect.Struct => "struct"
  | reflect.UnsafePointer => "unsafe.Pointer"
  end.

(** [v.String()] of a [reflect.Value]: the string of a string, and a
    description for any other value (composite types are named by their
    kind here). *)
Definition reflect_String (v : option GoValue) : string :=
  match v with
  | Some (GString s) => s
  | Some v => "<" +:+ kind_name (ValueKind v) +:+ " Value>"
  | None => "<invalid Value>"
  end.

(** The elements [v.Index(0)], ..., [v.Index(v.Len()-1)]. *)
Definition indexed_elements (v : option GoValue) : result (list GoValue) :=
  match v with
  | Some (GSlice _ None) => Ok []
  | Some (GSlice _ (Some l)) | Some (GArray _ l) => Ok l
  | Some (GString s) =>
      Ok ((fun c => GUint reflect.Uint8 (Z.of_nat (nat_of_ascii c)))
            <$> list_ascii_of_string s)
  | Some (GMap _ None) | Some (GChan _ _) => Ok []
  | Some (GMap _ (Some m)) =>
      if bool_decide (size m = 0%nat) then Ok []
      else Panic "reflect: call of reflect.Value.Index on map Value"
  | _ => Panic "reflect: call of reflect.Value.Len on a Value without length"
  end.

(** The entries [v.MapIndex(key)] over [v.MapKeys()]. *)
Definition map_entries (v : option GoValue) : result (gmap string GoValue) :=
  match v with
  | Some (GMap _ None) => Ok ∅
  | Some (GMap _ (Some m)) => Ok m
  | _ => Panic "reflect: call of reflect.Value.MapKeys on non-map Value"
  end.

(** The two flattened lists side by side. *)
Definition zip_fields {A B} (xs : list A) (ys : list B) : result (list (A * B)) :=
  if bool_decide (length xs = length ys) then Ok (zip xs ys)
  else Panic "runtime error: index out of range".

Definition type_of_value (v : option GoValue) : result GoType :=
  match v with
  | Some v => Ok (GoTypeOf v)
  | None => Panic "reflect: call of reflect.Value.Type on zero Value"
  end.

Definition value_or_panic (v : option GoValue) : result GoValue :=
  match v with
  | Some v => Ok v
  | None => Panic "reflect: call of a method on zero Value"
  end.

Section Encode.
Variable ToSnake : string -> string.
(** [json.Marshal] *)
Variable json_Marshal : option GoValue -> result string.

(** [attrs[strcase.ToSnake(key)] = attrType] for all declared types. *)
Definition snake_keys (attrTypes : gmap string AttrType)
  : gmap string AttrType :=
  map_fold (fun key attrType acc => <[ToSnake key := attrType]> acc)
    ∅ attrTypes.

Section EncodeFields.
Variable interfaceTypeToAttr : option GoValue -> AttrType -> logged Value.

(** A field of a struct, encoded into [values] when the object type
    declares its wire name. *)
Definition encodeObjectField (attrs : gmap string AttrType)
    (acc : logged (gmap string Value)) (fv : StructField * GoValue)
  : logged (gmap string Value) :=
  let+ values := acc in
  let tagName := resolveFieldName ToSnake fv.1.1 in
  match attrs !! tagName with
  | Some attrType =>
      let+ attrVal :=
        (let '(r, l) := interfaceTypeToAttr (Interface fv.2) attrType in
         (wrap_error ("field '" +:+ tagName +:+ "': ") r, l)) in
      lret (<[tagName := attrVal]> values)
  | None =>
      let+ _ := tflog_Warn (field_not_found tagName) in
      lret values
  end.

Definition encodeElements (elemType : AttrType)
  : list GoValue -> logged (list Value) :=
  fix loop (elems : list GoValue) : logged (list Value) :=
    match elems with
    | [] => lret []
    | e :: rest =>
        let+ elemAttr := interfaceTypeToAttr (Interface e) elemType in
        let+ elems := loop rest in
        lret (elemAttr :: elems)
    end.

Definition encodeTupleElements
  : list AttrType -> list GoValue -> logged (list Value) :=
  fix loop (elemTypes : list AttrType) (elems : list GoValue)
    : logged (list Value) :=
    match elems, elemTypes with
    | [], _ => lret []
    | e :: rest, t :: elemTypes =>
        let+ elemAttr := interfaceTypeToAttr (Interface e) t in
        let+ elems := loop elemTypes rest in
        lret (elemAttr :: elems)
    | _ :: _, [] => lift (Panic "runtime error: index out of range")
    end.

Definition encodeEntries (elemType : AttrType) (m : gmap string GoValue)
  : logged (gmap string Value) :=
  map_fold (fun key e (acc : logged (gmap string Value)) =>
              let+ res := acc in
              let+ elemAttr := interfaceTypeToAttr (Interface e) elemType in
              lret (<[key := elemAttr]> res))
    (lret ∅) m.
End EncodeFields.

Fixpoint interfaceTypeToAttr (fuel : nat) (val : option GoValue)
    (t : AttrType) : logged Value :=
  match fuel with
  | O => lift OutOfFuel
  | S fuel =>
      match val with
      | Some (GPointer _ None) => lift (getNullValue t)
      | _ =>
          let valReflect :=
            match val with
            | Some (GPointer _ (Some target)) => Some target
            | _ => val
            end in
          match t with
          | StringType => lret (StringValue (reflect_String valReflect))
          | Int64Type =>
              match valReflect with
              | Some (GInt _ z) => lret (Int64Value z)
              | Some (GUint k uintVal) =>
                  if bool_decide (k = reflect.Uintptr)
                  then lift (Err "unsupported kind for Int64Type")
                  else if MaxInt64 <? uintVal
                  then lift (Err "uint value overflows int64")
                  else lret (Int64Value uintVal)
              | _ => lift (Err "unsupported kind for Int64Type")
              end
          | BoolType =>
              match valReflect with
              | Some (GBool b) => lret (BoolValue b)
              | _ => lift (Panic "reflect: call of reflect.Value.Bool on non-bool Value")
              end
          | ObjectType attrTypes =>
              let attrs := snake_keys attrTypes in
              let+ typ := lift (type_of_value valReflect) in
              let+ actualFields := lift (resolveFieldsSquashed typ) in
              let+ value := lift (value_or_panic valReflect) in
              let+ actualFieldValues :=
                lift (resolveFieldsValueSquashed value) in
              let+ pairs := lift (zip_fields actualFields actualFieldValues) in
              let+ values :=
                foldl (encodeObjectField (interfaceTypeToAttr fuel) attrs)
                  (lret ∅) pairs in
              let '(objVal, hasError) := ObjectValue attrs values in
              if hasError then lift (Err "failed to convert object")
              else lret objVal
          | ListType elemType =>
              let+ items := lift (indexed_elements valReflect) in
              let+ elems :=
                encodeElements (interfaceTypeToAttr fuel) elemType items in
              let '(listVal, hasError) := ListValue elemType elems in
              if hasError then lift (Err "failed to convert list")
              else lret listVal
          | SetType elemType =>
              let+ items := lift (indexed_elements valReflect) in
              let+ elems :=
                encodeElements (interfaceTypeToAttr fuel) elemType items in
              let '(setVal, hasError) := SetValue elemType elems in
              if hasError then lift (Err "failed to convert set")
              else lret setVal
          | TupleType elemTypes =>
              let+ items := lift (indexed_elements valReflect) in
              let+ elems :=
                encodeTupleElements (interfaceTypeToAttr fuel) elemTypes
                  items in
              let '(tupleVal, hasError) := TupleValue elemTypes elems in
              if hasError then lift (Err "failed to convert tuple")
              else lret tupleVal
          | MapType elemType =>
              let+ entries := lift (map_entries valReflect) in
              let+ res :=
                encodeEntries (interfaceTypeToAttr fuel) elemType entries in
              let '(mapVal, hasError) := MapValue elemType res in
              if hasError then lift (Err "failed to convert map")
              else lret mapVal
          | DynamicType =>
              let+ jsonBytes :=
                lift (wrap_error "failed to marshal dynamic value to JSON: "
                        (json_Marshal val)) in
              lret (NewDynamicValue (StringValue jsonBytes))
          | NumberType | Float64Type => lift (Err "unsupported type")
          end
      end
  end.

(** A field of the input record, encoded into [valueMap] when the
    schema declares its wire name. *)
Definition encodeStateField (fuel : nat) (schemaAttrs : gmap string AttrType)
    (acc : logged (gmap string Value)) (fv : StructField * GoValue)
  : logged (gmap string Value) :=
  let+ valueMap := acc in
  let tagName := resolveFieldName ToSnake fv.1.1 in
  match schemaAttrs !! tagName with
  | None =>
      let+ _ := tflog_Warn (field_not_found tagName) in
      lret valueMap
  | Some attrType =>
      let+ attrVal :=
        (let '(r, l) := interfaceTypeToAttr fuel (Interface fv.2) attrType in
         (wrap_error ("field '" +:+ tagName +:+ "': ") r, l)) in
      lret (<[tagName := attrVal]> valueMap)
  end.

(** What a declared attribute without value is filled with: the value
    the plan has for it, else the one the state has, else null. *)
Definition fillMissing (state plan : option Value) (attrName : string)
    (attrType : AttrType) : result Value :=
  match
    match plan with
    | Some planObj => Attributes planObj !! attrName
    | None => None
    end
  with
  | Some attrValue => Ok attrValue
  | None =>
      match
        match state with
        | Some stateObj => Attributes stateObj !! attrName
        | None => None
        end
      with
      | Some attrValue => Ok attrValue
      | None =>
          wrap_error ("failed to create null value for attribute "
                      +:+ attrName +:+ ": ") (getNullValue attrType)
      end
  end.

Definition fillDeclared (state plan : option Value)
    (schemaAttrs : gmap string AttrType) (valueMap : gmap string Value)
  : result (gmap string Value) :=
  map_fold (fun attrName attrType (acc : result (gmap string Value)) =>
              let* valueMap := acc in
              match valueMap !! attrName with
              | Some _ => Ok valueMap
              | None =>
                  let* v := fillMissing state plan attrName attrType in
                  Ok (<[attrName := v]> valueMap)
              end) (Ok valueMap) schemaAttrs.

(** The two loops of [StructToStateObject] and the final object, for
    the flattened fields of the input side by side with their values.
    (All fields are taken as valid and interfaceable: a field reached
    through an unexported, non-embedded squashed field is not
    modelled.) *)
Definition encodeRecord (fuel : nat) (state plan : option Value)
    (schemaAttrs : gmap string AttrType)
    (pairs : list (StructField * GoValue)) : logged Value :=
  let+ valueMap :=
    foldl (encodeStateField fuel schemaAttrs) (lret ∅) pairs in
  let+ valueMap := lift (fillDeclared state plan schemaAttrs valueMap) in
  let '(objVal, hasError) := ObjectValue schemaAttrs valueMap in
  if hasError then lift (Err "object value creation error")
  else lret objVal.

(** [val := reflect.ValueOf(input)], dereferenced when a pointer. *)
Definition inputValue (input : option GoValue) : option GoValue :=
  match input with
  | Some (GPointer _ target) => target
  | _ => input
  end.

(** [StructToStateObject]; [state] and [plan] are the objects read out
    of the state and the plan, [None] for a nil pointer. *)
Definition StructToStateObject (fuel : nat) (input : option GoValue)
    (state plan : option Value) (schemaAttrs : gmap string AttrType)
  : logged Value :=
  let val := inputValue input in
  let+ typ := lift (type_of_value val) in
  let+ actualFields := lift (resolveFieldsSquashed typ) in
  let+ value := lift (value_or_panic val) in
  let+ actualValueFields := lift (resolveFieldsValueSquashed value) in
  let+ pairs := lift (zip_fields actualFields actualValueFields) in
  encodeRecord fuel state plan schemaAttrs pairs.
End Encode.

(** *** A record and a schema for the encoder *)

Definition database_record : GoValue :=
  GStruct [ (tagged_field "Name" "name", GString "db1");
            (tagged_field "Region" "region", GString "eu") ].

Definition database_schema : gmap string AttrType :=
  {[ "name" := StringType; "count" := Int64Type ]}.

Definition database_plan : Value :=
  VObject database_schema ValueStateKnown
    {[ "name" := StringValue "db1"; "count" := Int64Value 3 ]}.

(** ** Reconcile: plan against state

    Values are trees here: a pointer that the source takes with [Addr] and
    one it makes with [reflect.New] and [Set] point to equal values, and
    the finalized record shares no field with another one that is written
    after it was read. *)

Definition is_pointer (v : GoValue) : bool :=
  match v with GPointer _ _ => true | _ => false end.

(** [reflect.New(v.Type())] with [v] set into it, or [v.Addr()]. *)
Definition pointer_to (v : GoValue) : GoValue :=
  GPointer (GoTypeOf v) (Some v).

(** [target.Set(v)]: [v] must be assignable to the type of [target]. *)
Definition assign (target v : GoValue) : result GoValue :=
  match target with
  | GInterface _ => Ok (GInterface (Interface v))
  | _ =>
      if GoType_eqb (GoTypeOf v) (GoTypeOf target) then Ok v
      else Panic "reflect.Set: value is not assignable to the type of the target"
  end.

(** The field [v.FieldByName(name)] of a struct: a field of this name, or
    else one promoted from an embedded struct. *)
Fixpoint FieldByName (v : GoValue) (name : string)
  : option (FieldInfo * GoValue) :=
  match v with
  | GStruct fs =>
      match
        (fix direct (fs : list (FieldInfo * GoValue)) :=
           match fs with
           | [] => None
           | (i, x) :: rest =>
               if bool_decide (Name i = name) then Some (i, x)
               else direct rest
           end) fs
      with
      | Some f => Some f
      | None =>
          (fix embedded (fs : list (FieldInfo * GoValue)) :=
             match fs with
             | [] => None
             | (i, x) :: rest =>
                 match
                   if Anonymous i then
                     match x with
                     | GStruct _ => FieldByName x name
                     | GPointer _ (Some s) => FieldByName s name
                     | _ => None
                     end
                   else None
                 with
                 | Some f => Some f
                 | None => embedded rest
                 end
             end) fs
      end
  | _ => None
  end.

(** The struct [v] with [f] applied to the field that [FieldByName]
    finds; [None] when there is no such field. *)
Fixpoint withField (name : string)
    (f : FieldInfo -> GoValue -> result GoValue) (v : GoValue)
  : result (option GoValue) :=
  match v with
  | GStruct fs =>
      let* found :=
        (fix direct (fs : list (FieldInfo * GoValue))
           : result (option (list (FieldInfo * GoValue))) :=
           match fs with
           | [] => Ok None
           | (i, x) :: rest =>
               if bool_decide (Name i = name) then
                 let* x' := f i x in Ok (Some ((i, x') :: rest))
               else
                 let* r := direct rest in Ok (cons (i, x) <$> r)
           end) fs in
      match found with
      | Some fs' => Ok (Some (GStruct fs'))
      | None =>
          let* found :=
            (fix embedded (fs : list (FieldInfo * GoValue))
               : result (option (list (FieldInfo * GoValue))) :=
               match fs with
               | [] => Ok None
               | (i, x) :: rest =>
                   let* inner :=
                     if Anonymous i then
                       match x with
                       | GStruct _ => withField name f x
                       | GPointer t (Some s) =>
                           let* r := withField name f s in
                           Ok ((fun s' => GPointer t (Some s')) <$> r)
                       | _ => Ok None
                       end
                     else Ok None in
                   match inner with
                   | Some x' => Ok (Some ((i, x') :: rest))
                   | None =>
                       let* r := embedded rest in Ok (cons (i, x) <$> r)
                   end
               end) fs in
          Ok (GStruct <$> found)
      end
  | _ => Ok None
  end.

(** Both panic on a value that is not a struct. *)
Definition structFieldByName (v : GoValue) (name : string)
  : result (option GoValue) :=
  match v with
  | GStruct _ => Ok (snd <$> FieldByName v name)
  | _ => Panic "reflect: call of reflect.Value.FieldByName on non-struct Value"
  end.

Definition withStructField (name : string)
    (f : FieldInfo -> GoValue -> result GoValue) (v : GoValue)
  : result GoValue :=
  match v with
  | GStruct _ =>
      let* updated := withField name f v in Ok (default v updated)
  | _ => Panic "reflect: call of reflect.Value.FieldByName on non-struct Value"
  end.

(** [targetField.CanSet()] for a field of an addressable struct. *)
Definition CanSet (i : FieldInfo) : bool := negb (is_unexported i).

(** The recurring assignment: through a pointer when the target is of
    pointer type and the value is not a pointer. *)
Definition setThroughPointer (target planVal : GoValue) : result GoValue :=
  if is_pointer target && negb (is_pointer planVal)
  then assign target (pointer_to planVal)
  else assign target planVal.

(** [setTargetValueFromPlanAndState]: the new value of the target.
    [canAddr] is [planVal.CanAddr()]; [stateVal] is [None] for an invalid
    value. *)
Fixpoint setTargetValueFromPlanAndState (planVal : GoValue) (canAddr : bool)
    (stateVal : option GoValue) (target : GoValue) {struct planVal}
  : result GoValue :=
  match planVal with
  | GPointer _ None => Ok target
  | GPointer _ (Some pointee) =>
      setTargetValueFromPlanAndState pointee true stateVal target
  | _ =>
      match stateVal with
      | None =>
          if is_pointer target && negb (is_pointer planVal) && canAddr
          then assign target (pointer_to planVal)
          else assign target planVal
      | Some stateVal =>
          if slices_Contains simpleTypes (ValueKind planVal) then
            if bool_decide (ValueKind planVal = reflect.Bool) then
              if is_pointer target then assign target (pointer_to planVal)
              else assign target planVal
            else if negb (IsZero planVal) then
              if IsZero stateVal
                 || negb (DeepEqual (Interface planVal) (Interface stateVal))
              then setThroughPointer target planVal
              else Ok target
            else Ok target
          else
            match planVal with
            | GSlice _ _ | GMap _ _ | GInterface _ | GChan _ _ =>
                if negb (IsNil planVal) then setThroughPointer target planVal
                else Ok target
            | GStruct planFields =>
                if IsZero stateVal then setThroughPointer target planVal
                else
                  let stateValNonPtr :=
                    match stateVal with
                    | GPointer _ (Some s) => s
                    | _ => stateVal
                    end in
                  let targetNonPtr :=
                    match target with
                    | GPointer _ (Some s) => s
                    | GPointer t None => GPointer t None
                    | _ => target
                    end in
                  let* targetNonPtr :=
                    (fix loop (fs : list (FieldInfo * GoValue))
                         (targetNonPtr : GoValue) : result GoValue :=
                       match fs with
                       | [] => Ok targetNonPtr
                       | (field, planField) :: rest =>
                           if is_unexported field then loop rest targetNonPtr
                           else
                             let* stateField :=
                               structFieldByName stateValNonPtr (Name field) in
                             let* targetNonPtr :=
                               withStructField (Name field)
                                 (fun info targetField =>
                                    if CanSet info then
                                      setTargetValueFromPlanAndState planField
                                        canAddr stateField targetField
                                    else Ok targetField)
                                 targetNonPtr in
                             loop rest targetNonPtr
                       end) planFields targetNonPtr in
                  match target with
                  | GPointer t (Some _) => Ok (GPointer t (Some targetNonPtr))
                  | GPointer t None => Ok target
                  | _ => Ok targetNonPtr
                  end
            | _ => Ok target
            end
      end
  end.

(** The part of [StructFromPlanAndStateObject] after the two records are
    decoded: the finalized record of the type of the plan prototype. *)
Definition reconcile (planReflectedPrototype : GoType)
    (planNewStruct stateNewStruct : GoValue) : result GoValue :=
  let planFinalizedStruct := Zero planReflectedPrototype in
  let stateValue := stateNewStruct in
  let* actualFields := resolveFieldsSquashed (GoTypeOf stateValue) in
  let* actualValueFields := resolveFieldsValueSquashed stateValue in
  let* pairs := zip_fields actualFields actualValueFields in
  let* planFinalizedStruct :=
    foldl (fun (acc : result GoValue) (fv : StructField * GoValue) =>
             let* finalized := acc in
             withStructField (Name fv.1.1)
               (fun info newField =>
                  if CanSet info then
                    if is_pointer newField && negb (is_pointer fv.2)
                    then assign newField (pointer_to fv.2)
                    else assign newField fv.2
                  else Ok newField)
               finalized)
      (Ok planFinalizedStruct) pairs in
  let planValue := planNewStruct in
  let* actualPlanFields := resolveFieldsSquashed (GoTypeOf planValue) in
  let* actualPlanValueFields := resolveFieldsValueSquashed planValue in
  let* planPairs := zip_fields actualPlanFields actualPlanValueFields in
  let* planFinalizedStruct :=
    foldl (fun (acc : result GoValue) (fv : StructField * GoValue) =>
             let* finalized := acc in
             let* stateField := structFieldByName stateValue (Name fv.1.1) in
             withStructField (Name fv.1.1)
               (fun info newField =>
                  if CanSet info then
                    setTargetValueFromPlanAndState fv.2 true stateField
                      newField
                  else Ok newField)
               finalized)
      (Ok planFinalizedStruct) planPairs in
  Ok (pointer_to planFinalizedStruct).

(** *** A record with an optional flag *)

Definition flag_type : GoType :=
  TStruct [ (plain_field "Enabled", TPointer (TBasic reflect.Bool));
            (plain_field "Name", TBasic reflect.String);
            (plain_field "Size", TBasic reflect.Int) ].

Definition flag_record (enabled : option bool) (name : string) (size : Z)
  : GoValue :=
  GStruct [ (plain_field "Enabled",
             GPointer (TBasic reflect.Bool) (GBool <$> enabled));
            (plain_field "Name", GString name);
            (plain_field "Size", GInt reflect.Int size) ].

(** What a chain of pointers leads to; [None] when a pointer is nil. *)
Fixpoint deref (v : GoValue) : option GoValue :=
  match v with
  | GPointer _ None => None
  | GPointer _ (Some pointee) => deref pointee
  | _ => Some v
  end.

(** The value as a field of the type of [target] holds it: behind a
    pointer when the field is of pointer type. *)
Definition stored (target v : GoValue) : GoValue :=
  if is_pointer target then pointer_to v else v.

Definition is_container (v : GoValue) : bool :=
  match v with
  | GSlice _ _ | GMap _ _ | GInterface _ | GChan _ _ => true
  | _ => false
  end.

(** A field of type [bool] or of a pointer type that leads to [bool]. *)
Definition boolean_field (v : GoValue) : Prop :=
  strip_pointers (GoTypeOf v) = TBasic reflect.Bool.

(** ** Deep copy, over an explicit heap

    What a pointer, a slice, a map or a channel refers to lives in a cell
    of the heap, so that two values can share it.  A pointer refers to a
    cell of its own (no pointers into a struct or array); a slice is a
    window of an array cell (capacity is left out); a map has keys of
    scalar kinds, which [deepCopy] returns as they are. *)

Module DeepCopy.

Abbreviation loc := positive.

Inductive scalar : Type :=
| SBool (b : bool)
| SInt (k : reflect.Kind) (z : Z)
| SFloat (k : reflect.Kind) (bits : Z)
| SString (s : string).

Inductive value : Type :=
| Scalar (s : scalar)
| Ptr (target : option loc)
| Iface (dynamic : option value)
| Slice (window : option (loc * nat * nat))
| Array (elems : list value)
| MapV (buckets : option loc)
| Struct (fields : list (FieldInfo * value))
| Chan (channel : option loc)
| Func (code : option loc).

Inductive cell : Type :=
| CVal (v : value)
| CArr (elems : list value)
| CMap (entries : list (scalar * value)).

Abbreviation heap := (gmap loc cell).

Definition zero_of_scalar (s : scalar) : scalar :=
  match s with
  | SBool _ => SBool false
  | SInt k _ => SInt k 0
  | SFloat k _ => SFloat k 0
  | SString _ => SString EmptyString
  end.

(** [reflect.Zero(v.Type())] *)
Fixpoint zero_like (v : value) : value :=
  match v with
  | Scalar s => Scalar (zero_of_scalar s)
  | Ptr _ => Ptr None
  | Iface _ => Iface None
  | Slice _ => Slice None
  | Array elems => Array (zero_like <$> elems)
  | MapV _ => MapV None
  | Struct fields =>
      Struct ((fix go (fs : list (FieldInfo * value)) :=
                 match fs with
                 | [] => []
                 | (i, x) :: fs => (i, zero_like x) :: go fs
                 end) fields)
  | Chan _ => Chan None
  | Func _ => Func None
  end.

(** A new cell. *)
Definition alloc (c : cell) (h : heap) : loc * heap :=
  let l := fresh (dom h) in (l, <[l := c]> h).

Section CopyLists.
Variable copy : value -> heap -> result (value * heap).

Fixpoint copyElems (vs : list value) (h : heap)
  : result (list value * heap) :=
  match vs with
  | [] => Ok ([], h)
  | x :: xs =>
      let* c := copy x h in
      let* cs := copyElems xs c.2 in
      Ok (c.1 :: cs.1, cs.2)
  end.

(** [SetMapIndex(deepCopy(key), deepCopy(MapIndex(key)))]; the copy of
    a scalar key is the key. *)
Fixpoint copyEntries {K} (es : list (K * value)) (h : heap)
  : result (list (K * value) * heap) :=
  match es with
  | [] => Ok ([], h)
  | (k, x) :: es =>
      let* c := copy x h in
      let* cs := copyEntries es c.2 in
      Ok ((k, c.1) :: cs.1, cs.2)
  end.

(** The fields of the new struct: a field that cannot be set stays
    zero. *)
Fixpoint copyFields (fs : list (FieldInfo * value)) (h : heap)
  : result (list (FieldInfo * value) * heap) :=
  match fs with
  | [] => Ok ([], h)
  | (i, x) :: fs =>
      if negb (CanSet i) then
        let* cs := copyFields fs h in
        Ok ((i, zero_like x) :: cs.1, cs.2)
      else
        let* c := copy x h in
        let* cs := copyFields fs c.2 in
        Ok ((i, c.1) :: cs.1, cs.2)
  end.
End CopyLists.

(** [deepCopy]: the copy and the heap with the cells made for it.  (The
    source makes the cell of a slice or map before it copies the
    elements, the model after.) *)
Fixpoint deepCopy (fuel : nat) (v : value) (h : heap)
  : result (value * heap) :=
  match fuel with
  | O => OutOfFuel
  | S fuel =>
      match v with
      | Ptr None => Ok (Ptr None, h)
      | Ptr (Some l) =>
          match h !! l with
          | Some (CVal x) =>
              let* c := deepCopy fuel x h in
              let '(l', h') := alloc (CVal c.1) c.2 in
              Ok (Ptr (Some l'), h')
          | _ => Panic "invalid memory address"
          end
      | Iface None => Ok (Iface None, h)
      | Iface (Some x) =>
          let* c := deepCopy fuel x h in
          Ok (Iface (Some c.1), c.2)
      | Slice None => Ok (Slice None, h)
      | Slice (Some (l, off, len)) =>
          match h !! l with
          | Some (CArr elems) =>
              if bool_decide (off + len <= length elems)%nat then
                let* cs := copyElems (deepCopy fuel)
                             (take len (drop off elems)) h in
                let '(l', h') := alloc (CArr cs.1) cs.2 in
                Ok (Slice (Some (l', 0%nat, len)), h')
              else Panic "slice bounds out of range"
          | _ => Panic "invalid memory address"
          end
      | Array elems =>
          let* cs := copyElems (deepCopy fuel) elems h in
          Ok (Array cs.1, cs.2)
      | MapV None => Ok (MapV None, h)
      | MapV (Some l) =>
          match h !! l with
          | Some (CMap entries) =>
              let* cs := copyEntries (deepCopy fuel) entries h in
              let '(l', h') := alloc (CMap cs.1) cs.2 in
              Ok (MapV (Some l'), h')
          | _ => Panic "invalid memory address"
          end
      | Struct fields =>
          let* cs := copyFields (deepCopy fuel) fields h in
          Ok (Struct cs.1, cs.2)
      | Scalar _ | Chan _ | Func _ => Ok (v, h)
      end
  end.

(** A value unfolded along the heap: what [reflect.DeepEqual] compares,
    with the cells it lives in. *)
Inductive tree : Type :=
| TScalar (s : scalar)
| TPtrNil
| TPtr (l : loc) (t : tree)
| TIfaceNil
| TIface (t : tree)
| TSliceNil
| TSlice (l : loc) (ts : list tree)
| TArray (ts : list tree)
| TMapNil
| TMap (l : loc) (ts : list (scalar * tree))
| TStruct (ts : list (FieldInfo * tree))
| TChan (c : option loc)
| TFunc (c : option loc).

Section ReifyLists.
Variable reify : value -> option tree.

Fixpoint reifyElems (vs : list value) : option (list tree) :=
  match vs with
  | [] => Some []
  | x :: xs =>
      t ← reify x; ts ← reifyElems xs; Some (t :: ts)
  end.

Fixpoint reifyEntries {K} (es : list (K * value))
  : option (list (K * tree)) :=
  match es with
  | [] => Some []
  | (k, x) :: es =>
      t ← reify x; ts ← reifyEntries es; Some ((k, t) :: ts)
  end.
End ReifyLists.

Fixpoint reify (fuel : nat) (h : heap) (v : value) : option tree :=
  match fuel with
  | O => None
  | S fuel =>
      match v with
      | Scalar s => Some (TScalar s)
      | Ptr None => Some TPtrNil
      | Ptr (Some l) =>
          match h !! l with
          | Some (CVal x) => TPtr l <$> reify fuel h x
          | _ => None
          end
      | Iface None => Some TIfaceNil
      | Iface (Some x) => TIface <$> reify fuel h x
      | Slice None => Some TSliceNil
      | Slice (Some (l, off, len)) =>
          match h !! l with
          | Some (CArr elems) =>
              if bool_decide (off + len <= length elems)%nat
              then TSlice l <$> reifyElems (reify fuel h)
                                  (take len (drop off elems))
              else None
          | _ => None
          end
      | Array elems => TArray <$> reifyElems (reify fuel h) elems
      | MapV None => Some TMapNil
      | MapV (Some l) =>
          match h !! l with
          | Some (CMap entries) =>
              TMap l <$> reifyEntries (reify fuel h) entries
          | _ => None
          end
      | Struct fields => TStruct <$> reifyEntries (reify fuel h) fields
      | Chan c => Some (TChan c)
      | Func c => Some (TFunc c)
      end
  end.

(** The cells of a tree. *)
Fixpoint tlocs (t : tree) : gset loc :=
  match t with
  | TScalar _ | TPtrNil | TIfaceNil | TSliceNil | TMapNil => ∅
  | TPtr l t => {[l]} ∪ tlocs t
  | TIface t => tlocs t
  | TSlice l ts => {[l]} ∪ foldr (fun t acc => tlocs t ∪ acc) ∅ ts
  | TArray ts => foldr (fun t acc => tlocs t ∪ acc) ∅ ts
  | TMap l ts =>
      {[l]} ∪ foldr (fun kt acc => tlocs kt.2 ∪ acc) ∅ ts
  | TStruct ts => foldr (fun kt acc => tlocs kt.2 ∪ acc) ∅ ts
  | TChan c | TFunc c =>
      match c with Some l => {[l]} | None => ∅ end
  end.

(** The tree without its addresses: structural content only. *)
Fixpoint erase (t : tree) : tree :=
  match t with
  | TPtr _ t => TPtr 1%positive (erase t)
  | TIface t => TIface (erase t)
  | TSlice _ ts => TSlice 1%positive (erase <$> ts)
  | TArray ts => TArray (erase <$> ts)
  | TMap _ ts => TMap 1%positive ((fun kt => (kt.1, erase kt.2)) <$> ts)
  | TStruct ts => TStruct ((fun kt => (kt.1, erase kt.2)) <$> ts)
  | _ => t
  end.

(** What [deepCopy] copies in full: every struct field can be set, and
    no channel or function is held. *)
Fixpoint plain (t : tree) : bool :=
  match t with
  | TPtr _ t | TIface t => plain t
  | TSlice _ ts | TArray ts => forallb plain ts
  | TMap _ ts => forallb (fun kt => plain kt.2) ts
  | TStruct ts => forallb (fun kt => CanSet kt.1 && plain kt.2) ts
  | TChan c | TFunc c => match c with Some _ => false | None => true end
  | _ => true
  end.

(** A record that [deepCopy] copies in full with this fuel: its cells
    exist and lead to no cycle within the fuel. *)
Definition copyable (fuel : nat) (h : heap) (v : value) : bool :=
  match reify fuel h v with
  | Some t => plain t
  | None => false
  end.

(** [DeepCopy]: [None] is the nil interface. *)
Definition DeepCopy (fuel : nat) (v : option value) (h : heap)
  : result (option value * heap) :=
  match v with
  | None => Ok (None, h)
  | Some v => let* c := deepCopy fuel v h in Ok (Some c.1, c.2)
  end.

(** *** Sample records *)

Definition hidden_field : FieldInfo :=
  {| Name := "secret"; PkgPath := "main"; Tag := ∅; Anonymous := false |}.

Definition account_with_secret : value :=
  Struct [ (plain_field "Name", Scalar (SString "admin"));
           (hidden_field, Scalar (SInt reflect.Int 5)) ].

Definition tags_heap : heap :=
  {[ 1%positive := CArr [Scalar (SString "a"); Scalar (SString "b")];
     2%positive := CVal (Scalar (SInt reflect.Int 7)) ]}.

Definition tagged_account : value :=
  Struct [ (plain_field "Tags", Slice (Some (1%positive, 0%nat, 2%nat)));
           (plain_field "Size", Ptr (Some 2%positive)) ].
End DeepCopy.

(** * Further parts of the package

    Samples and the functions of the package that the first part does
    not need: the validators and defaults of the derived schema, the
    attribute types of a schema, and the lookup of a schema by path. *)

(** *** More sample attribute trees *)

Definition incoming_stopped_status : gmap string Value :=
  {[ "status" := StringValue "stopped" ]}.

(** An object whose type declares [status] only, and an incoming object
    that brings an attribute the type does not declare. *)
Definition existing_settings : gmap string Value :=
  {[ "settings" := status_object "running" ]}.

Definition incoming_settings : gmap string Value :=
  {[ "settings" :=
       VObject {[ "status" := StringType; "zone" := StringType ]}
         ValueStateKnown
         {[ "status" := StringNull; "zone" := StringValue "eu" ]} ]}.

Definition incoming_short_disks : gmap string Value :=
  {[ "disks" := disks_list [ ObjectNull status_type;
                             status_object "detached";
                             status_object "spare";
                             ObjectNull status_type ] ]}.

(** *** A sample schema, state and plan for [MergePlanToStateObject] *)

Definition server_schema : gmap string AttrType :=
  {[ "name" := StringType; "size" := Int64Type; "zone" := StringType ]}.

Definition server_state : Value :=
  VObject server_schema ValueStateKnown
    {[ "name" := StringValue "db1"; "size" := Int64Value 3;
       "zone" := StringNull ]}.

Definition server_plan : Value :=
  VObject {[ "name" := StringType; "size" := Int64Type;
             "owner" := StringType ]} ValueStateKnown
    {[ "name" := StringValue "db2"; "size" := VInt64 ValueStateUnknown 0;
       "owner" := StringValue "ops" ]}.

(** ** The defaults and validators of the derived schema *)

(** [strings.Join] *)
Fixpoint strings_Join (elems : list string) (sep : string) : string :=
  match elems with
  | [] => EmptyString
  | [s] => s
  | s :: rest => s +:+ sep +:+ strings_Join rest sep
  end.

(** [types.SetValueMust], [types.ListValueMust]: the value, or a panic
    when the constructor reports an error. *)
Definition Must (constructed : Value * bool) : result Value :=
  if constructed.2 then Panic "ValueMust received error(s)"
  else Ok constructed.1.

(** [DefaultString], [DefaultBool], [DefaultInt64], [DefaultSet] and
    [DefaultList] of the nine default handlers: the plan value they
    set. *)
Definition DefaultPlanValue (d : AttrDefault) : result Value :=
  match d with
  | StringDefault v => Ok (StringValue v)
  | BoolDefault v => Ok (BoolValue v)
  | Int64Default v => Ok (Int64Value v)
  | SetStringDefault vs => Must (SetValue StringType (StringValue <$> vs))
  | SetNumericDefault vs => Must (SetValue Int64Type (Int64Value <$> vs))
  | SetBoolDefault vs => Must (SetValue BoolType (BoolValue <$> vs))
  | ListStringDefault vs => Must (ListValue StringType (StringValue <$> vs))
  | ListNumericDefault vs => Must (ListValue Int64Type (Int64Value <$> vs))
  | ListBoolDefault vs => Must (ListValue BoolType (BoolValue <$> vs))
  end.

Section Validators.
Context {Path : Type} `{EqDecision Path}.

(** The request of a validator of value type [V]. *)
Record ValidatorRequest (V : Type) := {
  ValPath : Path;
  ValConfigValue : V
}.
Arguments ValPath {V}.
Arguments ValConfigValue {V}.

(** [resp.Diagnostics.Append(diags...)] *)
Definition AppendAll (diags new : @Diagnostics Path) : Diagnostics :=
  foldl Append diags new.

Definition ValidateString (Choices : list string)
    (req : ValidatorRequest types_String) (resp : Diagnostics)
  : Diagnostics :=
  if IsNull (attr_value (ValConfigValue req))
     || IsUnknown (attr_value (ValConfigValue req))
  then resp
  else
    let value := ValueString (ValConfigValue req) in
    if slices_Contains Choices value then resp
    else
      AddAttributeError resp (ValPath req) "Invalid Value"
        (Sprintf "Value must be one of: %s"
           [ArgString (strings_Join Choices ", ")]).

(** The loop over the converted values: the first value that is no
    choice adds the error and ends the validation. *)
Definition validateValues (Choices : list string) (p : Path)
    (summary : string) (resp : Diagnostics)
  : list string -> Diagnostics :=
  fix loop (values : list string) : Diagnostics :=
    match values with
    | [] => resp
    | value :: rest =>
        if negb (slices_Contains Choices value) then
          AddAttributeError resp p summary
            (Sprintf "All values must be one of: %s"
               [ArgString (strings_Join Choices ", ")])
        else loop rest
    end.

Section ElementsAs.
(** [req.ConfigValue.ElementsAs(ctx, &values, false)] of the framework,
    for lists and for sets: the strings it stores and the diagnostics it
    returns. *)
Variable ListElementsAs : types_List -> list string * @Diagnostics Path.
Variable SetElementsAs : types_Set -> list string * @Diagnostics Path.

(** [SliceInChoicesValidator.ValidateList] *)
Definition ValidateList (Choices : list string)
    (req : ValidatorRequest types_List) (resp : Diagnostics) : Diagnostics :=
  if IsNull (attr_value (ValConfigValue req))
     || IsUnknown (attr_value (ValConfigValue req))
  then resp
  else
    let '(values, diags) := ListElementsAs (ValConfigValue req) in
    let resp := AppendAll resp diags in
    if HasError resp then resp
    else
      validateValues Choices (ValPath req) "Invalid Value in List" resp values.

(** [SliceInSetValidator.ValidateSet] *)
Definition ValidateSet (Choices : list string)
    (req : ValidatorRequest types_Set) (resp : Diagnostics) : Diagnostics :=
  if IsNull (attr_value (ValConfigValue req))
     || IsUnknown (attr_value (ValConfigValue req))
  then resp
  else
    let '(values, diags) := SetElementsAs (ValConfigValue req) in
    let resp := AppendAll resp diags in
    if HasError resp then resp
    else
      validateValues Choices (ValPath req) "Invalid Value in Set" resp values.
End ElementsAs.
End Validators.

Arguments ValPath {Path V}.
Arguments ValConfigValue {Path V}.

(** What the validators of lists and sets are shown to do with the
    diagnostics [found] after the conversion, the converted [values] and
    their response [out]: nothing when [found] has an error; else [out]
    is [found], followed by one error when a value is no choice. *)
Definition rejects_values_outside {Path : Type} (Choices : list string)
    (p : Path) (summary : string) (found : @Diagnostics Path)
    (values : list string) (out : @Diagnostics Path) : Prop :=
  (HasError found = true -> out = found)
  /\ (HasError found = false ->
      ((forall v, v ∈ values -> v ∈ Choices) -> out = found)
      /\ ((exists v, v ∈ values /\ v ∉ Choices) ->
          out = found ++
                [ {| DiagSeverity := SeverityError; DiagPath := p;
                     DiagSummary := summary;
                     DiagDetail := "All values must be one of: "
                                   +:+ strings_Join Choices ", " |} ])).

(** ** [SchemaByPath]

    The schema is an [interface{}]: [None] is nil, and what it holds is
    never itself of interface kind.  A [map[string]interface{}] is a
    [GMap TInterface]. *)

Section SchemaByPath.
(** [strcase.ToSnake]; [strconv.Quote], which the verb [%q] prints a
    string with; the name of the dynamic type, which [%T] prints. *)
Variable ToSnake : string -> string.
Variable strconv_Quote : string -> string.
Variable type_name : option GoValue -> string.

(** The loop over the flattened fields of a struct: the value of the
    first field that goes by [key], else [current] as it was. *)
Fixpoint fieldByWireName (key : string) (current : option GoValue)
    (actualFields : list StructField) (actualValueFields : list GoValue)
  : result (option GoValue) :=
  match actualValueFields with
  | [] => Ok current
  | field :: values =>
      match actualFields with
      | [] => Panic "runtime error: index out of range"
      | f :: fields =>
          if bool_decide (resolveFieldName ToSnake f.1 = key)
          then Ok (Interface field)
          else fieldByWireName key current fields values
      end
  end.

(** The body of the loop over the keys of the path. *)
Definition schemaByKey (current : option GoValue) (key : string)
  : result (option GoValue) :=
  match current with
  | Some (GMap TInterface v) =>
      match default ∅ v !! key with
      | Some next => Ok (Interface next)
      | None => Err ("key " +:+ strconv_Quote key +:+ " not found in map")
      end
  | _ =>
      let val :=
        match current with
        | Some (GPointer _ target) => target
        | _ => current
        end in
      match val with
      | Some (GStruct fs) =>
          let* actualValueFields := resolveFieldsValueSquashed (GStruct fs) in
          let* actualFields := resolveFieldsSquashed (GoTypeOf (GStruct fs)) in
          let* current :=
            fieldByWireName key current actualFields actualValueFields in
          match current with
          | None => Panic "reflect: call of reflect.Value.IsZero on zero Value"
          | Some found =>
              if IsZero found
              then Err ("field " +:+ strconv_Quote key
                        +:+ " not found in struct")
              else Ok current
          end
      | _ =>
          Err ("unsupported type " +:+ type_name current +:+ " for key "
               +:+ strconv_Quote key)
      end
  end.

Definition SchemaByPath (schema : option GoValue) (path : string)
  : result (option GoValue) :=
  let keys := strings_Split path "."%char in
  foldl (fun (current : result (option GoValue)) (key : string) =>
           let* current := current in schemaByKey current key)
    (Ok schema) keys.
End SchemaByPath.

(** *** A sample schema value: a map that holds a record *)

Definition endpoint_record : GoValue :=
  GStruct [ (tagged_field "Host" "host", GString "db.internal");
            (tagged_field "Port" "port", GInt reflect.Int 0) ].

Definition service_schema : GoValue :=
  interface_map {[ "endpoint" := GInterface (Some endpoint_record) ]}.

(** ** Well-typed values

    What the Go type system guarantees of every value: the target of a
    pointer and the elements of a slice, array or map have the declared
    type, and what an interface holds is not itself an interface. *)

Definition has_type (t : GoType) (v : GoValue) : bool :=
  GoType_eqb (GoTypeOf v) t.

Fixpoint well_typed (v : GoValue) : bool :=
  match v with
  | GPointer e (Some x) => has_type e x && well_typed x
  | GSlice e (Some l) | GArray e l =>
      forallb (fun x => has_type e x && well_typed x) l
  | GMap e (Some m) =>
      map_fold (fun _ x acc => acc && has_type e x && well_typed x) true m
  | GStruct fs =>
      (fix go (fs : list (FieldInfo * GoValue)) : bool :=
         match fs with
         | [] => true
         | (_, x) :: fs => well_typed x && go fs
         end) fs
  | GInterface (Some x) =>
      negb (bool_decide (ValueKind x = reflect.Interface)) && well_typed x
  | _ => true
  end.

(** *** A record with a squashed part behind a pointer *)

Definition squash_field (name : string) : FieldInfo :=
  {| Name := name; PkgPath := EmptyString;
     Tag := {[ "mapstructure" := ",squash" ]}; Anonymous := true |}.

Definition hidden_size_field : FieldInfo :=
  {| Name := "size"; PkgPath := "main"; Tag := ∅; Anonymous := false |}.

Definition audit_part : GoValue :=
  GStruct [ (tagged_field "Owner" "owner", GString "ops");
            (tagged_field "Hidden" "-", GString "x") ].

Definition audited_server : GoValue :=
  GStruct [ (tagged_field "Name" "name", GString "db1");
            (squash_field "Audit",
             GPointer (GoTypeOf audit_part) (Some audit_part));
            (hidden_size_field, GInt reflect.Int 3) ].

(** The name [findFieldByName] compares with the attribute name: what
    the [mapstructure] tag says before a comma, else the [json] tag, else
    the identifier. *)
Definition lookup_name (field : FieldInfo) : string :=
  let flagName := TagGet field "mapstructure" in
  let flagName :=
    if bool_decide (flagName = EmptyString)
    then TagGet field "json" else flagName in
  let flagName :=
    if bool_decide (flagName = EmptyString) then Name field else flagName in
  before_comma flagName.

(** A record type whose last field stands after a squashed part. *)
Definition audited_server_type : GoType :=
  TStruct [ (tagged_field "Name" "name", TBasic reflect.String);
            (squash_field "Audit",
             TStruct [ (tagged_field "Owner" "owner", TBasic reflect.String) ]);
            (tagged_field "Zone" "zone", TBasic reflect.String) ].

(** *** A record type with optional (pointer) fields, and a plan for it *)

Definition optional_type : GoType :=
  TStruct [ (tagged_field "Name" "name", TPointer (TBasic reflect.String));
            (tagged_field "Size" "size", TPointer (TBasic reflect.Int64));
            (tagged_field "Note" "note", TBasic reflect.String) ].

Definition optional_plan : Value :=
  VObject {[ "name" := StringType; "size" := Int64Type; "note" := StringType ]}
    ValueStateKnown
    {[ "name" := StringValue EmptyString; "size" := Int64Null;
       "note" := VString ValueStateUnknown EmptyString ]}.

(** What a string, integer, boolean or float attribute decodes to: nil
    when it is null or unknown. *)
Definition decoded_scalar (val : Value) : option GoValue :=
  if skip val then None
  else
    match val with
    | VString _ s => Some (GString s)
    | VInt64 _ z => Some (GInt reflect.Int64 z)
    | VBool _ b => Some (GBool b)
    | VFloat64 _ bits => Some (GFloat reflect.Float64 bits)
    | _ => None
    end.

Definition sample_names : list Value :=
  [StringValue "a"; StringNull; StringValue EmptyString].

(** ** Encode, then decode

    [round_trip v t out]: [v] encodes at the attribute type [t] without
    warning, and what it encodes to decodes to [out] under every key and
    prototype. *)
Definition round_trip (ToSnake : string -> string)
    (json_Marshal : option GoValue -> result string)
    (json_Unmarshal : string -> result (option GoValue))
    (fuel : nat) (v : option GoValue) (t : AttrType) (out : option GoValue)
  : Prop :=
  exists a,
    interfaceTypeToAttr ToSnake json_Marshal fuel v t = (Ok a, [])
    /\ TypeOf a = t
    /\ forall key prototype,
         attrToInterface json_Unmarshal key a prototype = Ok out.

(** ** The options of a derived attribute *)

Definition options_of (a : SchemaAttribute) : AttrOptions :=
  match a with
  | StringAttribute o | BoolAttribute o | Int64Attribute o
  | DynamicAttribute o | SetAttribute _ o | ListAttribute _ o
  | MapAttribute _ o | ListNestedAttribute _ o | MapNestedAttribute _ o
  | SingleNestedAttribute _ o => o
  end.

(** The flags of an attribute fit together, as the framework asks of a
    schema: required or else optional, a required attribute neither
    computed nor with a default, a default only on a computed attribute;
    and the attribute is sensitive exactly when its name is listed. *)
Definition coherent_options (setAsComputed : bool)
    (sensitiveAttrs : list string) (key : string) (o : AttrOptions) : Prop :=
  Sensitive o = slices_Contains sensitiveAttrs key
  /\ Required o = negb (Optional o)
  /\ (Required o = true -> Computed o = false /\ Default o = None)
  /\ (Default o <> None -> Computed o = true)
  /\ (setAsComputed = true ->
      o = computedOptions (Description o)
            (slices_Contains sensitiveAttrs key)).

(** A model with a required name, a defaulted size and a list of tags. *)
Definition volume_model : GoType :=
  TStruct [ ({| Name := "Name"; PkgPath := EmptyString;
                Tag := {[ "mapstructure" := "name"; "required" := "true" ]};
                Anonymous := false |}, TBasic reflect.String);
            ({| Name := "Size"; PkgPath := EmptyString;
                Tag := {[ "mapstructure" := "size"; "default" := "10";
                          "required" := "true" ]};
                Anonymous := false |}, TBasic reflect.Int);
            (tagged_field "Tags" "tags", TSlice (TBasic reflect.String)) ].

(** What the derivation gives for [volume_model]. *)
Definition volume_schema : gmap string SchemaAttribute :=
  {[ "name" := StringAttribute (declaredOptions EmptyString true false);
     "size" := Int64Attribute
                 (withDefault (Some (Int64Default 10))
                    (declaredOptions EmptyString true false));
     "tags" := ListAttribute StringType
                 (declaredOptions EmptyString false false) ]}.

(** * Properties *)

(** ** The immutability guard *)

Lemma Sprintf_with_values (a1 a2 a3 : FmtArg) :
  Sprintf errImmutableAttributeDetailWithValues [a1; a2; a3]
  = detail_with_values (render_arg a1) (render_arg a2) (render_arg a3).
Proof.
  cbv -[render_arg]. reflexivity.
Qed.

Lemma Sprintf_simple (a1 : FmtArg) :
  Sprintf errImmutableAttributeDetailSimple [a1]
  = detail_simple (render_arg a1).
Proof. cbv -[render_arg]. reflexivity. Qed.

Section PlanModifierProperties.
Context {Path : Type} `{EqDecision Path}.
Variable PathString : Path -> string.

Lemma PlanModify_cases (c : GuardCall) (resp : Diagnostics) :
  let r := call_request c in
  PlanModify PathString c resp =
    if IsNull (State_Raw r) then resp
    else if IsUnknown (PlanValue r) then resp
    else if IsUnknown (ConfigValue r) then resp
    else if IsNull (Plan_Raw r) then resp
    else if Equal (PlanValue r) (StateValue r) then resp
    else Append resp (violation PathString c).
Proof.
  destruct c as [r|r|r|r|r|r]; cbn -[Sprintf Equal IsNull IsUnknown];
    unfold PlanModifyString, PlanModifyInt64, PlanModifyBool,
      PlanModifyList, PlanModifySet, PlanModifyMap, AddAttributeError,
      violation;
    cbn -[Sprintf Equal IsNull IsUnknown];
    rewrite ?Sprintf_with_values, ?Sprintf_simple; cbn [render_arg];
    reflexivity.
Qed.

(** C1. A modifier of any of the six kinds adds its error exactly when
    prior state exists, the plan is not a destroy, the planned and the
    configured value are resolved and the planned value differs from the
    state value; equal values never block; the error carries the
    attribute path, the summary, and a detail text with the current and
    the attempted value for the scalar kinds and with the path only for
    the container kinds. *)
Theorem immutable_guard_rejects_iff (c : GuardCall) :
  let r := call_request c in
  (HasError (PlanModify PathString c []) = true <-> update_changed r)
  /\ (forall resp, Equal (PlanValue r) (StateValue r) = true ->
                   PlanModify PathString c resp = resp)
  /\ (forall resp, update_changed r ->
        PlanModify PathString c resp = Append resp (violation PathString c))
  /\ (update_changed r ->
        PlanModify PathString c [] = [violation PathString c]
        /\ DiagPath (violation PathString c) = ReqPath r
        /\ DiagDetail (violation PathString c) = violation_detail PathString c).
Proof.
  intros r. unfold update_changed.
  assert (Hc := PlanModify_cases c). cbn zeta in Hc. fold r in Hc.
  split; [|split; [|split]].
  - rewrite Hc.
    destruct (IsNull (State_Raw r)), (IsUnknown (PlanValue r)),
      (IsUnknown (ConfigValue r)), (IsNull (Plan_Raw r)),
      (Equal (PlanValue r) (StateValue r)); cbn; intuition congruence.
  - intros resp Heq. rewrite Hc, Heq.
    destruct (IsNull (State_Raw r)), (IsUnknown (PlanValue r)),
      (IsUnknown (ConfigValue r)), (IsNull (Plan_Raw r)); reflexivity.
  - intros resp (H1 & H2 & H3 & H4 & H5).
    rewrite Hc, H1, H2, H3, H4, H5. reflexivity.
  - intros (H1 & H2 & H3 & H4 & H5).
    rewrite Hc, H1, H2, H3, H4, H5. repeat split.
Qed.
End PlanModifierProperties.

Lemma immutable_guard_rejects_iff_witness :
  HasError (PlanModify (fun p : string => p) rename_call []) = true
  /\ PlanModify (fun p : string => p) rename_call []
     = [violation (fun p : string => p) rename_call]
  /\ DiagDetail (violation (fun p : string => p) rename_call)
     = detail_with_values "name" "old" "new".
Proof.
  destruct (immutable_guard_rejects_iff (fun p : string => p) rename_call)
    as (Hiff & _ & _ & Hdiag).
  assert (update_changed (call_request rename_call)) as Hchanged
      by (repeat split; reflexivity).
  destruct (Hdiag Hchanged) as (Hresp & _ & Hdetail).
  split; [apply Hiff, Hchanged|]. split; [exact Hresp|exact Hdetail].
Defined.

(** ** Loops over maps that update one key per iteration *)

Section LocalFold.
Context {A B : Type}.
Variable step : string -> A -> gmap string B -> gmap string B.
Hypothesis step_other :
  forall k v acc k', k' <> k -> step k v acc !! k' = acc !! k'.
Hypothesis step_same :
  forall k v acc acc', acc !! k = acc' !! k ->
                       step k v acc !! k = step k v acc' !! k.

Lemma map_fold_local (b : gmap string B) (m : gmap string A) (k : string) :
  map_fold step b m !! k =
    match m !! k with
    | Some v => step k v b !! k
    | None => b !! k
    end.
Proof.
  revert k.
  apply (map_fold_weak_ind
           (fun r m => forall k, r !! k = match m !! k with
                                          | Some v => step k v b !! k
                                          | None => b !! k
                                          end)).
  - intros k. by rewrite lookup_empty.
  - intros i x m' r Hi IH k.
    destruct (decide (k = i)) as [->|Hne].
    + rewrite lookup_insert_eq. apply step_same.
      rewrite IH, Hi. reflexivity.
    + rewrite lookup_insert_ne by done.
      rewrite step_other by done. apply IH.
Qed.
End LocalFold.

(** ** The deep merge *)

Lemma mergePlanValue_unfold (planVal : Value) key existingAttrs :
  mergePlanValue planVal key existingAttrs
  = mergeAttribute mergePlanAndStateMap existingAttrs key planVal.
Proof. destruct planVal; reflexivity. Qed.

Section MergeLocal.
Variable rec : gmap string Value -> gmap string Value -> gmap string Value.

Ltac merge_cases :=
  repeat (match goal with
          | |- context [match ?x with _ => _ end] => destruct x eqn:?
          | |- context [if ?b then _ else _] => destruct b eqn:?
          end; try reflexivity; simplify_map_eq; try done).

Lemma mergeAttribute_other existingAttrs key planVal k' :
  k' <> key ->
  mergeAttribute rec existingAttrs key planVal !! k' = existingAttrs !! k'.
Proof.
  intros Hne.
  unfold mergeAttribute, mergeObjectAttribute, mergeMapAttribute,
    mergeListAttribute, mergeSetAttribute.
  repeat (match goal with
          | |- context [match ?x with _ => _ end] => destruct x
          | |- context [if ?b then _ else _] => destruct b
          end; try reflexivity; rewrite ?lookup_insert_ne by done;
          try reflexivity).
Qed.

Lemma mergeAttribute_same existingAttrs existingAttrs' key planVal :
  existingAttrs !! key = existingAttrs' !! key ->
  mergeAttribute rec existingAttrs key planVal !! key
  = mergeAttribute rec existingAttrs' key planVal !! key.
Proof.
  intros Heq.
  unfold mergeAttribute, mergeObjectAttribute, mergeMapAttribute,
    mergeListAttribute, mergeSetAttribute.
  rewrite <- Heq.
  repeat (match goal with
          | |- context [match ?x with _ => _ end] => destruct x
          | |- context [if ?b then _ else _] => destruct b
          end; rewrite ?lookup_insert_eq; try done).
Qed.
End MergeLocal.

(** The merged map, key by key. *)
Lemma mergePlanAndStateMap_lookup existingAttrs attrsToMerge key :
  mergePlanAndStateMap existingAttrs attrsToMerge !! key =
    match attrsToMerge !! key with
    | Some planVal =>
        mergeAttribute mergePlanAndStateMap existingAttrs key planVal !! key
    | None => existingAttrs !! key
    end.
Proof.
  unfold mergePlanAndStateMap at 1.
  rewrite map_fold_local.
  - destruct (attrsToMerge !! key); [apply (f_equal (.!! key)), mergePlanValue_unfold | done].
  - intros k v acc k' Hne. rewrite mergePlanValue_unfold.
    by apply mergeAttribute_other.
  - intros k v acc acc' Heq. rewrite !mergePlanValue_unfold.
    by apply mergeAttribute_same.
Qed.

(** C4. An incoming attribute that is null or unknown is skipped: the
    merged map holds under its key what the existing map held (a value,
    or nothing). *)
Theorem merge_skips_null_unknown
    (existingAttrs attrsToMerge : gmap string Value) (key : string)
    (planVal : Value) :
  attrsToMerge !! key = Some planVal ->
  IsNull planVal = true \/ IsUnknown planVal = true ->
  mergePlanAndStateMap existingAttrs attrsToMerge !! key
  = existingAttrs !! key.
Proof.
  intros Hin Hskip. rewrite mergePlanAndStateMap_lookup, Hin.
  unfold mergeAttribute, skip.
  destruct Hskip as [-> | ->]; rewrite ?orb_true_r; reflexivity.
Qed.

Lemma merge_skips_null_unknown_witness :
  mergePlanAndStateMap existing_status incoming_null_status !! "status"
  = Some (StringValue "running").
Proof.
  apply (merge_skips_null_unknown existing_status incoming_null_status
           "status" StringNull); [reflexivity|left; reflexivity].
Defined.

Lemma map_elements_have_type_intro (t : AttrType) (m : gmap string Value) :
  (forall k v, m !! k = Some v -> TypeEqual t (TypeOf v) = true) ->
  map_elements_have_type t m = true.
Proof.
  unfold map_elements_have_type.
  apply (map_fold_weak_ind
           (fun r m => (forall k v, m !! k = Some v ->
                                    TypeEqual t (TypeOf v) = true) ->
                       r = true)).
  - done.
  - intros i x m' r Hi IH Hall.
    rewrite IH, (Hall i x); [done | by rewrite lookup_insert_eq |].
    intros k v Hk. apply (Hall k). rewrite lookup_insert_ne; [done|].
    intros ->. congruence.
Qed.

Lemma ObjectValue_type ats attrs :
  TypeOf (ObjectValue ats attrs).1 = ObjectType ats.
Proof. unfold ObjectValue. by destruct (object_attributes_valid _ _). Qed.

Section MergeMapElements.
Variable rec : gmap string Value -> gmap string Value -> gmap string Value.

Lemma mergeMapElement_other k p acc k' :
  k' <> k -> mergeMapElement rec k p acc !! k' = acc !! k'.
Proof.
  intros Hne. unfold mergeMapElement.
  repeat (match goal with
          | |- context [match ?x with _ => _ end] => destruct x
          | |- context [if ?b then _ else _] => destruct b
          end; try reflexivity; rewrite ?lookup_insert_ne by done;
          try reflexivity).
Qed.

Lemma mergeMapElement_same k p acc acc' :
  acc !! k = acc' !! k ->
  mergeMapElement rec k p acc !! k = mergeMapElement rec k p acc' !! k.
Proof.
  intros Heq. unfold mergeMapElement. rewrite <- Heq.
  repeat (match goal with
          | |- context [match ?x with _ => _ end] => destruct x
          | |- context [if ?b then _ else _] => destruct b
          end; rewrite ?lookup_insert_eq; try done).
Qed.

Lemma mergeMapElements_lookup em pm k :
  map_fold (mergeMapElement rec) em pm !! k =
    match pm !! k with
    | Some p => mergeMapElement rec k p em !! k
    | None => em !! k
    end.
Proof.
  apply map_fold_local.
  - intros. by apply mergeMapElement_other.
  - intros. by apply mergeMapElement_same.
Qed.

Lemma mergeMapElements_typed et em pm :
  (forall k v, em !! k = Some v -> TypeEqual et (TypeOf v) = true) ->
  (forall k v, pm !! k = Some v -> TypeEqual et (TypeOf v) = true) ->
  forall k v, map_fold (mergeMapElement rec) em pm !! k = Some v ->
              TypeEqual et (TypeOf v) = true.
Proof.
  intros Hem Hpm k v. rewrite mergeMapElements_lookup.
  destruct (pm !! k) as [p|] eqn:Hp; [|apply Hem].
  specialize (Hpm k p Hp). unfold mergeMapElement.
  destruct (skip p); [apply Hem|].
  destruct (em !! k) as [e|] eqn:He.
  - specialize (Hem k e He).
    destruct p, e; rewrite lookup_insert_eq; intros [= <-];
      rewrite ?ObjectValue_type; done.
  - rewrite lookup_insert_eq. by intros [= <-].
Qed.
End MergeMapElements.

(** The scenario of the specification: two instances, one updated and one
    added. *)
Example merge_instances_scenario :
  mergePlanAndStateMap existing_instances incoming_instances
  = {[ "instances" :=
         instances_map {[ "k1" := status_object "stopped";
                          "k2" := status_object "running" ]} ]}.
Proof. vm_compute. reflexivity. Qed.

(** C5, as stated, fails: an incoming key whose element is null is not
    added to the merged map. *)
Lemma map_merge_null_element_not_added :
  ~ (forall existingAttrs attrsToMerge key et st pm et' st' em k p,
        attrsToMerge !! key = Some (VMap et st pm) ->
        skip (VMap et st pm) = false ->
        isObjectType et = true ->
        existingAttrs !! key = Some (VMap et' st' em) ->
        pm !! k = Some p ->
        em !! k = None ->
        exists t s m,
          mergePlanAndStateMap existingAttrs attrsToMerge !! key
          = Some (VMap t s m)
          /\ m !! k = Some p).
Proof.
  intros H.
  destruct (H existing_instances incoming_null_instance "instances"
              (ObjectType status_type) ValueStateKnown
              {[ "k2" := ObjectNull status_type ]}
              (ObjectType status_type) ValueStateKnown
              {[ "k1" := status_object "running" ]}
              "k2" (ObjectNull status_type))
    as (t & s & m & Hm & Hk); try (vm_compute; reflexivity).
  vm_compute in Hm. injection Hm as <- <- <-.
  vm_compute in Hk. discriminate.
Qed.

(** C5 (amended). A known incoming map whose element type is not Object
    replaces what the existing attributes hold under its key, and so does
    any known incoming map when they hold no map there.  With element type
    Object and an existing map, the merge is key by key: incoming
    elements that are null or unknown are skipped; existing keys that are
    absent from the incoming map or skipped there are retained; a resolved
    incoming element under a key absent from the existing map is added; an
    incoming object under a key that holds an existing object is merged
    into it recursively; when all elements have the element type of the
    incoming map the result is a known map of these elements.  The
    scenario of the two instances evaluates as specified. *)
Theorem map_merge_by_key
    (existingAttrs attrsToMerge : gmap string Value) (key : string)
    (et : AttrType) (st : ValueState) (pm : gmap string Value) :
  attrsToMerge !! key = Some (VMap et st pm) ->
  skip (VMap et st pm) = false ->
  let result := mergePlanAndStateMap existingAttrs attrsToMerge !! key in
  (isObjectType et = false -> result = Some (VMap et st pm))
  /\ (existingAttrs !! key = None -> result = Some (VMap et st pm))
  /\ (forall et' st' em,
        existingAttrs !! key = Some (VMap et' st' em) ->
        isObjectType et = true ->
        exists merged : gmap string Value,
          result = Some (MapValue et merged).1
          /\ ((forall k v, em !! k = Some v -> TypeEqual et (TypeOf v) = true) ->
              (forall k v, pm !! k = Some v -> TypeEqual et (TypeOf v) = true) ->
              result = Some (VMap et ValueStateKnown merged))
          /\ (forall k, pm !! k = None -> merged !! k = em !! k)
          /\ (forall k p, pm !! k = Some p -> skip p = true ->
                          merged !! k = em !! k)
          /\ (forall k p, pm !! k = Some p -> skip p = false ->
                          em !! k = None -> merged !! k = Some p)
          /\ (forall k pts pst pattrs ets est eattrs,
                pm !! k = Some (VObject pts pst pattrs) ->
                skip (VObject pts pst pattrs) = false ->
                em !! k = Some (VObject ets est eattrs) ->
                merged !! k
                = Some (ObjectValue ets
                          (mergePlanAndStateMap eattrs pattrs)).1))
  /\ mergePlanAndStateMap existing_instances incoming_instances
     = {[ "instances" :=
            instances_map {[ "k1" := status_object "stopped";
                             "k2" := status_object "running" ]} ]}.
Proof.
  intros Hin Hskip result. subst result.
  rewrite mergePlanAndStateMap_lookup, Hin.
  unfold mergeAttribute. rewrite Hskip. cbn [TypeOf isObjectType isMapType].
  unfold mergeMapAttribute.
  split; [|split; [|split]].
  - intros Het.
    destruct (existingAttrs !! key) as [e|]; [|by rewrite lookup_insert_eq].
    destruct (negb (isMapType (TypeOf e))); [by rewrite lookup_insert_eq|].
    destruct e; rewrite ?Het; cbn [negb]; by rewrite lookup_insert_eq.
  - intros ->. by rewrite lookup_insert_eq.
  - intros et' st' em -> Het. cbn [TypeOf isMapType negb]. rewrite Het.
    cbn [negb]. rewrite lookup_insert_eq.
    exists (map_fold (mergeMapElement mergePlanAndStateMap) em pm).
    split; [reflexivity|]. split; [|split; [|split; [|split]]].
    + intros Hem Hpm. unfold MapValue.
      rewrite map_elements_have_type_intro; [done|].
      by apply mergeMapElements_typed.
    + intros k Hk. by rewrite mergeMapElements_lookup, Hk.
    + intros k p Hk Hp. rewrite mergeMapElements_lookup, Hk.
      unfold mergeMapElement. by rewrite Hp.
    + intros k p Hk Hp He. rewrite mergeMapElements_lookup, Hk.
      unfold mergeMapElement. rewrite Hp, He. by rewrite lookup_insert_eq.
    + intros k pts pst pattrs ets est eattrs Hk Hp He.
      rewrite mergeMapElements_lookup, Hk.
      unfold mergeMapElement. rewrite Hp, He. by rewrite lookup_insert_eq.
  - exact merge_instances_scenario.
Qed.

Lemma map_merge_by_key_witness :
  exists merged : gmap string Value,
    mergePlanAndStateMap existing_instances incoming_instances !! "instances"
    = Some (MapValue (ObjectType status_type) merged).1
    /\ merged !! "k2" = Some (status_object "running").
Proof.
  destruct (map_merge_by_key existing_instances incoming_instances
              "instances" (ObjectType status_type) ValueStateKnown
              {[ "k1" := status_object "stopped";
                 "k2" := status_object "running" ]}
              eq_refl eq_refl) as (_ & _ & H & _).
  destruct (H (ObjectType status_type) ValueStateKnown
              {[ "k1" := status_object "running" ]} eq_refl eq_refl)
    as (merged & Hres & _ & _ & _ & Hadd & _).
  exists merged. split; [exact Hres|].
  apply Hadd; reflexivity.
Defined.

Lemma elements_have_type_intro (t : AttrType) (l : list Value) :
  (forall v, v ∈ l -> TypeEqual t (TypeOf v) = true) ->
  elements_have_type t l = true.
Proof.
  intros H. unfold elements_have_type. apply forallb_forall.
  intros v Hv. apply H. by apply list_elem_of_In.
Qed.




(** ** Lists of objects *)

Section MergeListElements.
Variable rec : gmap string Value -> gmap string Value -> gmap string Value.

Lemma mergeListLoop_length existingElems i elems :
  length (mergeListElements rec existingElems i elems) = length elems.
Proof.
  revert i. induction elems as [|p rest IH]; intros i; cbn; [done|].
  by rewrite IH.
Qed.

Lemma mergeListLoop_lookup existingElems i elems (j : nat) :
  mergeListElements rec existingElems i elems !! j
  = mergeListElement rec existingElems (i + j) <$> elems !! j.
Proof.
  revert i j. induction elems as [|p rest IH]; intros i j; [done|].
  destruct j as [|j]; cbn.
  - by rewrite Nat.add_0_r.
  - rewrite IH. by replace (S i + j)%nat with (i + S j)%nat by lia.
Qed.

Lemma mergeListElement_type et existingElems i p :
  TypeEqual et (TypeOf p) = true ->
  (forall e, e ∈ existingElems -> TypeEqual et (TypeOf e) = true) ->
  TypeEqual et (TypeOf (mergeListElement rec existingElems i p)) = true.
Proof.
  intros Hp He. unfold mergeListElement.
  destruct (existingElems !! i) as [e|] eqn:Hi.
  - assert (TypeEqual et (TypeOf e) = true) as Hte
        by (apply He; by eapply list_elem_of_lookup_2).
    destruct (skip p); [done|].
    destruct p; try done. destruct e; try done.
    destruct (skip _); [done|]. by rewrite ObjectValue_type.
  - destruct (skip p); [done|]. by destruct p.
Qed.
End MergeListElements.

(** C10. When a known incoming list of objects meets a known existing list
    and the elements of both have the element type of the incoming list,
    the merged attribute is a known list of exactly as many elements as the
    incoming list (existing elements past that length are dropped), in which
    a null or unknown incoming element at an index within the existing list
    is replaced by the existing element at that index. *)
Theorem list_merge_length_and_preserve
    (existingAttrs attrsToMerge : gmap string Value) (key : string)
    (et et' : AttrType) (pst est : ValueState)
    (planElems existingElems : list Value) :
  attrsToMerge !! key = Some (VList et pst planElems) ->
  skip (VList et pst planElems) = false ->
  isObjectType et = true ->
  existingAttrs !! key = Some (VList et' est existingElems) ->
  skip (VList et' est existingElems) = false ->
  (forall p, p ∈ planElems -> TypeEqual et (TypeOf p) = true) ->
  (forall e, e ∈ existingElems -> TypeEqual et (TypeOf e) = true) ->
  exists merged : list Value,
    mergePlanAndStateMap existingAttrs attrsToMerge !! key
    = Some (VList et ValueStateKnown merged)
    /\ length merged = length planElems
    /\ (forall i, (length planElems <= i)%nat -> merged !! i = None)
    /\ (forall i p e, planElems !! i = Some p -> skip p = true ->
                      existingElems !! i = Some e -> merged !! i = Some e).
Proof.
  intros Hin Hskip Het Hex Heskip Hpt Hetys.
  rewrite mergePlanAndStateMap_lookup, Hin.
  unfold mergeAttribute. rewrite Hskip.
  cbn [TypeOf isObjectType isMapType isListType].
  unfold mergeListAttribute. rewrite Het, Hex. cbn [negb TypeOf isListType].
  rewrite Heskip, lookup_insert_eq.
  set (merged := mergeListElements mergePlanAndStateMap existingElems 0 planElems).
  exists merged. split; [|split; [|split]].
  - unfold ListValue. rewrite elements_have_type_intro; [done|].
    intros v Hv. apply list_elem_of_lookup in Hv as [j Hj].
    unfold merged in Hj. rewrite mergeListLoop_lookup in Hj.
    destruct (planElems !! j) as [p|] eqn:Hp; [|done].
    injection Hj as <-. apply mergeListElement_type; [|done].
    apply Hpt. by eapply list_elem_of_lookup_2.
  - apply mergeListLoop_length.
  - intros i Hi. apply lookup_ge_None. unfold merged.
    by rewrite mergeListLoop_length.
  - intros i p e Hp Hsk He. unfold merged.
    rewrite mergeListLoop_lookup, Hp. cbn.
    unfold mergeListElement. by rewrite Hsk, He.
Qed.

Lemma list_merge_length_and_preserve_witness :
  exists merged : list Value,
    mergePlanAndStateMap existing_disks incoming_disks !! "disks"
    = Some (disks_list merged)
    /\ length merged = 2%nat
    /\ merged !! 1%nat = Some (status_object "stopped").
Proof.
  destruct (list_merge_length_and_preserve existing_disks incoming_disks
              "disks" (ObjectType status_type) (ObjectType status_type)
              ValueStateKnown ValueStateKnown
              [ status_object "attached"; ObjectNull status_type ]
              [ status_object "running"; status_object "stopped";
                status_object "failed" ]
              eq_refl eq_refl eq_refl eq_refl eq_refl)
    as (merged & Hres & Hlen & _ & Hkeep).
  - intros p Hp. apply list_elem_of_In in Hp. simpl in Hp.
    destruct Hp as [<-|[<-|[]]]; reflexivity.
  - intros e He. apply list_elem_of_In in He. simpl in He.
    destruct He as [<-|[<-|[<-|[]]]]; reflexivity.
  - exists merged. split; [exact Hres|]. split; [exact Hlen|].
    apply (Hkeep 1%nat (ObjectNull status_type)); reflexivity.
Defined.

(** ** Decode *)

Section DecodeProperties.
Variable json_Unmarshal : string -> result (option GoValue).
Variable rec : string -> Value -> option GoType -> result (option GoValue).

Lemma rbind_Ok {A B} (r : result A) (k : A -> result B) (b : B) :
  rbind r k = Ok b -> exists a, r = Ok a /\ k a = Ok b.
Proof. destruct r; cbn; try discriminate. eauto. Qed.

Lemma wrap_error_Ok {A} pre (r : result A) (a : A) :
  wrap_error pre r = Ok a -> r = Ok a.
Proof. by destruct r. Qed.

Lemma objectToMapEntry_other prototype key val res res' k :
  objectToMapEntry rec prototype key val res = Ok res' ->
  k <> key -> res' !! k = res !! k.
Proof.
  unfold objectToMapEntry. intros H Hne.
  repeat (match type of H with
          | context [rbind ?r _] =>
              apply rbind_Ok in H as (? & _ & H)
          | context [match ?x with _ => _ end] => destruct x
          | context [if ?b then _ else _] => destruct b
          end);
    try discriminate; injection H as <-;
    rewrite ?lookup_insert_ne by done; reflexivity.
Qed.

(** The mapping of an object, attribute by attribute: an entry is what
    the conversion of its attribute leaves in a mapping without it. *)
Lemma objectToMap_fold prototype (attributes : gmap string Value) m :
  map_fold (fun key val acc =>
              let* res := acc in objectToMapEntry rec prototype key val res)
    (Ok ∅) attributes = Ok m ->
  (forall key, attributes !! key = None -> m !! key = None)
  /\ (forall key val, attributes !! key = Some val ->
        exists res0 res1,
          res0 !! key = None
          /\ objectToMapEntry rec prototype key val res0 = Ok res1
          /\ m !! key = res1 !! key).
Proof.
  revert m.
  apply (map_fold_weak_ind
           (fun r attributes => forall m, r = Ok m ->
              (forall key, attributes !! key = None -> m !! key = None)
              /\ (forall key val, attributes !! key = Some val ->
                    exists res0 res1,
                      res0 !! key = None
                      /\ objectToMapEntry rec prototype key val res0 = Ok res1
                      /\ m !! key = res1 !! key))).
  - intros m [= <-]. split; [intros; apply lookup_empty|].
    intros key val. by rewrite lookup_empty.
  - intros i x attrs r Hi IH m Hm.
    apply rbind_Ok in Hm as (res & -> & Hstep).
    destruct (IH res eq_refl) as [IHnone IHsome].
    split.
    + intros key Hkey.
      apply lookup_insert_None in Hkey as [Hkey Hne].
      rewrite (objectToMapEntry_other _ _ _ _ _ _ Hstep) by done.
      by apply IHnone.
    + intros key val Hkey.
      destruct (decide (i = key)) as [->|Hne].
      * rewrite lookup_insert_eq in Hkey. injection Hkey as ->.
        exists res, m. split; [by apply IHnone|done].
      * rewrite lookup_insert_ne in Hkey by done.
        destruct (IHsome key val Hkey) as (res0 & res1 & H0 & H1 & H2).
        exists res0, res1. split; [done|]. split; [done|].
        rewrite (objectToMapEntry_other _ _ _ _ _ _ Hstep) by done. done.
Qed.

Lemma objectToMap_fold_total prototype (attributes : gmap string Value) :
  (forall key val res, attributes !! key = Some val ->
     exists res', objectToMapEntry rec prototype key val res = Ok res') ->
  exists m,
    map_fold (fun key val acc =>
                let* res := acc in objectToMapEntry rec prototype key val res)
      (Ok ∅) attributes = Ok m.
Proof.
  apply (map_fold_weak_ind
           (fun r attributes =>
              (forall key val res, attributes !! key = Some val ->
                 exists res', objectToMapEntry rec prototype key val res
                              = Ok res') ->
              exists m, r = Ok m)).
  - eauto.
  - intros i x attrs r Hi IH Hall.
    destruct IH as [res ->].
    { intros key val res Hkey. apply Hall.
      rewrite lookup_insert_ne; [done|]. intros ->. congruence. }
    cbn. apply Hall. by rewrite lookup_insert_eq.
Qed.
End DecodeProperties.

Lemma attrToInterface_scalar json_Unmarshal key val prototype :
  scalar_attr val = true ->
  exists goVal, attrToInterface json_Unmarshal key val prototype = Ok goVal.
Proof.
  unfold attrToInterface.
  destruct val; try discriminate; intros _; cbn;
    destruct (_ || _); eauto.
Qed.



(** ** Schema derivation *)

Section SchemaDerivationProperties.
Variable ToSnake : string -> string.
Variables (setAsComputed : bool)
          (sensitiveAttrs extraRequiredAttrs computedAsSetAttrs : list string).
Variable nestedAttrs : GoType -> result (gmap string SchemaAttribute).
Variable fuel : nat.

Let attribute_of :=
      fieldAttribute ToSnake setAsComputed sensitiveAttrs extraRequiredAttrs
        computedAsSetAttrs nestedAttrs fuel.
Let step :=
      setFieldAttribute ToSnake setAsComputed sensitiveAttrs
        extraRequiredAttrs computedAsSetAttrs nestedAttrs fuel.
Let wire_name (f : StructField) := resolveFieldName ToSnake f.1.

Lemma setFieldAttribute_Ok acc field schema :
  step acc field = Ok schema ->
  exists attributes attribute,
    acc = Ok attributes /\ attribute_of field = Ok attribute
    /\ schema = match attribute with
                | Some a => <[wire_name field := a]> attributes
                | None => attributes
                end.
Proof.
  unfold step, setFieldAttribute. intros H.
  apply rbind_Ok in H as (attributes & -> & H).
  apply rbind_Ok in H as (attribute & Hattr & H).
  exists attributes, attribute. split; [done|]. split; [done|].
  destruct attribute; by injection H as <-.
Qed.

Lemma foldl_step_not_Ok acc fields schema :
  foldl step acc fields = Ok schema -> exists attributes, acc = Ok attributes.
Proof.
  revert acc. induction fields as [|f fields IH]; intros acc H; cbn in H.
  - eauto.
  - apply IH in H as [s0 H].
    apply setFieldAttribute_Ok in H as (a & _ & -> & _). eauto.
Qed.

(** The loop over the flattened fields: the entry of a wire name is the
    attribute of the last field that contributes one under this name. *)
Lemma schema_fold_last_wins init fields schema :
  foldl step (Ok init) fields = Ok schema ->
  forall (i : nat) f a,
    fields !! i = Some f ->
    attribute_of f = Ok (Some a) ->
    (forall (j : nat) f', (i < j)%nat -> fields !! j = Some f' ->
                          wire_name f' = wire_name f ->
                          attribute_of f' = Ok None) ->
    schema !! wire_name f = Some a.
Proof.
  revert schema. induction fields as [|x fields IH] using rev_ind;
    intros schema Hfold i f a Hi Hattr Hlater.
  - done.
  - rewrite foldl_app in Hfold. cbn in Hfold.
    apply setFieldAttribute_Ok in Hfold as (s0 & ox & Hs0 & Hx & ->).
    destruct (decide (i < length fields)%nat) as [Hlt|Hge].
    + rewrite lookup_app_l in Hi by done.
      assert (s0 !! wire_name f = Some a) as Hs.
      { apply (IH s0 Hs0 i f a Hi Hattr).
        intros j f' Hij Hj. apply (Hlater j f' Hij).
        rewrite lookup_app_l; [done|]. by eapply lookup_lt_Some. }
      destruct ox as [ax|]; [|done].
      destruct (decide (wire_name x = wire_name f)) as [Heq|Hne].
      * rewrite (Hlater (length fields) x Hlt) in Hx; [done| |done].
        rewrite lookup_app_r by lia. by rewrite Nat.sub_diag.
      * by rewrite lookup_insert_ne.
    + assert (i = length fields) as ->.
      { apply lookup_lt_Some in Hi. rewrite length_app in Hi. cbn in Hi. lia. }
      rewrite lookup_app_r in Hi by lia.
      rewrite Nat.sub_diag in Hi. injection Hi as ->.
      rewrite Hattr in Hx. injection Hx as <-.
      by rewrite lookup_insert_eq.
Qed.

(** The loop returns a schema as soon as every field by itself yields
    an attribute or none; the wire names play no part. *)
Lemma schema_fold_total init fields :
  (forall f, f ∈ fields -> exists oa, attribute_of f = Ok oa) ->
  exists schema, foldl step (Ok init) fields = Ok schema.
Proof.
  induction fields as [|x fields IH] using rev_ind; intros Hall.
  - cbn. eauto.
  - rewrite foldl_app. cbn.
    destruct IH as [s0 ->]. { intros f Hf. apply Hall. set_solver. }
    destruct (Hall x) as [ox Hx]; [set_solver|].
    unfold step, setFieldAttribute. cbn. fold attribute_of. rewrite Hx. cbn.
    destruct ox; eauto.
Qed.
End SchemaDerivationProperties.

(** C8, as stated, fails: a record type with two fields of one wire name
    gets a schema; nothing reports the conflict. *)
Lemma duplicate_wire_name_derives_schema :
  ~ (forall (ToSnake : string -> string) (fuel : nat) (modelType : GoType)
            (fields : list StructField) (i j : nat) (f1 f2 : StructField),
        resolveFieldsSquashed modelType = Ok fields ->
        fields !! i = Some f1 -> fields !! j = Some f2 -> i <> j ->
        resolveFieldName ToSnake f1.1 = resolveFieldName ToSnake f2.1 ->
        forall schema,
          resourceSchemaAttrsFromStruct ToSnake fuel modelType false [] [] []
          <> Ok schema).
Proof.
  intros H.
  apply (H (fun s => s) 1%nat duplicate_name_model
           [ (tagged_field "Name" "name", TBasic reflect.String);
             (tagged_field "Title" "name", TBasic reflect.Bool) ]
           0%nat 1%nat
           (tagged_field "Name" "name", TBasic reflect.String)
           (tagged_field "Title" "name", TBasic reflect.Bool)
           eq_refl eq_refl eq_refl ltac:(lia) eq_refl
           {[ "name" := BoolAttribute (declaredOptions EmptyString false false) ]}).
  vm_compute. reflexivity.
Qed.

(** C8 (amended). Schema derivation has no conflict error.  For a record
    type whose flattened field list is [fields], derivation returns a
    schema as soon as every field by itself yields an attribute or none,
    whatever the wire names; and in a schema it returns, the entry of a
    wire name is the attribute of the last field of the flattened list
    that yields one under this name: a later field silently replaces an
    earlier one of the same wire name. *)
Theorem schema_derivation_last_field_wins
    (ToSnake : string -> string) (fuel : nat) (modelType : GoType)
    (setAsComputed : bool)
    (sensitiveAttrs extraRequiredAttrs computedAsSetAttrs : list string)
    (fields : list StructField) :
  resolveFieldsSquashed
    (match modelType with TPointer e => e | _ => modelType end) = Ok fields ->
  let derive n t :=
    resourceSchemaAttrsFromStruct ToSnake n t setAsComputed sensitiveAttrs
      extraRequiredAttrs computedAsSetAttrs in
  let attribute_of :=
    fieldAttribute ToSnake setAsComputed sensitiveAttrs extraRequiredAttrs
      computedAsSetAttrs (derive fuel) fuel in
  let wire_name (f : StructField) := resolveFieldName ToSnake f.1 in
  ((forall f, f ∈ fields -> exists oa, attribute_of f = Ok oa) ->
   exists schema, derive (S fuel) modelType = Ok schema)
  /\ (forall schema,
        derive (S fuel) modelType = Ok schema ->
        forall (i : nat) f a,
          fields !! i = Some f ->
          attribute_of f = Ok (Some a) ->
          (forall (j : nat) f', (i < j)%nat -> fields !! j = Some f' ->
                                wire_name f' = wire_name f ->
                                attribute_of f' = Ok None) ->
          schema !! wire_name f = Some a).
Proof.
  intros Hfields derive attribute_of wire_name.
  subst derive. cbn [resourceSchemaAttrsFromStruct]. rewrite Hfields.
  cbn [rbind]. split.
  - intros Hall. by apply schema_fold_total.
  - intros schema Hfold. by apply (schema_fold_last_wins _ _ _ _ _ _ _ ∅).
Qed.

Lemma schema_derivation_last_field_wins_witness :
  exists schema,
    resourceSchemaAttrsFromStruct (fun s => s) 1 duplicate_name_model
      false [] [] [] = Ok schema
    /\ schema !! "name" = Some (BoolAttribute (declaredOptions EmptyString false false)).
Proof.
  destruct (schema_derivation_last_field_wins (fun s => s) 0
              duplicate_name_model false [] [] []
              [ (tagged_field "Name" "name", TBasic reflect.String);
                (tagged_field "Title" "name", TBasic reflect.Bool) ]
              eq_refl) as [Htotal Hlast].
  destruct Htotal as [schema Hschema].
  { intros f Hf. apply list_elem_of_In in Hf.
    destruct Hf as [<- | [<- | []]]; eexists; vm_compute; reflexivity. }
  exists schema. split; [exact Hschema|].
  apply (Hlast schema Hschema 1%nat
           (tagged_field "Title" "name", TBasic reflect.Bool)).
  - reflexivity.
  - vm_compute. reflexivity.
  - intros j f' Hj Hf'. destruct j as [|[|j]]; [lia | lia | discriminate].
Defined.

(** ** Encode *)

Lemma lbind_Ok {A B} (m : logged A) (k : A -> logged B) (b : B) (log : Log) :
  lbind m k = (Ok b, log) ->
  exists a l l', m = (Ok a, l) /\ k a = (Ok b, l') /\ log = l ++ l'.
Proof.
  destruct m as [[a| | |] l]; cbn; try discriminate.
  destruct (k a) as [r l'] eqn:Hk. intros [= -> <-].
  exists a, l, l'. done.
Qed.

Lemma lift_Ok {A} (r : result A) (a : A) (log : Log) :
  lift r = (Ok a, log) -> r = Ok a /\ log = [].
Proof. unfold lift. by intros [= -> <-]. Qed.

Lemma lbind_log_prefix {A B} (r : result A) (l0 : Log) (k : A -> logged B) :
  lbind (r, l0) k = ((lbind (r, []) k).1, l0 ++ (lbind (r, []) k).2).
Proof.
  destruct r; cbn; rewrite ?app_nil_r; try done.
  by destruct (k a).
Qed.

Lemma and_fold_true {A} (P : string -> A -> bool) (m : gmap string A) :
  map_fold (fun k v acc => acc && P k v) true m = true ->
  forall k v, m !! k = Some v -> P k v = true.
Proof.
  apply (map_fold_weak_ind
           (fun r m => r = true -> forall k v, m !! k = Some v -> P k v = true)).
  - intros _ k v. by rewrite lookup_empty.
  - intros i x m' r Hi IH Hr k v Hk.
    apply andb_true_iff in Hr as [Hr Hx].
    destruct (decide (i = k)) as [->|Hne].
    + rewrite lookup_insert_eq in Hk. by injection Hk as <-.
    + rewrite lookup_insert_ne in Hk by done. by apply IH.
Qed.

Lemma ObjectValue_valid ats attrs obj :
  ObjectValue ats attrs = (obj, false) ->
  obj = VObject ats ValueStateKnown attrs
  /\ (forall name, is_Some (attrs !! name) <-> is_Some (ats !! name)).
Proof.
  unfold ObjectValue.
  destruct (object_attributes_valid ats attrs) eqn:Hvalid; [|discriminate].
  intros [= <-]. split; [done|].
  unfold object_attributes_valid in Hvalid.
  apply andb_true_iff in Hvalid as [Hdeclared Hgiven].
  intros name. split.
  - intros [v Hv].
    pose proof (and_fold_true
                  (fun name _ => bool_decide (is_Some (ats !! name)))
                  attrs Hgiven name v Hv) as H.
    by apply bool_decide_eq_true in H.
  - intros [t Ht].
    pose proof (and_fold_true
                  (fun name t => match attrs !! name with
                                 | Some a => TypeEqual t (TypeOf a)
                                 | None => false
                                 end) ats Hdeclared name t Ht) as H.
    cbn in H. destruct (attrs !! name); [eauto | discriminate].
Qed.

Section EncodeProperties.
Variable ToSnake : string -> string.
Variable json_Marshal : option GoValue -> result string.
Variables (fuel : nat) (state plan : option Value)
          (schemaAttrs : gmap string AttrType).

Let step := encodeStateField ToSnake json_Marshal fuel schemaAttrs.
Let wire_name (fv : StructField * GoValue) :=
      resolveFieldName ToSnake fv.1.1.

Lemma encodeStateField_prefix r l0 fv :
  step (r, l0) fv = ((step (r, []) fv).1, l0 ++ (step (r, []) fv).2).
Proof. unfold step, encodeStateField. apply lbind_log_prefix. Qed.

Lemma encodeFields_prefix pairs r l0 :
  foldl step (r, l0) pairs
  = ((foldl step (r, []) pairs).1, l0 ++ (foldl step (r, []) pairs).2).
Proof.
  revert r l0. induction pairs as [|fv pairs IH]; intros r l0; cbn [foldl].
  - cbn. by rewrite app_nil_r.
  - rewrite encodeStateField_prefix.
    destruct (step (r, []) fv) as [r1 l1] eqn:H1. cbn [fst snd].
    rewrite IH. rewrite (IH r1 l1). cbn [fst snd]. by rewrite app_assoc.
Qed.

Lemma encodeStateField_not_Ok r l0 fv :
  (forall m, r <> Ok m) -> step (r, l0) fv = (r, l0).
Proof.
  intros H. unfold step, encodeStateField.
  destruct r; cbn; try done. by destruct (H a).
Qed.

Lemma encodeFields_not_Ok pairs r l0 :
  (forall m, r <> Ok m) -> foldl step (r, l0) pairs = (r, l0).
Proof.
  intros H. induction pairs as [|fv pairs IH]; cbn [foldl]; [done|].
  by rewrite encodeStateField_not_Ok.
Qed.

(** The keys of the value map come from the wire names of the fields. *)
Lemma encodeFields_keys pairs acc l0 m log :
  foldl step (Ok acc, l0) pairs = (Ok m, log) ->
  forall name, is_Some (m !! name) ->
               is_Some (acc !! name)
               \/ exists fv, fv ∈ pairs /\ wire_name fv = name.
Proof.
  revert m log. induction pairs as [|fv pairs IH] using rev_ind;
    intros m log Hfold name Hname.
  - cbn in Hfold. injection Hfold as <- <-. by left.
  - rewrite foldl_app in Hfold. cbn in Hfold.
    destruct (foldl step (Ok acc, l0) pairs) as [r1 l1] eqn:H1.
    unfold step, encodeStateField in Hfold.
    apply lbind_Ok in Hfold as (m1 & l & l' & [= -> ->] & Hbody & ->).
    fold (wire_name fv) in Hbody.
    assert (is_Some (m1 !! name) \/ wire_name fv = name) as [Hm1 | Heq].
    { destruct (schemaAttrs !! wire_name fv).
      - apply lbind_Ok in Hbody as (v & ? & ? & _ & [= <- <-] & _).
        destruct (decide (wire_name fv = name)) as [|Hne]; [by right|].
        left. by rewrite lookup_insert_ne in Hname.
      - cbn in Hbody. injection Hbody as <- <-. by left. }
    + destruct (IH m1 l eq_refl name Hm1) as [? | (fv' & ? & ?)];
        [by left|]. right. exists fv'. split; [set_solver | done].
    + right. exists fv. split; [set_solver | done].
Qed.

Lemma fillDeclared_lookup valueMap filled :
  fillDeclared state plan schemaAttrs valueMap = Ok filled ->
  forall name,
    filled !! name =
      match valueMap !! name, schemaAttrs !! name with
      | Some v, _ => Some v
      | None, None => None
      | None, Some t =>
          match fillMissing state plan name t with
          | Ok v => Some v
          | _ => None
          end
      end.
Proof.
  unfold fillDeclared. revert filled.
  apply (map_fold_weak_ind
           (fun r (declared : gmap string AttrType) =>
              forall filled, r = Ok filled ->
                forall name,
                  filled !! name =
                    match valueMap !! name, declared !! name with
                    | Some v, _ => Some v
                    | None, None => None
                    | None, Some t =>
                        match fillMissing state plan name t with
                        | Ok v => Some v
                        | _ => None
                        end
                    end)).
  - intros filled [= <-] name. rewrite lookup_empty.
    by destruct (valueMap !! name).
  - intros i t declared r Hi IH filled Hfilled name.
    apply rbind_Ok in Hfilled as (m & -> & Hstep).
    specialize (IH m eq_refl).
    destruct (decide (i = name)) as [->|Hne].
    + rewrite lookup_insert_eq. pose proof (IH name) as Hm.
      rewrite Hi in Hm.
      destruct (m !! name) as [v|] eqn:Hmn.
      * injection Hstep as <-. rewrite Hmn.
        by destruct (valueMap !! name).
      * apply rbind_Ok in Hstep as (v & Hv & [= <-]).
        rewrite lookup_insert_eq, Hv.
        by destruct (valueMap !! name).
    + rewrite lookup_insert_ne by done. rewrite <- IH.
      destruct (m !! i).
      * by injection Hstep as <-.
      * apply rbind_Ok in Hstep as (v & Hv & [= <-]).
        by rewrite lookup_insert_ne.
Qed.
End EncodeProperties.

Section EncodeRecordProperties.
Variable ToSnake : string -> string.
Variable json_Marshal : option GoValue -> result string.
Variables (fuel : nat) (state plan : option Value)
          (schemaAttrs : gmap string AttrType).

Let wire_name (fv : StructField * GoValue) :=
      resolveFieldName ToSnake fv.1.1.

Lemma StructToStateObject_encodeRecord input value fields values :
  inputValue input = Some value ->
  resolveFieldsSquashed (GoTypeOf value) = Ok fields ->
  resolveFieldsValueSquashed value = Ok values ->
  length fields = length values ->
  StructToStateObject ToSnake json_Marshal fuel input state plan schemaAttrs
  = encodeRecord ToSnake json_Marshal fuel state plan schemaAttrs
      (zip fields values).
Proof.
  intros Hin Hfields Hvalues Hlen. unfold StructToStateObject.
  rewrite Hin. cbn [type_of_value value_or_panic lift lbind].
  rewrite Hfields. cbn [lbind]. rewrite Hvalues. cbn [lbind].
  unfold zip_fields. rewrite bool_decide_eq_true_2 by done. cbn [lbind].
  destruct (encodeRecord _ _ _ _ _ _ _) as [r l]. done.
Qed.

(** The record as encoded, from the value map of its fields. *)
Lemma encodeRecord_Ok pairs obj log :
  encodeRecord ToSnake json_Marshal fuel state plan schemaAttrs pairs
  = (Ok obj, log) ->
  exists valueMap l filled,
    foldl (encodeStateField ToSnake json_Marshal fuel schemaAttrs)
      (lret ∅) pairs = (Ok valueMap, l)
    /\ fillDeclared state plan schemaAttrs valueMap = Ok filled
    /\ ObjectValue schemaAttrs filled = (obj, false).
Proof.
  unfold encodeRecord. intros H.
  apply lbind_Ok in H as (valueMap & l & l' & Hfold & H & ->).
  apply lbind_Ok in H as (filled & l1 & l2 & Hfill & H & ->).
  apply lift_Ok in Hfill as [Hfill ->].
  exists valueMap, l, filled. split; [done|]. split; [done|].
  destruct (ObjectValue schemaAttrs filled) as [o [|]]; [discriminate|].
  by injection H as <- <-.
Qed.

(** Leaving out a field whose wire name the schema does not declare
    changes the log by one warning and nothing else. *)
Lemma encodeRecord_without_field l1 fv l2 :
  schemaAttrs !! wire_name fv = None ->
  exists r g1 w g2,
    encodeRecord ToSnake json_Marshal fuel state plan schemaAttrs (l1 ++ l2)
    = (r, g1 ++ g2)
    /\ encodeRecord ToSnake json_Marshal fuel state plan schemaAttrs
         (l1 ++ fv :: l2) = (r, g1 ++ w ++ g2)
    /\ (w = [(LogWarn, field_not_found (wire_name fv))]
        \/ (w = [] /\ forall obj, r <> Ok obj)).
Proof.
  intros Hmissing. unfold encodeRecord.
  set (step := encodeStateField ToSnake json_Marshal fuel schemaAttrs).
  set (rest := fun valueMap : gmap string Value =>
                 let+ valueMap :=
                   lift (fillDeclared state plan schemaAttrs valueMap) in
                 let '(objVal, hasError) :=
                   ObjectValue schemaAttrs valueMap in
                 if hasError then lift (Err "object value creation error")
                 else lret objVal).
  rewrite !foldl_app. cbn [foldl].
  destruct (foldl step (lret ∅) l1) as [r1 g1] eqn:H1.
  destruct r1 as [m| e | e |].
  - assert (step (Ok m, g1) fv
            = (Ok m, g1 ++ [(LogWarn, field_not_found (wire_name fv))]))
      as ->.
    { unfold step, encodeStateField. cbn [lbind].
      fold (wire_name fv). rewrite Hmissing. cbn. done. }
    pose proof (encodeFields_prefix ToSnake json_Marshal fuel schemaAttrs
                  l2 (Ok m) g1) as Hp1.
    pose proof (encodeFields_prefix ToSnake json_Marshal fuel schemaAttrs
                  l2 (Ok m)
                  (g1 ++ [(LogWarn, field_not_found (wire_name fv))]))
      as Hp2.
    fold step in Hp1, Hp2. rewrite Hp1, Hp2. clear Hp1 Hp2.
    destruct (foldl step (Ok m, []) l2) as [R G]. cbn [fst snd].
    rewrite (lbind_log_prefix R (g1 ++ G)).
    rewrite (lbind_log_prefix R ((g1 ++ _) ++ G)).
    destruct (lbind (R, []) rest) as [R' L']. cbn [fst snd].
    exists R', g1, [(LogWarn, field_not_found (wire_name fv))], (G ++ L').
    split; [by rewrite app_assoc|]. split; [|by left].
    by rewrite <- !app_assoc.
  - pose proof (encodeFields_not_Ok ToSnake json_Marshal fuel schemaAttrs
                  l2 (Err e) g1 ltac:(done)) as Hn.
    pose proof (encodeStateField_not_Ok ToSnake json_Marshal fuel
                  schemaAttrs (Err e) g1 fv ltac:(done)) as Hs.
    fold step in Hn, Hs. rewrite Hs, Hn.
    exists (Err e), g1, [], []. cbn. rewrite app_nil_r.
    split; [done|]. split; [done|]. right. done.
  - pose proof (encodeFields_not_Ok ToSnake json_Marshal fuel schemaAttrs
                  l2 (Panic e) g1 ltac:(done)) as Hn.
    pose proof (encodeStateField_not_Ok ToSnake json_Marshal fuel
                  schemaAttrs (Panic e) g1 fv ltac:(done)) as Hs.
    fold step in Hn, Hs. rewrite Hs, Hn.
    exists (Panic e), g1, [], []. cbn. rewrite app_nil_r.
    split; [done|]. split; [done|]. right. done.
  - pose proof (encodeFields_not_Ok ToSnake json_Marshal fuel schemaAttrs
                  l2 OutOfFuel g1 ltac:(done)) as Hn.
    pose proof (encodeStateField_not_Ok ToSnake json_Marshal fuel
                  schemaAttrs OutOfFuel g1 fv ltac:(done)) as Hs.
    fold step in Hn, Hs. rewrite Hs, Hn.
    exists OutOfFuel, g1, [], []. cbn. rewrite app_nil_r.
    split; [done|]. split; [done|]. right. done.
Qed.
End EncodeRecordProperties.

(** The sample record against the sample schema: [region] is not
    declared and only warned about; [count] has no field and is filled,
    with null when neither plan nor state are given, from the plan when it
    has a value. *)
Example encode_database_record :
  StructToStateObject (fun s => s) (fun _ => Ok "null") 2
    (Some database_record) None None database_schema
  = (Ok (VObject database_schema ValueStateKnown
           {[ "name" := StringValue "db1"; "count" := Int64Null ]}),
     [(LogWarn, "Field 'region' not found in schema attributes")]).
Proof. vm_compute. reflexivity. Qed.

Example encode_database_record_with_plan :
  StructToStateObject (fun s => s) (fun _ => Ok "null") 2
    (Some database_record) None (Some database_plan) database_schema
  = (Ok (VObject database_schema ValueStateKnown
           {[ "name" := StringValue "db1"; "count" := Int64Value 3 ]}),
     [(LogWarn, "Field 'region' not found in schema attributes")]).
Proof. vm_compute. reflexivity. Qed.

(** C7, as stated, fails: a declared attribute without field is not
    always filled with null; the value of the plan comes first. *)
Lemma encode_fills_from_plan_not_null :
  ~ (forall (ToSnake : string -> string)
            (json_Marshal : option GoValue -> result string) (fuel : nat)
            (input : option GoValue) (state plan : option Value)
            (schemaAttrs : gmap string AttrType) (value : GoValue)
            (fields : list StructField) (obj : Value) (log : Log)
            (name : string) (t : AttrType),
        inputValue input = Some value ->
        resolveFieldsSquashed (GoTypeOf value) = Ok fields ->
        (forall f, f ∈ fields -> resolveFieldName ToSnake f.1 <> name) ->
        schemaAttrs !! name = Some t ->
        StructToStateObject ToSnake json_Marshal fuel input state plan
          schemaAttrs = (Ok obj, log) ->
        Ok <$> Attributes obj !! name = Some (getNullValue t)).
Proof.
  intros H.
  specialize (H (fun s => s) (fun _ => Ok "null") 2%nat
                (Some database_record) None (Some database_plan)
                database_schema database_record
                [ (tagged_field "Name" "name", TBasic reflect.String);
                  (tagged_field "Region" "region", TBasic reflect.String) ]
                (VObject database_schema ValueStateKnown
                   {[ "name" := StringValue "db1"; "count" := Int64Value 3 ]})
                [(LogWarn, "Field 'region' not found in schema attributes")]
                "count" Int64Type eq_refl eq_refl).
  assert (forall f : StructField,
             f ∈ [ (tagged_field "Name" "name", TBasic reflect.String);
                   (tagged_field "Region" "region", TBasic reflect.String) ] ->
             resolveFieldName (fun s => s) f.1 <> "count") as Hnames.
  { intros f Hf. apply list_elem_of_In in Hf.
    destruct Hf as [<- | [<- | []]]; vm_compute; discriminate. }
  specialize (H Hnames eq_refl encode_database_record_with_plan).
  vm_compute in H. discriminate.
Qed.

(** C7 (amended). For an input whose flattened fields resolve, every
    object [StructToStateObject] emits is a known object of the declared
    attribute types that holds a value for exactly the declared
    attributes; a declared attribute that is the wire name of no field
    holds the value the plan has for it when a plan is given and has one,
    else the value the state has, else the null value of its type (so
    null when neither plan nor state are given).  A field whose wire name
    the schema does not declare makes no error: the outcome is the outcome
    for the fields without it, and the log has gained the warning. *)
Theorem encode_fills_declared_attributes
    (ToSnake : string -> string)
    (json_Marshal : option GoValue -> result string) (fuel : nat)
    (input : option GoValue) (state plan : option Value)
    (schemaAttrs : gmap string AttrType) (value : GoValue)
    (fields : list StructField) (values : list GoValue) :
  inputValue input = Some value ->
  resolveFieldsSquashed (GoTypeOf value) = Ok fields ->
  resolveFieldsValueSquashed value = Ok values ->
  length fields = length values ->
  let encoded :=
    StructToStateObject ToSnake json_Marshal fuel input state plan
      schemaAttrs in
  (forall obj log,
      encoded = (Ok obj, log) ->
      exists attrs,
        obj = VObject schemaAttrs ValueStateKnown attrs
        /\ (forall name, is_Some (attrs !! name) <-> is_Some (schemaAttrs !! name))
        /\ (forall name t,
              schemaAttrs !! name = Some t ->
              (forall f, f ∈ fields -> resolveFieldName ToSnake f.1 <> name) ->
              Ok <$> attrs !! name = Some (fillMissing state plan name t)
              /\ (state = None -> plan = None ->
                  Ok <$> attrs !! name = Some (getNullValue t))))
  /\ (forall l1 fv l2,
        zip fields values = l1 ++ fv :: l2 ->
        schemaAttrs !! resolveFieldName ToSnake fv.1.1 = None ->
        exists r g1 w g2,
          encodeRecord ToSnake json_Marshal fuel state plan schemaAttrs
            (l1 ++ l2) = (r, g1 ++ g2)
          /\ encoded = (r, g1 ++ w ++ g2)
          /\ (w = [(LogWarn,
                    field_not_found (resolveFieldName ToSnake fv.1.1))]
              \/ (w = [] /\ forall obj, r <> Ok obj))).
Proof.
  intros Hin Hfields Hvalues Hlen encoded. subst encoded.
  rewrite (StructToStateObject_encodeRecord _ _ _ _ _ _ _ _ _ _
             Hin Hfields Hvalues Hlen).
  split.
  - intros obj log Henc.
    apply encodeRecord_Ok in Henc as (valueMap & l & filled & Hfold & Hfill & Hobj).
    apply ObjectValue_valid in Hobj as [-> Hdom].
    exists filled. split; [done|]. split; [done|].
    intros name t Ht Hnofield.
    assert (valueMap !! name = None) as Hnone.
    { destruct (valueMap !! name) as [v0|] eqn:Hv; [|done]. exfalso.
      destruct (encodeFields_keys _ _ _ _ _ _ _ _ _ Hfold name)
        as [Hempty | (fv & Hfv & Hname)]; [by rewrite Hv | |].
      - rewrite lookup_empty in Hempty. by destruct Hempty.
      - apply (Hnofield fv.1); [|done].
        apply list_elem_of_lookup in Hfv as [i Hi].
        apply lookup_zip_with_Some in Hi as (f & fval & -> & Hf & _).
        by eapply list_elem_of_lookup_2. }
    pose proof (fillDeclared_lookup _ _ _ _ _ Hfill name) as Hlookup.
    rewrite Hnone, Ht in Hlookup.
    assert (exists v, fillMissing state plan name t = Ok v) as [v Hv].
    { unfold fillMissing.
      destruct (match plan with Some _ => _ | None => _ end); [eauto|].
      destruct (match state with Some _ => _ | None => _ end); [eauto|].
      destruct t; cbn; eauto. }
    rewrite Hv in Hlookup. rewrite Hlookup. split.
    + by rewrite Hv.
    + intros -> ->. cbn in Hv. destruct t; cbn in *; by injection Hv as <-.
  - intros l1 fv l2 -> Hmissing.
    by apply encodeRecord_without_field.
Qed.

Lemma encode_fills_declared_attributes_witness :
  exists attrs,
    (StructToStateObject (fun s => s) (fun _ => Ok "null") 2
       (Some database_record) None (Some database_plan) database_schema).1
    = Ok (VObject database_schema ValueStateKnown attrs)
    /\ attrs !! "count" = Some (Int64Value 3).
Proof.
  destruct (encode_fills_declared_attributes (fun s => s)
              (fun _ => Ok "null") 2 (Some database_record) None
              (Some database_plan) database_schema database_record
              [ (tagged_field "Name" "name", TBasic reflect.String);
                (tagged_field "Region" "region", TBasic reflect.String) ]
              [ GString "db1"; GString "eu" ]
              eq_refl eq_refl eq_refl eq_refl) as [Hfill _].
  destruct (Hfill
              (VObject database_schema ValueStateKnown
                 {[ "name" := StringValue "db1"; "count" := Int64Value 3 ]})
              [(LogWarn, "Field 'region' not found in schema attributes")]
              encode_database_record_with_plan)
    as (attrs & Hobj & _ & Hmissing).
  exists attrs. split.
  - rewrite encode_database_record_with_plan. cbn. by rewrite Hobj.
  - destruct (Hmissing "count" Int64Type eq_refl) as [Hcount _].
    + intros f Hf. apply list_elem_of_In in Hf.
      destruct Hf as [<- | [<- | []]]; vm_compute; intros [=].
    + destruct (attrs !! "count") as [count|]; [|discriminate Hcount].
      vm_compute in Hcount. by injection Hcount as ->.
Defined.

(** ** Reconcile *)

Lemma GoType_eqb_refl (t : GoType) : GoType_eqb t t = true.
Proof.
  revert t. fix IH 1. intros [k|e|e|n e|k e|fs| |e|]; cbn;
    rewrite ?IH, ?bool_decide_eq_true_2 by done; try done.
  induction fs as [|[i ft] fs IHfs]; [done|].
  rewrite bool_decide_eq_true_2 by done. rewrite IH. exact IHfs.
Qed.

Lemma assign_same_type target v :
  ValueKind target <> reflect.Interface ->
  GoTypeOf v = GoTypeOf target ->
  assign target v = Ok v.
Proof.
  intros Hk Ht. unfold assign. rewrite Ht, GoType_eqb_refl.
  by destruct target.
Qed.

(** The plan value once its pointers are followed. *)
Lemma setTarget_deref planVal canAddr stateVal target :
  match deref planVal with
  | None =>
      setTargetValueFromPlanAndState planVal canAddr stateVal target
      = Ok target
  | Some p =>
      exists c,
        setTargetValueFromPlanAndState planVal canAddr stateVal target
        = setTargetValueFromPlanAndState p c stateVal target
        /\ is_pointer p = false
  end.
Proof.
  revert planVal canAddr. fix IH 1.
  intros [b|k z|k z|k z|s|e [q|]|e l|e l|e m|fs|d|e c|k z] canAddr;
    try (cbn [deref]; exists canAddr; split; reflexivity).
  - cbn [deref setTargetValueFromPlanAndState]. apply IH.
  - reflexivity.
Qed.


(** The sample records: the flag absent from the plan keeps the state's;
    an explicit [false] replaces [true]; a zero size keeps the state's. *)
Example reconcile_flag_records :
  reconcile flag_type (flag_record None EmptyString 7) (flag_record (Some true) "db" 5)
  = Ok (pointer_to (flag_record (Some true) "db" 7))
  /\ reconcile flag_type (flag_record (Some false) "x" 0)
       (flag_record (Some true) "db" 5)
     = Ok (pointer_to (flag_record (Some false) "x" 5)).
Proof. split; vm_compute; reflexivity. Qed.



(** ** Deep copy *)

Module DeepCopyProperties.
Import DeepCopy.

Section ReifyExt.
Variables f g : value -> option tree.
Hypothesis Hfg : forall x t, f x = Some t -> g x = Some t.

Lemma reifyElems_ext vs ts :
  reifyElems f vs = Some ts -> reifyElems g vs = Some ts.
Proof.
  revert ts. induction vs as [|x xs IH]; intros ts H; [done|].
  cbn in *. destruct (f x) as [t|] eqn:Hx; [|done]. cbn in H.
  destruct (reifyElems f xs) as [ts'|]; [|done]. cbn in H.
  injection H as <-. rewrite (Hfg _ _ Hx). cbn.
  by rewrite (IH _ eq_refl).
Qed.

Lemma reifyEntries_ext {K} (es : list (K * value)) ts :
  reifyEntries f es = Some ts -> reifyEntries g es = Some ts.
Proof.
  revert ts. induction es as [|[k x] es IH]; intros ts H; [done|].
  cbn in *. destruct (f x) as [t|] eqn:Hx; [|done]. cbn in H.
  destruct (reifyEntries f es) as [ts'|]; [|done]. cbn in H.
  injection H as <-. rewrite (Hfg _ _ Hx). cbn.
  by rewrite (IH _ eq_refl).
Qed.
End ReifyExt.

(** A tree read off a heap is read off every larger heap. *)
Lemma reify_mono n (h h2 : heap) v t :
  h ⊆ h2 -> reify n h v = Some t -> reify n h2 v = Some t.
Proof.
  intros Hsub. revert v t. induction n as [|n IH]; intros v t H; [done|].
  destruct v as [s|[l|]|[x|]|[[[l off] len]|]|elems|[l|]|fields|c|c];
    cbn in *; try done.
  - destruct (h !! l) as [[x| |]|] eqn:Hl; try done.
    rewrite (lookup_weaken _ _ _ _ Hl Hsub).
    apply fmap_Some in H as (tx & Hx & ->). by rewrite (IH _ _ Hx).
  - apply fmap_Some in H as (tx & Hx & ->). by rewrite (IH _ _ Hx).
  - destruct (h !! l) as [[x|es|]|] eqn:Hl; try done.
    rewrite (lookup_weaken _ _ _ _ Hl Hsub).
    destruct (bool_decide _); [|done].
    apply fmap_Some in H as (ts & Hts & ->).
    by rewrite (reifyElems_ext _ _ IH _ _ Hts).
  - apply fmap_Some in H as (ts & Hts & ->).
    by rewrite (reifyElems_ext _ _ IH _ _ Hts).
  - destruct (h !! l) as [[x|es|es]|] eqn:Hl; try done.
    rewrite (lookup_weaken _ _ _ _ Hl Hsub).
    apply fmap_Some in H as (ts & Hts & ->).
    by rewrite (reifyEntries_ext _ _ IH _ _ Hts).
  - apply fmap_Some in H as (ts & Hts & ->).
    by rewrite (reifyEntries_ext _ _ IH _ _ Hts).
Qed.

Lemma alloc_fresh c (h : heap) l h' :
  alloc c h = (l, h') ->
  h !! l = None /\ h' = <[l := c]> h /\ h ⊆ h'.
Proof.
  unfold alloc. intros [= <- <-].
  assert (h !! fresh (dom h) = None) as Hf.
  { apply not_elem_of_dom. apply is_fresh. }
  split; [done|]. split; [done|]. by apply insert_subseteq.
Qed.

Lemma copyFields_settable copy (fs : list (FieldInfo * value)) h :
  forallb (fun f => CanSet f.1) fs = true ->
  copyFields copy fs h = copyEntries copy fs h.
Proof.
  revert h. induction fs as [|[i x] fs IH]; intros h H; [done|].
  cbn in H. apply andb_true_iff in H as [Hi Hfs]. cbn. rewrite Hi. cbn.
  destruct (copy x h) as [[x' h1]| | |]; cbn; try done.
  by rewrite IH.
Qed.

Section CopyStep.
Variable n : nat.
Hypothesis IH : forall v (h : heap) t,
    reify n h v = Some t -> plain t = true ->
    exists v' h' t',
      deepCopy n v h = Ok (v', h') /\ h ⊆ h'
      /\ reify n h' v' = Some t' /\ erase t' = erase t
      /\ (forall l, l ∈ tlocs t' -> l ∉ dom h).

Lemma copyElems_correct vs (h : heap) ts :
  reifyElems (reify n h) vs = Some ts ->
  forallb plain ts = true ->
  exists vs' h' ts',
    copyElems (deepCopy n) vs h = Ok (vs', h') /\ h ⊆ h'
    /\ reifyElems (reify n h') vs' = Some ts'
    /\ erase <$> ts' = erase <$> ts
    /\ (forall l, l ∈ foldr (fun t acc => tlocs t ∪ acc) ∅ ts' ->
                   l ∉ dom h).
Proof.
  revert h ts. induction vs as [|x xs IHxs]; intros h ts Hr Hp.
  - injection Hr as <-. exists [], h, [].
    repeat split; try done; cbn; set_solver.
  - cbn in Hr. destruct (reify n h x) as [t|] eqn:Hx; [|done]. cbn in Hr.
    destruct (reifyElems (reify n h) xs) as [ts_r|] eqn:Hxs; [|done].
    cbn in Hr. injection Hr as <-. cbn in Hp.
    apply andb_true_iff in Hp as [Hpt Hpr].
    destruct (IH x h t Hx Hpt) as (x' & h1 & t' & Hc & Hsub1 & Hr1 & He1 & Hf1).
    assert (reifyElems (reify n h1) xs = Some ts_r) as Hxs1.
    { eapply reifyElems_ext; [|exact Hxs].
      intros. by eapply reify_mono. }
    destruct (IHxs h1 ts_r Hxs1 Hpr)
      as (xs' & h2 & ts_r' & Hcs & Hsub2 & Hr2 & He2 & Hf2).
    exists (x' :: xs'), h2, (t' :: ts_r').
    split; [cbn; rewrite Hc; cbn; rewrite Hcs; done|].
    split; [by etrans|].
    split; [cbn; rewrite (reify_mono _ _ _ _ _ Hsub2 Hr1); cbn;
            rewrite Hr2; done|].
    split; [cbn; by rewrite He1, He2|].
    intros l Hl. cbn in Hl. apply elem_of_union in Hl as [Hl|Hl].
    + by apply Hf1.
    + apply Hf2 in Hl. intros Hd. apply Hl.
      by apply (subseteq_dom _ _ Hsub1).
Qed.

Lemma copyEntries_correct {K} (es : list (K * value)) (h : heap) ts :
  reifyEntries (reify n h) es = Some ts ->
  forallb (fun kt => plain kt.2) ts = true ->
  exists es' h' ts',
    copyEntries (deepCopy n) es h = Ok (es', h') /\ h ⊆ h'
    /\ reifyEntries (reify n h') es' = Some ts'
    /\ (fun kt => (kt.1, erase kt.2)) <$> ts'
       = (fun kt => (kt.1, erase kt.2)) <$> ts
    /\ (forall l, l ∈ foldr (fun kt acc => tlocs kt.2 ∪ acc) ∅ ts' ->
                   l ∉ dom h).
Proof.
  revert h ts. induction es as [|[k x] xs IHxs]; intros h ts Hr Hp.
  - injection Hr as <-. exists [], h, [].
    repeat split; try done; cbn; set_solver.
  - cbn in Hr. destruct (reify n h x) as [t|] eqn:Hx; [|done]. cbn in Hr.
    destruct (reifyEntries (reify n h) xs) as [ts_r|] eqn:Hxs; [|done].
    cbn in Hr. injection Hr as <-. cbn in Hp.
    apply andb_true_iff in Hp as [Hpt Hpr].
    destruct (IH x h t Hx Hpt) as (x' & h1 & t' & Hc & Hsub1 & Hr1 & He1 & Hf1).
    assert (reifyEntries (reify n h1) xs = Some ts_r) as Hxs1.
    { eapply reifyEntries_ext; [|exact Hxs].
      intros. by eapply reify_mono. }
    destruct (IHxs h1 ts_r Hxs1 Hpr)
      as (xs' & h2 & ts_r' & Hcs & Hsub2 & Hr2 & He2 & Hf2).
    exists ((k, x') :: xs'), h2, ((k, t') :: ts_r').
    split; [cbn; rewrite Hc; cbn; rewrite Hcs; done|].
    split; [by etrans|].
    split; [cbn; rewrite (reify_mono _ _ _ _ _ Hsub2 Hr1); cbn;
            rewrite Hr2; done|].
    split; [cbn; by rewrite He1, He2|].
    intros l Hl. cbn in Hl. apply elem_of_union in Hl as [Hl|Hl].
    + by apply Hf1.
    + apply Hf2 in Hl. intros Hd. apply Hl.
      by apply (subseteq_dom _ _ Hsub1).
Qed.
End CopyStep.

Lemma reifyElems_length f vs ts :
  reifyElems f vs = Some ts -> length ts = length vs.
Proof.
  revert ts. induction vs as [|x xs IH]; intros ts H.
  - by injection H as <-.
  - cbn in H. destruct (f x); [|done]. cbn in H.
    destruct (reifyElems f xs) as [ts'|]; [|done]. cbn in H.
    injection H as <-. cbn. by rewrite (IH _ eq_refl).
Qed.

Lemma plain_fields f (fs : list (FieldInfo * value)) ts :
  reifyEntries f fs = Some ts ->
  forallb (fun kt => CanSet kt.1 && plain kt.2) ts = true ->
  forallb (fun x => CanSet x.1) fs = true
  /\ forallb (fun kt => plain kt.2) ts = true.
Proof.
  revert ts. induction fs as [|[i x] fs IH]; intros ts H Hp.
  - by injection H as <-.
  - cbn in H. destruct (f x); [|done]. cbn in H.
    destruct (reifyEntries f fs) as [ts'|]; [|done]. cbn in H.
    injection H as <-. cbn in Hp.
    apply andb_true_iff in Hp as [Hp1 Hp2].
    apply andb_true_iff in Hp1 as [Hc Hpt].
    destruct (IH _ eq_refl Hp2) as [H1 H2]. cbn. by rewrite Hc, Hpt, H1, H2.
Qed.

(** With fuel for the record, [deepCopy] returns a copy in new cells,
    equal in content, beside the untouched original. *)
Lemma deepCopy_correct n v (h : heap) t :
  reify n h v = Some t -> plain t = true ->
  exists v' h' t',
    deepCopy n v h = Ok (v', h') /\ h ⊆ h'
    /\ reify n h' v' = Some t' /\ erase t' = erase t
    /\ (forall l, l ∈ tlocs t' -> l ∉ dom h).
Proof.
  revert v h t. induction n as [|n IH]; intros v h t Hr Hp; [done|].
  destruct v as [s|[l|]|[x|]|[[[l off] len]|]|elems|[l|]|fields|c|c];
    cbn in Hr.
  - injection Hr as <-. exists (Scalar s), h, (TScalar s).
    repeat split; try done; cbn; set_solver.
  - destruct (h !! l) as [[x| |]|] eqn:Hl; try done.
    apply fmap_Some in Hr as (tx & Hx & ->). cbn in Hp.
    destruct (IH _ _ _ Hx Hp) as (x' & h1 & t' & Hc & Hsub & Hr1 & He & Hf).
    destruct (alloc_fresh (CVal x') h1 _ _ eq_refl) as (Hnone & _ & Hsub').
    set (l' := fresh (dom h1)) in *.
    exists (Ptr (Some l')), (<[l' := CVal x']> h1), (TPtr l' t').
    split; [cbn; rewrite Hl, Hc; done|].
    split; [by etrans|].
    split; [cbn; rewrite lookup_insert_eq;
            by rewrite (reify_mono _ _ _ _ _ Hsub' Hr1)|].
    split; [cbn; by rewrite He|].
    intros l0 Hl0. cbn in Hl0. apply elem_of_union in Hl0 as [Hl0|Hl0].
    + apply elem_of_singleton in Hl0 as ->. intros Hd.
      apply (subseteq_dom _ _ Hsub) in Hd.
      by apply not_elem_of_dom in Hnone.
    + by apply Hf.
  - injection Hr as <-. exists (Ptr None), h, TPtrNil.
    repeat split; try done; cbn; set_solver.
  - apply fmap_Some in Hr as (tx & Hx & ->). cbn in Hp.
    destruct (IH _ _ _ Hx Hp) as (x' & h1 & t' & Hc & Hsub & Hr1 & He & Hf).
    exists (Iface (Some x')), h1, (TIface t').
    split; [cbn; by rewrite Hc|]. split; [done|].
    split; [cbn; by rewrite Hr1|]. split; [cbn; by rewrite He|]. done.
  - injection Hr as <-. exists (Iface None), h, TIfaceNil.
    repeat split; try done; cbn; set_solver.
  - destruct (h !! l) as [[|es|]|] eqn:Hl; try done.
    destruct (bool_decide (off + len <= length es)%nat) eqn:Hb; [|done].
    apply fmap_Some in Hr as (ts & Hts & ->). cbn in Hp.
    destruct (copyElems_correct n IH _ _ _ Hts Hp)
      as (vs' & h1 & ts' & Hc & Hsub & Hr1 & He & Hf).
    destruct (alloc_fresh (CArr vs') h1 _ _ eq_refl) as (Hnone & _ & Hsub').
    set (l' := fresh (dom h1)) in *.
    assert (length vs' = len) as Hlen.
    { rewrite <- (reifyElems_length _ _ _ Hr1).
      rewrite <- (length_fmap erase), He, length_fmap.
      rewrite (reifyElems_length _ _ _ Hts).
      apply bool_decide_eq_true in Hb.
      rewrite length_take, length_drop. lia. }
    exists (Slice (Some (l', 0%nat, len))), (<[l' := CArr vs']> h1),
      (TSlice l' ts').
    split; [cbn; rewrite Hl, Hb, Hc; done|].
    split; [by etrans|].
    split.
    { cbn. rewrite lookup_insert_eq.
      rewrite bool_decide_eq_true_2 by lia.
      rewrite drop_0, <- Hlen, firstn_all.
      by rewrite (reifyElems_ext _ _ (fun x t => reify_mono n _ _ x t Hsub')
                    _ _ Hr1). }
    split; [cbn; by rewrite He|].
    intros l0 Hl0. cbn in Hl0. apply elem_of_union in Hl0 as [Hl0|Hl0].
    + apply elem_of_singleton in Hl0 as ->. intros Hd.
      apply (subseteq_dom _ _ Hsub) in Hd.
      by apply not_elem_of_dom in Hnone.
    + by apply Hf.
  - injection Hr as <-. exists (Slice None), h, TSliceNil.
    repeat split; try done; cbn; set_solver.
  - apply fmap_Some in Hr as (ts & Hts & ->). cbn in Hp.
    destruct (copyElems_correct n IH _ _ _ Hts Hp)
      as (vs' & h1 & ts' & Hc & Hsub & Hr1 & He & Hf).
    exists (Array vs'), h1, (TArray ts').
    split; [cbn; by rewrite Hc|]. split; [done|].
    split; [cbn; by rewrite Hr1|]. split; [cbn; by rewrite He|]. done.
  - destruct (h !! l) as [[| |es]|] eqn:Hl; try done.
    apply fmap_Some in Hr as (ts & Hts & ->). cbn in Hp.
    destruct (copyEntries_correct n IH _ _ _ Hts Hp)
      as (vs' & h1 & ts' & Hc & Hsub & Hr1 & He & Hf).
    destruct (alloc_fresh (CMap vs') h1 _ _ eq_refl) as (Hnone & _ & Hsub').
    set (l' := fresh (dom h1)) in *.
    exists (MapV (Some l')), (<[l' := CMap vs']> h1), (TMap l' ts').
    split; [cbn; rewrite Hl, Hc; done|].
    split; [by etrans|].
    split.
    { cbn. rewrite lookup_insert_eq.
      by rewrite (reifyEntries_ext _ _
                    (fun x t => reify_mono n _ _ x t Hsub') _ _ Hr1). }
    split; [cbn; by rewrite He|].
    intros l0 Hl0. cbn in Hl0. apply elem_of_union in Hl0 as [Hl0|Hl0].
    + apply elem_of_singleton in Hl0 as ->. intros Hd.
      apply (subseteq_dom _ _ Hsub) in Hd.
      by apply not_elem_of_dom in Hnone.
    + by apply Hf.
  - injection Hr as <-. exists (MapV None), h, TMapNil.
    repeat split; try done; cbn; set_solver.
  - apply fmap_Some in Hr as (ts & Hts & ->). cbn in Hp.
    destruct (plain_fields _ _ _ Hts Hp) as [Hset Hpl].
    destruct (copyEntries_correct n IH _ _ _ Hts Hpl)
      as (vs' & h1 & ts' & Hc & Hsub & Hr1 & He & Hf).
    exists (Struct vs'), h1, (TStruct ts').
    split; [cbn; rewrite (copyFields_settable _ _ _ Hset), Hc; done|].
    split; [done|].
    split; [cbn; by rewrite Hr1|]. split; [cbn; by rewrite He|]. done.
  - injection Hr as <-. destruct c; [done|].
    exists (Chan None), h, (TChan None).
    repeat split; try done; cbn; set_solver.
  - injection Hr as <-. destruct c; [done|].
    exists (Func None), h, (TFunc None).
    repeat split; try done; cbn; set_solver.
Qed.

Section CopyExt.
Variables f g : value -> heap -> result (value * heap).
Hypothesis Hfg : forall x h r, f x h = Ok r -> g x h = Ok r.

Lemma copyElems_ext vs h r :
  copyElems f vs h = Ok r -> copyElems g vs h = Ok r.
Proof.
  revert h r. induction vs as [|x xs IH]; intros h r H; [done|].
  cbn in *. destruct (f x h) as [c| | |] eqn:Hx; try done.
  rewrite (Hfg _ _ _ Hx). cbn in *.
  destruct (copyElems f xs c.2) as [cs| | |] eqn:Hxs; try done.
  by rewrite (IH _ _ Hxs).
Qed.

Lemma copyEntries_ext {K} (es : list (K * value)) h r :
  copyEntries f es h = Ok r -> copyEntries g es h = Ok r.
Proof.
  revert h r. induction es as [|[k x] xs IH]; intros h r H; [done|].
  cbn in *. destruct (f x h) as [c| | |] eqn:Hx; try done.
  rewrite (Hfg _ _ _ Hx). cbn in *.
  destruct (copyEntries f xs c.2) as [cs| | |] eqn:Hxs; try done.
  by rewrite (IH _ _ Hxs).
Qed.

Lemma copyFields_ext fs h r :
  copyFields f fs h = Ok r -> copyFields g fs h = Ok r.
Proof.
  revert h r. induction fs as [|[i x] xs IH]; intros h r H; [done|].
  cbn in *. destruct (negb (CanSet i)).
  - destruct (copyFields f xs h) as [cs| | |] eqn:Hxs; try done.
    by rewrite (IH _ _ Hxs).
  - destruct (f x h) as [c| | |] eqn:Hx; try done.
    rewrite (Hfg _ _ _ Hx). cbn in *.
    destruct (copyFields f xs c.2) as [cs| | |] eqn:Hxs; try done.
    by rewrite (IH _ _ Hxs).
Qed.
End CopyExt.

(** Fuel only bounds the depth: a copy made with some fuel is the copy
    made with any more. *)
Lemma deepCopy_fuel_S n v (h : heap) r :
  deepCopy n v h = Ok r -> deepCopy (S n) v h = Ok r.
Proof.
  revert v h r. induction n as [|n IH]; intros v h r H; [done|].
  destruct v as [s|[l|]|[x|]|[[[l off] len]|]|elems|[l|]|fields|c|c];
    try exact H; cbn in H; remember (S n) as k eqn:Hk; cbn -[alloc].
  - destruct (h !! l) as [[x| |]|]; try done.
    destruct (deepCopy n x h) as [c| | |] eqn:Hx; try done.
    by rewrite (IH _ _ _ Hx).
  - destruct (deepCopy n x h) as [c| | |] eqn:Hx; try done.
    by rewrite (IH _ _ _ Hx).
  - destruct (h !! l) as [[|es|]|]; try done.
    destruct (bool_decide _); [|done].
    destruct (copyElems (deepCopy n) _ h) as [cs| | |] eqn:Hx; try done.
    by rewrite (copyElems_ext _ _ IH _ _ _ Hx).
  - destruct (copyElems (deepCopy n) elems h) as [cs| | |] eqn:Hx; try done.
    by rewrite (copyElems_ext _ _ IH _ _ _ Hx).
  - destruct (h !! l) as [[| |es]|]; try done.
    destruct (copyEntries (deepCopy n) es h) as [cs| | |] eqn:Hx; try done.
    by rewrite (copyEntries_ext _ _ IH _ _ _ Hx).
  - destruct (copyFields (deepCopy n) fields h) as [cs| | |] eqn:Hx;
      try done.
    by rewrite (copyFields_ext _ _ IH _ _ _ Hx).
Qed.

Lemma deepCopy_fuel_mono n m v (h : heap) r :
  (n <= m)%nat -> deepCopy n v h = Ok r -> deepCopy m v h = Ok r.
Proof.
  induction 1 as [|m _ IH]; [done|].
  intros H. by apply deepCopy_fuel_S, IH.
Qed.



End DeepCopyProperties.

(** * Further properties of the package *)

(** ** The deep merge: frame, replacement and recursion *)

Lemma mergeAttribute_sets rec existingAttrs key planVal :
  skip planVal = false ->
  is_Some (mergeAttribute rec existingAttrs key planVal !! key).
Proof.
  intros Hskip.
  unfold mergeAttribute, mergeObjectAttribute, mergeMapAttribute,
    mergeListAttribute, mergeSetAttribute.
  rewrite Hskip. repeat case_match; rewrite lookup_insert_eq; eauto.
Qed.

(** X1. The merge touches only the keys of the incoming attributes and
    never removes one: a key the incoming attributes do not have holds
    what it held, every existing key is still there after the merge, and
    a key of the merged attributes was an existing one or comes with a
    resolved incoming value. *)
Theorem merge_never_drops_attributes
    (existingAttrs attrsToMerge : gmap string Value) :
  let merged := mergePlanAndStateMap existingAttrs attrsToMerge in
  (forall key, attrsToMerge !! key = None ->
               merged !! key = existingAttrs !! key)
  /\ (forall key, is_Some (existingAttrs !! key) -> is_Some (merged !! key))
  /\ (forall key, is_Some (merged !! key) ->
                  is_Some (existingAttrs !! key)
                  \/ exists planVal, attrsToMerge !! key = Some planVal
                                     /\ skip planVal = false).
Proof.
  cbn. split; [|split].
  - intros key Hkey. by rewrite mergePlanAndStateMap_lookup, Hkey.
  - intros key Hex. rewrite mergePlanAndStateMap_lookup.
    destruct (attrsToMerge !! key) as [planVal|]; [|done].
    destruct (skip planVal) eqn:Hskip.
    + unfold mergeAttribute. by rewrite Hskip.
    + by apply mergeAttribute_sets.
  - intros key. rewrite mergePlanAndStateMap_lookup.
    destruct (attrsToMerge !! key) as [planVal|]; [|by left].
    destruct (skip planVal) eqn:Hskip.
    + unfold mergeAttribute. rewrite Hskip. by left.
    + right. eauto.
Qed.

(** X2. A resolved incoming value replaces the existing one as a whole
    when it is no object, map, list or set (strings, booleans, numbers,
    tuples, dynamic values), and also when it is an object, map or list
    and the existing attributes hold nothing, or a value of another kind,
    under its key. *)
Theorem merge_replaces_plain_values
    (existingAttrs attrsToMerge : gmap string Value) (key : string)
    (planVal : Value) :
  attrsToMerge !! key = Some planVal ->
  skip planVal = false ->
  let merged := mergePlanAndStateMap existingAttrs attrsToMerge in
  (isObjectType (TypeOf planVal) = false ->
   isMapType (TypeOf planVal) = false ->
   isListType (TypeOf planVal) = false ->
   isSetType (TypeOf planVal) = false ->
   merged !! key = Some planVal)
  /\ (isSetType (TypeOf planVal) = false ->
      existingAttrs !! key = None ->
      merged !! key = Some planVal)
  /\ (forall existingVal,
        isSetType (TypeOf planVal) = false ->
        existingAttrs !! key = Some existingVal ->
        (isObjectType (TypeOf planVal) = true ->
         isObjectType (TypeOf existingVal) = false ->
         merged !! key = Some planVal)
        /\ (isMapType (TypeOf planVal) = true ->
            isMapType (TypeOf existingVal) = false ->
            merged !! key = Some planVal)
        /\ (isListType (TypeOf planVal) = true ->
            isListType (TypeOf existingVal) = false ->
            merged !! key = Some planVal)).
Proof.
  intros Hin Hskip. cbn.
  rewrite mergePlanAndStateMap_lookup, Hin.
  unfold mergeAttribute. rewrite Hskip.
  split; [|split].
  - intros -> -> -> ->. by rewrite lookup_insert_eq.
  - intros Hset Hnone. rewrite Hset.
    unfold mergeObjectAttribute, mergeMapAttribute, mergeListAttribute.
    rewrite Hnone. repeat case_match; by rewrite lookup_insert_eq.
  - intros existingVal Hset Hex. rewrite Hset.
    unfold mergeObjectAttribute, mergeMapAttribute, mergeListAttribute.
    rewrite Hex.
    split; [|split]; intros Hp He; rewrite ?Hp, ?He;
      destruct planVal; try discriminate; cbn in *;
      rewrite ?He; cbn; repeat case_match; by rewrite lookup_insert_eq.
Qed.

Lemma merge_replaces_plain_values_witness :
  mergePlanAndStateMap existing_status incoming_stopped_status !! "status"
  = Some (StringValue "stopped").
Proof.
  destruct (merge_replaces_plain_values existing_status
              incoming_stopped_status "status"
              (StringValue "stopped") eq_refl eq_refl) as [H _].
  apply H; reflexivity.
Defined.

Lemma object_attributes_valid_declared ats attrs name :
  object_attributes_valid ats attrs = true ->
  is_Some (attrs !! name) -> is_Some (ats !! name).
Proof.
  intros Hvalid Hname.
  destruct (ObjectValue_valid ats attrs (VObject ats ValueStateKnown attrs))
    as [_ H]; [unfold ObjectValue; by rewrite Hvalid|].
  by apply H.
Qed.

(** X3. An incoming object merges into an existing object attribute by
    attribute: the nested attributes the incoming object lacks, or holds
    as null or unknown, keep their existing values, and the result has
    the attribute types of the existing object.  The validation error of
    the framework is dropped: when the merged attributes do not fit these
    types, as when the incoming object brings a resolved attribute they
    do not declare, the attribute silently becomes an unknown object. *)
Theorem merge_objects_attribute_by_attribute
    (existingAttrs attrsToMerge : gmap string Value) (key : string)
    (pts ets : gmap string AttrType) (pst est : ValueState)
    (pattrs eattrs : gmap string Value) :
  attrsToMerge !! key = Some (VObject pts pst pattrs) ->
  skip (VObject pts pst pattrs) = false ->
  existingAttrs !! key = Some (VObject ets est eattrs) ->
  let merged := mergePlanAndStateMap existingAttrs attrsToMerge in
  let inner := mergePlanAndStateMap eattrs pattrs in
  merged !! key = Some (ObjectValue ets inner).1
  /\ (forall name, pattrs !! name = None -> inner !! name = eattrs !! name)
  /\ (forall name p, pattrs !! name = Some p -> skip p = true ->
                     inner !! name = eattrs !! name)
  /\ (object_attributes_valid ets inner = true ->
      merged !! key = Some (VObject ets ValueStateKnown inner))
  /\ (forall name p, pattrs !! name = Some p -> skip p = false ->
                     ets !! name = None ->
                     merged !! key = Some (VObject ets ValueStateUnknown ∅)).
Proof.
  intros Hin Hskip Hex. cbn.
  assert (mergePlanAndStateMap existingAttrs attrsToMerge !! key
          = Some (ObjectValue ets (mergePlanAndStateMap eattrs pattrs)).1)
    as Hmerged.
  { rewrite mergePlanAndStateMap_lookup, Hin.
    unfold mergeAttribute. rewrite Hskip. cbn [TypeOf isObjectType].
    unfold mergeObjectAttribute. rewrite Hex. cbn [TypeOf isObjectType negb].
    by rewrite lookup_insert_eq. }
  split; [done|]. split; [|split; [|split]].
  - intros name Hname. by rewrite mergePlanAndStateMap_lookup, Hname.
  - intros name p Hname Hp. rewrite mergePlanAndStateMap_lookup, Hname.
    unfold mergeAttribute. by rewrite Hp.
  - intros Hvalid. rewrite Hmerged. unfold ObjectValue. by rewrite Hvalid.
  - intros name p Hname Hp Hets. rewrite Hmerged. unfold ObjectValue.
    destruct (object_attributes_valid ets _) eqn:Hvalid; [|done].
    exfalso.
    assert (is_Some (ets !! name)) as [t Ht]; [|congruence].
    eapply object_attributes_valid_declared; [exact Hvalid|].
    rewrite mergePlanAndStateMap_lookup, Hname.
    by apply mergeAttribute_sets.
Qed.

Lemma merge_objects_attribute_by_attribute_witness :
  mergePlanAndStateMap existing_settings incoming_settings !! "settings"
  = Some (VObject status_type ValueStateUnknown ∅).
Proof.
  destruct (merge_objects_attribute_by_attribute existing_settings
              incoming_settings "settings"
              {[ "status" := StringType; "zone" := StringType ]} status_type
              ValueStateKnown ValueStateKnown
              {[ "status" := StringNull; "zone" := StringValue "eu" ]}
              {[ "status" := StringValue "running" ]}
              eq_refl eq_refl eq_refl) as (_ & _ & _ & _ & H).
  apply (H "zone" (StringValue "eu")); reflexivity.
Defined.

(** X4. A resolved incoming list of objects merges into a resolved
    existing list index by index: past the end of the existing list the
    incoming element is taken as it is, null or unknown included; a
    resolved incoming object merges into a resolved existing object at
    its index, with the attribute types of the existing one; it replaces
    an existing element that is null or unknown.  A list of another
    element type, and any list that meets a null or unknown existing
    list, replaces the existing value as a whole. *)
Theorem list_merge_index_by_index
    (existingAttrs attrsToMerge : gmap string Value) (key : string)
    (et : AttrType) (pst : ValueState) (planElems : list Value) :
  attrsToMerge !! key = Some (VList et pst planElems) ->
  skip (VList et pst planElems) = false ->
  let merged := mergePlanAndStateMap existingAttrs attrsToMerge in
  (isObjectType et = false -> merged !! key = Some (VList et pst planElems))
  /\ (forall existingVal,
        existingAttrs !! key = Some existingVal ->
        skip existingVal = true ->
        merged !! key = Some (VList et pst planElems))
  /\ (forall et' est existingElems,
        isObjectType et = true ->
        existingAttrs !! key = Some (VList et' est existingElems) ->
        skip (VList et' est existingElems) = false ->
        exists mergedElems : list Value,
          merged !! key = Some (ListValue et mergedElems).1
          /\ length mergedElems = length planElems
          /\ (forall (i : nat) p,
                planElems !! i = Some p -> existingElems !! i = None ->
                mergedElems !! i = Some p)
          /\ (forall (i : nat) p e,
                planElems !! i = Some p -> skip p = false ->
                existingElems !! i = Some e -> skip e = true ->
                mergedElems !! i = Some p)
          /\ (forall (i : nat) pts ps pattrs ets es eattrs,
                planElems !! i = Some (VObject pts ps pattrs) ->
                skip (VObject pts ps pattrs) = false ->
                existingElems !! i = Some (VObject ets es eattrs) ->
                skip (VObject ets es eattrs) = false ->
                mergedElems !! i
                = Some (ObjectValue ets
                          (mergePlanAndStateMap eattrs pattrs)).1)).
Proof.
  intros Hin Hskip. cbn.
  rewrite mergePlanAndStateMap_lookup, Hin.
  unfold mergeAttribute. rewrite Hskip.
  cbn [TypeOf isObjectType isMapType isListType].
  unfold mergeListAttribute.
  split; [|split].
  - intros ->. cbn [negb]. by rewrite lookup_insert_eq.
  - intros existingVal Hex Hsk. rewrite Hex.
    destruct (negb (isObjectType et)); [by rewrite lookup_insert_eq|].
    destruct (negb (isListType (TypeOf existingVal)));
      [by rewrite lookup_insert_eq|].
    destruct existingVal; rewrite ?Hsk; by rewrite lookup_insert_eq.
  - intros et' est existingElems Het Hex Hsk. rewrite Het, Hex.
    cbn [negb TypeOf isListType]. rewrite Hsk, lookup_insert_eq.
    exists (mergeListElements mergePlanAndStateMap existingElems 0 planElems).
    split; [done|]. split; [apply mergeListLoop_length|].
    split; [|split].
    + intros i p Hp He. rewrite mergeListLoop_lookup, Hp. cbn.
      unfold mergeListElement. rewrite He.
      destruct (skip p); [done|]. by destruct p.
    + intros i p e Hp Hps He Hes. rewrite mergeListLoop_lookup, Hp. cbn.
      unfold mergeListElement. rewrite Hps, He.
      destruct p; try done. destruct e; try done. by rewrite Hes.
    + intros i pts ps pattrs ets es eattrs Hp Hps He Hes.
      rewrite mergeListLoop_lookup, Hp. cbn.
      unfold mergeListElement. by rewrite Hps, He, Hes.
Qed.

Lemma list_merge_index_by_index_witness :
  exists mergedElems : list Value,
    mergePlanAndStateMap existing_disks incoming_short_disks !! "disks"
    = Some (ListValue (ObjectType status_type) mergedElems).1
    /\ length mergedElems = 4%nat
    /\ mergedElems !! 3%nat = Some (ObjectNull status_type).
Proof.
  destruct (list_merge_index_by_index existing_disks incoming_short_disks
              "disks" (ObjectType status_type) ValueStateKnown
              [ ObjectNull status_type; status_object "detached";
                status_object "spare"; ObjectNull status_type ]
              eq_refl eq_refl) as (_ & _ & H).
  destruct (H (ObjectType status_type) ValueStateKnown
              [ status_object "running"; status_object "stopped";
                status_object "failed" ] eq_refl eq_refl eq_refl)
    as (mergedElems & Hres & Hlen & Hpast & _).
  exists mergedElems. split; [exact Hres|]. split; [exact Hlen|].
  apply Hpast; reflexivity.
Defined.

(** ** [MergePlanToStateObject] *)

Lemma getNullValue_null (t : AttrType) :
  exists v, getNullValue t = Ok v /\ IsNull v = true /\ TypeOf v = t.
Proof. destruct t; cbn; eauto. Qed.

Lemma resolved_attributes_lookup (m : gmap string Value) (k : string) :
  map_fold (fun key val (acc : gmap string Value) =>
              if skip val then acc else <[key := val]> acc) ∅ m !! k
  = match m !! k with
    | Some v => if skip v then None else Some v
    | None => None
    end.
Proof.
  rewrite map_fold_local.
  - destruct (m !! k) as [v|]; [|done].
    destruct (skip v); [done|]. by rewrite lookup_insert_eq.
  - intros key v acc k' Hne. destruct (skip v); [done|].
    by rewrite lookup_insert_ne.
  - intros key v acc acc' Hacc. destruct (skip v); [done|].
    by rewrite !lookup_insert_eq.
Qed.

Lemma undeclared_deleted_lookup {A} (schemaAttrs : gmap string A)
    (m : gmap string Value) (k : string) :
  map_fold (fun key (_ : Value) (acc : gmap string Value) =>
              match schemaAttrs !! key with
              | Some _ => acc
              | None => delete key acc
              end) m m !! k
  = match schemaAttrs !! k with
    | Some _ => m !! k
    | None => None
    end.
Proof.
  rewrite map_fold_local.
  - destruct (m !! k) as [v|] eqn:Hk.
    + destruct (schemaAttrs !! k); [done|]. by rewrite lookup_delete_eq.
    + by destruct (schemaAttrs !! k).
  - intros key v acc k' Hne. destruct (schemaAttrs !! key); [done|].
    by rewrite lookup_delete_ne.
  - intros key v acc acc' Hacc. destruct (schemaAttrs !! key); [done|].
    by rewrite !lookup_delete_eq.
Qed.

Lemma fillDeclared_nulls_total (schemaAttrs : gmap string AttrType)
    (valueMap : gmap string Value) :
  exists filled, fillDeclared None None schemaAttrs valueMap = Ok filled.
Proof.
  unfold fillDeclared.
  apply (map_fold_weak_ind
           (fun (r : result (gmap string Value)) (_ : gmap string AttrType) =>
              exists filled, r = Ok filled)).
  - eauto.
  - intros name t m r _ [filled ->]. cbn.
    destruct (filled !! name); [eauto|].
    destruct (getNullValue_null t) as (v & -> & _). cbn. eauto.
Qed.

Lemma MergePlanToStateObject_unfold planObj stateResult schemaAttrs :
  exists final : gmap string Value,
    (forall name,
        final !! name =
          match schemaAttrs !! name with
          | Some t =>
              match
                mergePlanAndStateMap
                  (map_fold (fun key val (acc : gmap string Value) =>
                               if skip val then acc else <[key := val]> acc)
                     ∅ (Attributes stateResult))
                  (Attributes planObj) !! name
              with
              | Some v => Some v
              | None => match getNullValue t with
                        | Ok v => Some v
                        | _ => None
                        end
              end
          | None => None
          end)
    /\ MergePlanToStateObject planObj stateResult schemaAttrs
       = if (ObjectValue schemaAttrs final).2
         then Err "object value creation error"
         else Ok (ObjectValue schemaAttrs final).1.
Proof.
  unfold MergePlanToStateObject.
  set (merged := mergePlanAndStateMap _ (Attributes planObj)).
  destruct (fillDeclared_nulls_total schemaAttrs merged) as [filled Hfilled].
  pose proof (fillDeclared_lookup None None schemaAttrs merged filled Hfilled)
    as Hlookup.
  unfold fillDeclared, fillMissing in Hfilled. cbn in Hfilled.
  rewrite Hfilled. cbn [rbind].
  set (final := map_fold _ filled filled).
  exists final. split.
  - intros name. unfold final. rewrite undeclared_deleted_lookup, Hlookup.
    destruct (schemaAttrs !! name) as [t|]; [|done].
    destruct (merged !! name); [done|].
    unfold fillMissing. destruct (getNullValue_null t) as (v & -> & _). done.
  - by destruct (ObjectValue schemaAttrs final) as [objVal []].
Qed.


Example merge_server_plan_into_state :
  MergePlanToStateObject server_plan server_state server_schema
  = Ok (VObject server_schema ValueStateKnown
          {[ "name" := StringValue "db2"; "size" := Int64Value 3;
             "zone" := StringNull ]}).
Proof. vm_compute. reflexivity. Qed.

(** ** The plan modifiers and the diagnostics they find *)

Section PlanModifierDiagnostics.
Context {Path : Type} `{EqDecision Path}.
Variable PathString : Path -> string.

Lemma Diagnostic_eqb_refl (d : @Diagnostic Path) : Diagnostic_eqb d d = true.
Proof.
  unfold Diagnostic_eqb. rewrite !bool_decide_eq_true_2 by done.
  by destruct (DiagSeverity d).
Qed.

Lemma Append_idempotent (diags : @Diagnostics Path) d :
  Append (Append diags d) d = Append diags d.
Proof.
  unfold Append. destruct (existsb (Diagnostic_eqb d) diags) eqn:Hd.
  - by rewrite Hd.
  - rewrite existsb_app, Hd. cbn. by rewrite Diagnostic_eqb_refl.
Qed.

(** X6. A modifier of any of the six kinds leaves the diagnostics it
    finds as they are and in place, adds at most its one error after
    them, and adds nothing when it runs again on its own response. *)
Theorem PlanModify_only_appends (c : GuardCall) (resp : Diagnostics) :
  (exists added,
      PlanModify PathString c resp = resp ++ added
      /\ (added = [] \/ added = [violation PathString c]))
  /\ PlanModify PathString c (PlanModify PathString c resp)
     = PlanModify PathString c resp.
Proof.
  rewrite !PlanModify_cases. cbn zeta.
  destruct (IsNull _); [split; [exists []; by rewrite app_nil_r; auto|done]|].
  destruct (IsUnknown _); [split; [exists []; by rewrite app_nil_r; auto|done]|].
  destruct (IsUnknown _); [split; [exists []; by rewrite app_nil_r; auto|done]|].
  destruct (IsNull _); [split; [exists []; by rewrite app_nil_r; auto|done]|].
  destruct (Equal _ _); [split; [exists []; by rewrite app_nil_r; auto|done]|].
  split; [|apply Append_idempotent].
  unfold Append. destruct (existsb _ resp).
  - exists []. rewrite app_nil_r. auto.
  - eauto.
Qed.
End PlanModifierDiagnostics.

(** ** Validators and defaults *)

Lemma append_empty (s : string) : s +:+ EmptyString = s.
Proof.
  induction s as [|c s IH]; [done|].
  change (String c (s +:+ EmptyString) = String c s). by rewrite IH.
Qed.

Lemma Sprintf_one_string (pre s : string) :
  (forall c, c ∈ list_ascii_of_string pre -> c <> "%"%char) ->
  Sprintf (pre +:+ "%s") [ArgString s] = pre +:+ s.
Proof.
  induction pre as [|c pre IH]; intros Hpre.
  - cbn. apply append_empty.
  - change (Sprintf (String c (pre +:+ "%s")) [ArgString s]
            = String c (pre +:+ s)).
    cbn [Sprintf]. rewrite bool_decide_eq_false_2.
    + f_equal. apply IH. intros c' Hc'. apply Hpre. cbn. by right.
    + apply Hpre. cbn. by left.
Qed.

Lemma Sprintf_value_choices (s : string) :
  Sprintf "Value must be one of: %s" [ArgString s]
  = "Value must be one of: " +:+ s.
Proof.
  apply (Sprintf_one_string "Value must be one of: ").
  intros c Hc. apply list_elem_of_In in Hc. cbn in Hc.
  repeat (destruct Hc as [<-|Hc]; [discriminate|]). done.
Qed.

Lemma Sprintf_all_values_choices (s : string) :
  Sprintf "All values must be one of: %s" [ArgString s]
  = "All values must be one of: " +:+ s.
Proof.
  apply (Sprintf_one_string "All values must be one of: ").
  intros c Hc. apply list_elem_of_In in Hc. cbn in Hc.
  repeat (destruct Hc as [<-|Hc]; [discriminate|]). done.
Qed.

Section ValidatorProperties.
Context {Path : Type} `{EqDecision Path}.

Lemma HasError_Append_error (diags : @Diagnostics Path) p summary detail :
  HasError (AddAttributeError diags p summary detail) = true.
Proof.
  unfold AddAttributeError, Append.
  destruct (existsb _ diags) eqn:Hd.
  - apply existsb_exists in Hd as (d & Hin & Heq).
    unfold HasError. apply existsb_exists. exists d. split; [done|].
    unfold Diagnostic_eqb in Heq. cbn in Heq.
    by destruct (DiagSeverity d).
  - unfold HasError. rewrite existsb_app. cbn. by rewrite orb_true_r.
Qed.

(** X7. The choices validator of a string attribute lets null and
    unknown values pass and rejects a known value exactly when it is not,
    letter for letter, one of the choices; it then adds one attribute
    error at the path of the request whose detail lists the choices, and
    otherwise leaves the diagnostics as they are. *)
Theorem ValidateString_rejects_iff (Choices : list string)
    (req : @ValidatorRequest Path types_String) :
  let config := ValConfigValue req in
  let rejected :=
    IsNull (attr_value config) = false
    /\ IsUnknown (attr_value config) = false
    /\ string_value config ∉ Choices in
  (HasError (ValidateString Choices req []) = true <-> rejected)
  /\ (forall resp, ~ rejected -> ValidateString Choices req resp = resp)
  /\ (rejected ->
      ValidateString Choices req []
      = [ {| DiagSeverity := SeverityError; DiagPath := ValPath req;
             DiagSummary := "Invalid Value";
             DiagDetail := "Value must be one of: "
                           +:+ strings_Join Choices ", " |} ]).
Proof.
  cbn zeta. unfold ValidateString, slices_Contains, ValueString.
  rewrite Sprintf_value_choices.
  destruct (IsNull _) eqn:Hnull; cbn [orb].
  { split; [split; [done|by intros [? _]]|].
    split; [done|by intros [? _]]. }
  destruct (IsUnknown _) eqn:Hunknown.
  { split; [split; [done|by intros (_ & ? & _)]|].
    split; [done|by intros (_ & ? & _)]. }
  destruct (bool_decide _) eqn:Hin.
  - apply bool_decide_eq_true in Hin.
    split; [split; [done|by intros (_ & _ & ?)]|].
    split; [done|by intros (_ & _ & ?)].
  - apply bool_decide_eq_false in Hin.
    split; [split; [done|intros _; apply HasError_Append_error]|].
    split; [intros resp Hno; by destruct Hno|done].
Qed.

Lemma validateValues_cases (Choices : list string) (p : Path)
    (summary : string) (resp : Diagnostics) (values : list string) :
  validateValues Choices p summary resp values
  = if forallb (fun v => bool_decide (v ∈ Choices)) values then resp
    else AddAttributeError resp p summary
           ("All values must be one of: " +:+ strings_Join Choices ", ").
Proof.
  induction values as [|v values IH]; [done|].
  change (validateValues Choices p summary resp (v :: values))
    with (if negb (slices_Contains Choices v)
          then AddAttributeError resp p summary
                 (Sprintf "All values must be one of: %s"
                    [ArgString (strings_Join Choices ", ")])
          else validateValues Choices p summary resp values).
  rewrite Sprintf_all_values_choices. cbn [forallb]. unfold slices_Contains.
  destruct (bool_decide (v ∈ Choices)); cbn [negb andb]; [exact IH|done].
Qed.

Lemma Append_new_error (found : @Diagnostics Path) p summary detail :
  HasError found = false ->
  AddAttributeError found p summary detail
  = found ++ [ {| DiagSeverity := SeverityError; DiagPath := p;
                  DiagSummary := summary; DiagDetail := detail |} ].
Proof.
  intros Hfound. unfold AddAttributeError, Append.
  destruct (existsb _ found) eqn:Hd; [|done].
  apply existsb_exists in Hd as (d & Hin & Heq).
  assert (HasError found = true) as Herr; [|congruence].
  unfold HasError. apply existsb_exists. exists d. split; [done|].
  unfold Diagnostic_eqb in Heq. cbn in Heq. by destruct (DiagSeverity d).
Qed.

Lemma validateValues_rejects (Choices : list string) (p : Path)
    (summary : string) (found : Diagnostics) (values : list string) :
  rejects_values_outside Choices p summary found values
    (if HasError found then found
     else validateValues Choices p summary found values).
Proof.
  unfold rejects_values_outside. rewrite validateValues_cases.
  destruct (HasError found) eqn:Hfound; [done|].
  split; [done|]. intros _. split.
  - intros Hall. rewrite (proj2 (forallb_forall _ _)); [done|].
    intros v Hv. apply bool_decide_eq_true_2, Hall. by apply list_elem_of_In.
  - intros (v & Hv & Hout).
    destruct (forallb _ values) eqn:Hall.
    + exfalso. apply Hout.
      pose proof (proj1 (forallb_forall _ _) Hall v) as Hin.
      apply list_elem_of_In in Hv. apply Hin in Hv.
      by apply bool_decide_eq_true in Hv.
    + by apply Append_new_error.
Qed.

(** X8. The choices validators of lists and of sets let a null or
    unknown value pass.  Otherwise they append the diagnostics of the
    conversion to strings; when the diagnostics then hold an error, from
    the conversion or from before, no value is checked; else the
    response gains exactly one error when some value is not one of the
    choices, however many are not, and nothing when all are. *)
Theorem validate_elements_outside_choices
    (ListElementsAs : types_List -> list string * @Diagnostics Path)
    (SetElementsAs : types_Set -> list string * @Diagnostics Path)
    (Choices : list string) (resp : @Diagnostics Path) :
  (forall req : @ValidatorRequest Path types_List,
      let config := ValConfigValue req in
      let out := ValidateList ListElementsAs Choices req resp in
      (IsNull (attr_value config) || IsUnknown (attr_value config) = true ->
       out = resp)
      /\ (IsNull (attr_value config) || IsUnknown (attr_value config) = false ->
          rejects_values_outside Choices (ValPath req) "Invalid Value in List"
            (AppendAll resp (ListElementsAs config).2)
            (ListElementsAs config).1 out))
  /\ (forall req : @ValidatorRequest Path types_Set,
        let config := ValConfigValue req in
        let out := ValidateSet SetElementsAs Choices req resp in
        (IsNull (attr_value config) || IsUnknown (attr_value config) = true ->
         out = resp)
        /\ (IsNull (attr_value config) || IsUnknown (attr_value config) = false ->
            rejects_values_outside Choices (ValPath req) "Invalid Value in Set"
              (AppendAll resp (SetElementsAs config).2)
              (SetElementsAs config).1 out)).
Proof.
  split; intros req; cbn zeta; unfold ValidateList, ValidateSet;
    (split; intros ->; [done|]).
  - destruct (ListElementsAs _) as [values diags]. cbn [fst snd].
    apply validateValues_rejects.
  - destruct (SetElementsAs _) as [values diags]. cbn [fst snd].
    apply validateValues_rejects.
Qed.
End ValidatorProperties.

(** X9. None of the nine default handlers can panic: each sets a known
    plan value, and the defaults of sets and lists hold the configured
    values, one element each and in their order, with the element type
    of the handler. *)
Theorem DefaultPlanValue_known (d : AttrDefault) :
  exists v,
    DefaultPlanValue d = Ok v
    /\ StateOf v = ValueStateKnown
    /\ v = match d with
           | StringDefault s => VString ValueStateKnown s
           | BoolDefault b => VBool ValueStateKnown b
           | Int64Default z => VInt64 ValueStateKnown z
           | SetStringDefault vs =>
               VSet StringType ValueStateKnown (StringValue <$> vs)
           | SetNumericDefault vs =>
               VSet Int64Type ValueStateKnown (Int64Value <$> vs)
           | SetBoolDefault vs =>
               VSet BoolType ValueStateKnown (BoolValue <$> vs)
           | ListStringDefault vs =>
               VList StringType ValueStateKnown (StringValue <$> vs)
           | ListNumericDefault vs =>
               VList Int64Type ValueStateKnown (Int64Value <$> vs)
           | ListBoolDefault vs =>
               VList BoolType ValueStateKnown (BoolValue <$> vs)
           end.
Proof.
  destruct d as [s|b|z|vs|vs|vs|vs|vs|vs]; cbn; eauto;
    unfold Must, SetValue, ListValue;
    (rewrite elements_have_type_intro;
     [cbn; eauto
     |intros v Hv; apply list_elem_of_fmap in Hv as (x & -> & _); done]).
Qed.

(** ** [SchemaByPath] *)

Lemma strings_Split_nonempty (s : string) (sep : ascii) :
  strings_Split s sep <> [].
Proof.
  destruct s as [|c s]; [done|]. cbn.
  destruct (bool_decide (c = sep)); [done|].
  by destruct (strings_Split s sep).
Qed.

Lemma strings_Split_app (a b : string) (sep : ascii) :
  strings_Split (a +:+ String sep b) sep
  = strings_Split a sep ++ strings_Split b sep.
Proof.
  induction a as [|c a IH].
  - change (strings_Split (String sep b) sep
            = [EmptyString] ++ strings_Split b sep).
    cbn [strings_Split]. by rewrite bool_decide_eq_true_2.
  - change (strings_Split (String c (a +:+ String sep b)) sep
            = strings_Split (String c a) sep ++ strings_Split b sep).
    cbn [strings_Split]. destruct (bool_decide (c = sep)).
    + by rewrite IH.
    + rewrite IH.
      pose proof (strings_Split_nonempty a sep) as Hne.
      by destruct (strings_Split a sep).
Qed.

Lemma strings_Split_no_separator (s : string) (sep : ascii) :
  sep ∉ list_ascii_of_string s -> strings_Split s sep = [s].
Proof.
  induction s as [|c s IH]; intros Hsep; [done|].
  cbn in *. rewrite bool_decide_eq_false_2 by set_solver.
  rewrite IH by set_solver. done.
Qed.

Section SchemaByPathProperties.
Variable ToSnake : string -> string.
Variable strconv_Quote : string -> string.
Variable type_name : option GoValue -> string.

Let step (current : result (option GoValue)) (key : string) :=
      let* current := current in
      schemaByKey ToSnake strconv_Quote type_name current key.

Lemma schema_steps_not_Ok (r : result (option GoValue)) keys :
  (forall c, r <> Ok c) -> foldl step r keys = r.
Proof.
  intros Hr. induction keys as [|k keys IH]; [done|].
  cbn. destruct r; [by destruct (Hr a)|..]; cbn; exact IH.
Qed.

(** X10. A dotted path is followed key by key: the lookup of [a.b] is
    the lookup of [b] in what the lookup of [a] returns, and it fails
    with the failure of [a] when that fails; a path without dot is a
    single key. *)
Theorem SchemaByPath_follows_keys (schema : option GoValue)
    (a b : string) :
  SchemaByPath ToSnake strconv_Quote type_name schema (a +:+ "." +:+ b)
  = (let* found := SchemaByPath ToSnake strconv_Quote type_name schema a in
     SchemaByPath ToSnake strconv_Quote type_name found b)
  /\ ("."%char ∉ list_ascii_of_string a ->
      SchemaByPath ToSnake strconv_Quote type_name schema a
      = schemaByKey ToSnake strconv_Quote type_name schema a).
Proof.
  unfold SchemaByPath. split.
  - change (a +:+ "." +:+ b) with (a +:+ String "."%char b).
    rewrite strings_Split_app, foldl_app. fold step.
    destruct (foldl step (Ok schema) (strings_Split a ".")) as [c| | |] eqn:Ha;
      cbn [rbind]; [done|..]; by apply schema_steps_not_Ok.
  - intros Hdot. by rewrite strings_Split_no_separator.
Qed.

Lemma fieldByWireName_none key current fields (values : list GoValue) :
  length fields = length values ->
  (forall f, f ∈ fields -> resolveFieldName ToSnake f.1 <> key) ->
  fieldByWireName ToSnake key current fields values = Ok current.
Proof.
  revert fields. induction values as [|x values IH];
    intros [|f fields] Hlen Hnone; try done.
  cbn. rewrite bool_decide_eq_false_2 by (apply Hnone; set_solver).
  apply IH; [by injection Hlen|]. intros f' Hf'. apply Hnone. set_solver.
Qed.

Lemma fieldByWireName_first key current fields (values : list GoValue)
    (i : nat) f x :
  fields !! i = Some f -> values !! i = Some x ->
  resolveFieldName ToSnake f.1 = key ->
  (forall (j : nat) f', (j < i)%nat -> fields !! j = Some f' ->
                        resolveFieldName ToSnake f'.1 <> key) ->
  fieldByWireName ToSnake key current fields values = Ok (Interface x).
Proof.
  revert fields values.
  induction i as [|i IH]; intros [|f0 fields] [|x0 values] Hf Hx Hkey Hfirst;
    try done.
  - cbn in *. injection Hf as ->. injection Hx as ->.
    by rewrite bool_decide_eq_true_2.
  - cbn in *.
    rewrite bool_decide_eq_false_2 by (apply (Hfirst 0%nat); [lia|done]).
    apply IH; try done.
    intros j f' Hj Hf'. apply (Hfirst (S j)); [lia|done].
Qed.


End SchemaByPathProperties.


(** ** Field resolution *)

Lemma GoType_eqb_eq (a b : GoType) : GoType_eqb a b = true -> a = b.
Proof.
  revert a b. fix IH 1.
  intros [k|e|e|n e|k e|fs| |e|] [k'|e'|e'|n' e'|k' e'|fs'| |e'|]; cbn;
    try done; intros H.
  - apply bool_decide_eq_true in H. by subst.
  - by rewrite (IH _ _ H).
  - by rewrite (IH _ _ H).
  - apply andb_true_iff in H as [Hn He].
    apply bool_decide_eq_true in Hn. subst. by rewrite (IH _ _ He).
  - apply andb_true_iff in H as [Hk He].
    by rewrite (IH _ _ Hk), (IH _ _ He).
  - f_equal. revert fs' H.
    induction fs as [|[i t] fs IHfs]; intros [|[i' t'] fs'] H; try done.
    apply andb_true_iff in H as [H Hfs].
    apply andb_true_iff in H as [Hi Ht].
    apply bool_decide_eq_true in Hi. subst.
    by rewrite (IH _ _ Ht), (IHfs _ Hfs).
  - by rewrite (IH _ _ H).
Qed.

Lemma GoValue_record_ind (P : GoValue -> Prop) :
  (forall fs, Forall (fun f : FieldInfo * GoValue => P f.2) fs ->
              P (GStruct fs)) ->
  (forall e x, P x -> P (GPointer e (Some x))) ->
  (forall v, (forall fs, v <> GStruct fs) ->
             (forall e x, v <> GPointer e (Some x)) -> P v) ->
  forall v, P v.
Proof.
  intros Hstruct Hpointer Hother. fix IH 1.
  intros [b|k z|k z|k z|s|e [x|]|e l|e l|e m|fs|d|e c|k z];
    try (apply Hother; intros; discriminate).
  - apply Hpointer, IH.
  - apply Hstruct. induction fs as [|[i x] fs IHfs]; constructor.
    + apply IH.
    + exact IHfs.
Qed.

Lemma GoTypeOf_struct (fs : list (FieldInfo * GoValue)) :
  GoTypeOf (GStruct fs) = TStruct ((fun f => (f.1, GoTypeOf f.2)) <$> fs).
Proof.
  cbn. f_equal. induction fs as [|[i x] fs IH]; [done|]. cbn. by rewrite IH.
Qed.

Lemma resolveFieldsValueSquashed_cons info field rest :
  resolveFieldsValueSquashed (GStruct ((info, field) :: rest))
  = if is_squash info then
      let* nestedFields := resolveFieldsValueSquashed field in
      let* fields := resolveFieldsValueSquashed (GStruct rest) in
      Ok (nestedFields ++ fields)
    else if is_ignored info then resolveFieldsValueSquashed (GStruct rest)
    else if is_unexported info then resolveFieldsValueSquashed (GStruct rest)
    else
      let* fields := resolveFieldsValueSquashed (GStruct rest) in
      Ok (field :: fields).
Proof. reflexivity. Qed.

Lemma resolveFieldsSquashed_cons info ft rest :
  resolveFieldsSquashed (TStruct ((info, ft) :: rest))
  = if is_squash info then
      let* nestedFields := resolveFieldsSquashed ft in
      let* fields := resolveFieldsSquashed (TStruct rest) in
      Ok (nestedFields ++ fields)
    else if is_ignored info then resolveFieldsSquashed (TStruct rest)
    else if is_unexported info then resolveFieldsSquashed (TStruct rest)
    else
      let* fields := resolveFieldsSquashed (TStruct rest) in
      Ok ((info, ft) :: fields).
Proof. reflexivity. Qed.

Lemma well_typed_struct_cons info field rest :
  well_typed (GStruct ((info, field) :: rest))
  = well_typed field && well_typed (GStruct rest).
Proof. reflexivity. Qed.

Lemma resolved_fields_side_by_side (value : GoValue) :
  forall values,
    well_typed value = true ->
    resolveFieldsValueSquashed value = Ok values ->
    exists fields,
      resolveFieldsSquashed (GoTypeOf value) = Ok fields
      /\ fields.*2 = GoTypeOf <$> values.
Proof.
  induction value as [fs IHfs|e x IHx|v Hstruct Hpointer]
    using GoValue_record_ind; intros values Htyped Hvalues.
  - revert values Htyped Hvalues.
    induction IHfs as [|[info field] rest Hfield _ IHrest];
      intros values Htyped Hvalues.
    + injection Hvalues as <-. by exists [].
    + rewrite well_typed_struct_cons in Htyped.
      apply andb_true_iff in Htyped as [Htf Htr].
      rewrite resolveFieldsValueSquashed_cons in Hvalues.
      rewrite GoTypeOf_struct, fmap_cons.
      cbn [fst snd] in *. rewrite resolveFieldsSquashed_cons.
      rewrite GoTypeOf_struct in IHrest.
      destruct (is_squash info).
      * apply rbind_Ok in Hvalues as (nested & Hnested & Hvalues).
        apply rbind_Ok in Hvalues as (others & Hothers & Hvalues).
        injection Hvalues as <-.
        destruct (Hfield _ Htf Hnested) as (nf & -> & Hnf).
        destruct (IHrest _ Htr Hothers) as (rf & -> & Hofs).
        cbn [rbind].
        exists (nf ++ rf). split; [done|].
        by rewrite !fmap_app, Hnf, Hofs.
      * destruct (is_ignored info); [by apply IHrest|].
        destruct (is_unexported info); [by apply IHrest|].
        apply rbind_Ok in Hvalues as (others & Hothers & Hvalues).
        injection Hvalues as <-.
        destruct (IHrest _ Htr Hothers) as (rf & -> & Hofs).
        cbn [rbind].
        exists ((info, GoTypeOf field) :: rf). split; [done|].
        cbn. by rewrite Hofs.
  - destruct x as [| | | | | | | | |fs| | |]; try discriminate.
    cbn [well_typed] in Htyped. apply andb_true_iff in Htyped as [He Hx].
    apply GoType_eqb_eq in He. subst e.
    destruct (IHx values Hx Hvalues) as (fields & Hfields & Hsnd).
    exists fields. split; [|done].
    rewrite GoTypeOf_struct in Hfields.
    change (GoTypeOf (GPointer (GoTypeOf (GStruct fs)) (Some (GStruct fs))))
      with (TPointer (GoTypeOf (GStruct fs))).
    rewrite GoTypeOf_struct. exact Hfields.
  - destruct v; try discriminate.
    + destruct target as [x|]; [by destruct (Hpointer elem x)|discriminate].
    + by destruct (Hstruct fields).
Qed.

Lemma GoType_record_ind (P : GoType -> Prop) :
  (forall fs, Forall (fun f : StructField => P f.2) fs -> P (TStruct fs)) ->
  (forall e, P e -> P (TPointer e)) ->
  (forall t, (forall fs, t <> TStruct fs) -> (forall e, t <> TPointer e) ->
             P t) ->
  forall t, P t.
Proof.
  intros Hstruct Hpointer Hother. fix IH 1.
  intros [k|e|e|n e|k e|fs| |e|]; try (apply Hother; intros; discriminate).
  - apply Hpointer, IH.
  - apply Hstruct. induction fs as [|[i t] fs IHfs]; constructor.
    + apply IH.
    + exact IHfs.
Qed.

Lemma resolved_fields_exported (schema : GoType) :
  forall fields,
    resolveFieldsSquashed schema = Ok fields ->
    forall f, f ∈ fields ->
              is_squash f.1 = false /\ is_ignored f.1 = false
              /\ is_unexported f.1 = false.
Proof.
  induction schema as [fs IHfs|e IHe|t Hstruct Hpointer]
    using GoType_record_ind; intros fields Hfields.
  - revert fields Hfields.
    induction IHfs as [|[info ft] rest Hfield _ IHrest]; intros fields Hfields.
    + injection Hfields as <-. intros f Hf. by apply elem_of_nil in Hf.
    + rewrite resolveFieldsSquashed_cons in Hfields.
      destruct (is_squash info) eqn:Hsq.
      * apply rbind_Ok in Hfields as (nested & Hnested & Hfields).
        apply rbind_Ok in Hfields as (others & Hothers & Hfields).
        injection Hfields as <-. intros f Hf.
        apply elem_of_app in Hf as [Hf|Hf]; [by eapply Hfield|by eapply IHrest].
      * destruct (is_ignored info) eqn:Hig; [by apply IHrest|].
        destruct (is_unexported info) eqn:Hun; [by apply IHrest|].
        apply rbind_Ok in Hfields as (others & Hothers & Hfields).
        injection Hfields as <-. intros f Hf.
        apply elem_of_cons in Hf as [->|Hf]; [done|by eapply IHrest].
  - destruct e as [| | | | |fs| | |]; try discriminate.
    by apply IHe.
  - destruct t; try discriminate.
    + by destruct (Hpointer t).
    + by destruct (Hstruct fields0).
Qed.

(** X12. The two flattenings go side by side.  When the flattened values
    of a well-typed record resolve, so do the flattened fields of its
    type, to as many fields, and the value at each position has the type
    of the field at that position; every flattened field is exported,
    not ignored and not itself a squashed field.  So the loops that index
    one list with the positions of the other stay in range. *)
Theorem flattened_fields_match_values (value : GoValue)
    (values : list GoValue) :
  well_typed value = true ->
  resolveFieldsValueSquashed value = Ok values ->
  exists fields,
    resolveFieldsSquashed (GoTypeOf value) = Ok fields
    /\ length fields = length values
    /\ (forall (i : nat) f x,
          fields !! i = Some f -> values !! i = Some x -> GoTypeOf x = f.2)
    /\ (forall f, f ∈ fields ->
                  PkgPath f.1 = EmptyString
                  /\ TagGet f.1 "mapstructure" <> "-"
                  /\ TagGet f.1 "mapstructure" <> ",squash")
    /\ zip_fields fields values = Ok (zip fields values).
Proof.
  intros Htyped Hvalues.
  destruct (resolved_fields_side_by_side value values Htyped Hvalues)
    as (fields & Hfields & Htypes).
  assert (length fields = length values) as Hlen.
  { by rewrite <- (length_fmap snd), Htypes, length_fmap. }
  exists fields. split; [done|]. split; [done|]. split; [|split].
  - intros i f x Hf Hx.
    assert ((fields.*2) !! i = Some f.2) as Hi
        by (by rewrite list_lookup_fmap, Hf).
    rewrite Htypes, list_lookup_fmap, Hx in Hi. by injection Hi.
  - intros f Hf.
    destruct (resolved_fields_exported _ _ Hfields f Hf) as (Hsq & Hig & Hun).
    unfold is_squash, is_ignored, is_unexported in *.
    apply bool_decide_eq_false in Hsq. apply bool_decide_eq_false in Hig.
    apply negb_false_iff, bool_decide_eq_true in Hun. done.
  - unfold zip_fields. by rewrite bool_decide_eq_true_2.
Qed.

Lemma flattened_fields_match_values_witness :
  exists fields,
    resolveFieldsSquashed (GoTypeOf audited_server) = Ok fields
    /\ length fields = 2%nat
    /\ (forall (i : nat) f x,
          fields !! i = Some f ->
          [GString "db1"; GString "ops"] !! i = Some x -> GoTypeOf x = f.2)
    /\ (forall f, f ∈ fields ->
                  PkgPath f.1 = EmptyString
                  /\ TagGet f.1 "mapstructure" <> "-"
                  /\ TagGet f.1 "mapstructure" <> ",squash")
    /\ zip_fields fields [GString "db1"; GString "ops"]
       = Ok (zip fields [GString "db1"; GString "ops"]).
Proof.
  apply (flattened_fields_match_values audited_server
           [GString "db1"; GString "ops"]); reflexivity.
Defined.

Lemma findFieldByType_cons field ft rest name :
  findFieldByType (TStruct ((field, ft) :: rest)) name
  = if is_unexported field && negb (Anonymous field)
    then findFieldByType (TStruct rest) name
    else if bool_decide (lookup_name field = name) then Some (field, ft)
    else if is_squash field then
      match ft with
      | TStruct _ => findFieldByType ft name
      | _ => None
      end
    else findFieldByType (TStruct rest) name.
Proof. reflexivity. Qed.

Lemma findFieldByType_sound (schemaType : GoType) :
  forall name f ft,
    findFieldByType schemaType name = Some (f, ft) ->
    lookup_name f = name
    /\ (is_unexported f = false \/ Anonymous f = true).
Proof.
  induction schemaType as [fs IHfs|e IHe|t Hstruct Hpointer]
    using GoType_record_ind; intros name f ft Hfound.
  - revert Hfound.
    induction IHfs as [|[field fty] rest Hfield _ IHrest]; intros Hfound;
      [done|].
    rewrite findFieldByType_cons in Hfound.
    destruct (is_unexported field && negb (Anonymous field)) eqn:Hskip;
      [by apply IHrest|].
    destruct (bool_decide (lookup_name field = name)) eqn:Hname.
    + injection Hfound as -> ->. apply bool_decide_eq_true in Hname.
      split; [done|].
      destruct (is_unexported f); [|by left].
      destruct (Anonymous f); [by right|done].
    + destruct (is_squash field); [|by apply IHrest].
      destruct fty; try done. by eapply Hfield.
  - done.
  - destruct t; try done. by destruct (Hstruct fields).
Qed.

Lemma findFieldByType_passes pre field ft post name :
  (forall f, f ∈ pre ->
             (is_unexported f.1 && negb (Anonymous f.1) = true)
             \/ (lookup_name f.1 <> name /\ is_squash f.1 = false)) ->
  findFieldByType (TStruct (pre ++ (field, ft) :: post)) name
  = findFieldByType (TStruct ((field, ft) :: post)) name.
Proof.
  induction pre as [|[f0 t0] pre IH]; intros Hpre; [done|].
  rewrite <- app_comm_cons, findFieldByType_cons.
  assert (findFieldByType (TStruct (pre ++ (field, ft) :: post)) name
          = findFieldByType (TStruct ((field, ft) :: post)) name) as ->.
  { apply IH. intros f Hf. apply Hpre. set_solver. }
  destruct (Hpre (f0, t0)) as [Hskip|[Hname Hsq]]; [set_solver| |];
    cbn [fst] in *.
  - by rewrite Hskip.
  - rewrite Hsq, bool_decide_eq_false_2 by done.
    by destruct (_ && _).
Qed.

(** X13. The field [findFieldByName] returns goes by the name asked for
    (in its [mapstructure] tag, else its [json] tag, else its identifier,
    up to the first comma) and is exported or embedded; no field is
    returned for the empty name or a nil prototype.  The search does not
    go on behind a squashed field: when it reaches one, the answer is the
    answer of the squashed struct alone, so a field that stands after it
    is never found. *)
Theorem findFieldByName_stops_at_squash :
  (forall prototype name f ft,
      findFieldByName prototype name = Some (f, ft) ->
      name <> EmptyString
      /\ lookup_name f = name
      /\ (PkgPath f = EmptyString \/ Anonymous f = true))
  /\ (forall name, findFieldByName None name = None)
  /\ (forall pre squashed inner post name,
        name <> EmptyString ->
        is_squash squashed = true ->
        is_unexported squashed && negb (Anonymous squashed) = false ->
        (forall f, f ∈ pre ->
                   (is_unexported f.1 && negb (Anonymous f.1) = true)
                   \/ (lookup_name f.1 <> name /\ is_squash f.1 = false)) ->
        findFieldByName
          (Some (TStruct (pre ++ (squashed, TStruct inner) :: post))) name
        = findFieldByName (Some (TStruct inner)) name).
Proof.
  split; [|split].
  - intros prototype name f ft Hfound. unfold findFieldByName in Hfound.
    destruct prototype as [schemaType|]; [|done].
    destruct (bool_decide (name = EmptyString)) eqn:Hname; [done|].
    apply bool_decide_eq_false in Hname. split; [done|].
    apply findFieldByType_sound in Hfound as [Hf Hexp]. split; [done|].
    destruct Hexp as [Hexp|Hexp]; [left|by right].
    unfold is_unexported in Hexp.
    by apply negb_false_iff, bool_decide_eq_true in Hexp.
  - done.
  - intros pre squashed inner post name Hname Hsq Hvisible Hpre.
    unfold findFieldByName. rewrite bool_decide_eq_false_2 by done.
    rewrite findFieldByType_passes by done.
    rewrite findFieldByType_cons, Hvisible, Hsq.
    rewrite bool_decide_eq_false_2; [done|].
    unfold lookup_name. unfold is_squash in Hsq.
    apply bool_decide_eq_true in Hsq. rewrite Hsq.
    rewrite (bool_decide_eq_false_2 (",squash" = EmptyString)) by done.
    rewrite (bool_decide_eq_false_2 (",squash" = EmptyString)) by done.
    assert (before_comma ",squash" = EmptyString) as ->
        by (vm_compute; reflexivity).
    congruence.
Qed.

Example zone_behind_squash_not_found :
  findFieldByName (Some audited_server_type) "zone" = None
  /\ findFieldByName (Some audited_server_type) "owner"
     = Some (tagged_field "Owner" "owner", TBasic reflect.String).
Proof. split; vm_compute; reflexivity. Qed.

(** ** Decode *)

Lemma objectToMap_scalars_total json_Unmarshal obj prototype :
  IsNull obj = false -> IsUnknown obj = false ->
  (forall k v, Attributes obj !! k = Some v -> scalar_attr v = true) ->
  exists m, objectToMap json_Unmarshal obj prototype = Ok m.
Proof.
  intros Hnull Hunk Hscalar.
  unfold objectToMap, objectToMap_with. rewrite Hnull, Hunk. cbn [orb].
  destruct obj; cbn [Attributes] in *; eauto.
  apply objectToMap_fold_total.
  intros k v res Hk. specialize (Hscalar k v Hk).
  unfold objectToMapEntry.
  destruct (IsNull v); [eauto|]. destruct (IsUnknown v); [eauto|].
  destruct (attrToInterface_scalar json_Unmarshal k v prototype Hscalar)
    as [goVal ->]. cbn.
  repeat (match goal with
          | |- context [match ?x with _ => _ end] => destruct x
          | |- context [if ?b then _ else _] => destruct b
          end; eauto).
Qed.

(** X14. In a mapping [objectToMap] returns, an attribute that is null
    is entered as nil, an unknown attribute is left out, and nothing is
    entered under a name the object does not have.  For a field of pointer
    type a decoded string, integer or boolean is entered behind a new
    pointer whatever its value: the empty string and zero survive there. *)
Theorem objectToMap_null_unknown_pointer
    (json_Unmarshal : string -> result (option GoValue))
    (obj : Value) (prototype : option GoType)
    (m : gmap string GoValue) :
  objectToMap json_Unmarshal obj prototype = Ok m ->
  IsNull obj = false /\ IsUnknown obj = false
  /\ (forall key, Attributes obj !! key = None -> m !! key = None)
  /\ (forall key val,
        Attributes obj !! key = Some val ->
        (IsNull val = true -> m !! key = Some (GInterface None))
        /\ (IsNull val = false -> IsUnknown val = true -> m !! key = None)
        /\ (forall f ft,
              findFieldByName prototype key = Some (f, ft) ->
              KindOf ft = reflect.Pointer ->
              let behind_pointer v :=
                Some (GInterface (Some (GPointer (GoTypeOf v) (Some v)))) in
              (forall s, val = StringValue s ->
                         m !! key = behind_pointer (GString s))
              /\ (forall z, val = Int64Value z ->
                            m !! key = behind_pointer (GInt reflect.Int64 z))
              /\ (forall b, val = BoolValue b ->
                            m !! key = behind_pointer (GBool b)))).
Proof.
  unfold objectToMap, objectToMap_with. intros Hm.
  destruct (IsNull obj) eqn:Hnull; [done|].
  destruct (IsUnknown obj) eqn:Hunk; [done|]. cbn [orb] in Hm.
  split; [done|]. split; [done|].
  destruct obj; cbn [Attributes];
    try (injection Hm as <-; split; [done|];
         intros key val Hkey; by rewrite lookup_empty in Hkey).
  apply objectToMap_fold in Hm as [Hnone Hsome].
  split; [exact Hnone|].
  intros key val Hattr.
  destruct (Hsome key val Hattr) as (res0 & res1 & H0 & Hstep & ->).
  unfold objectToMapEntry in Hstep.
  split; [|split].
  - intros Hv. rewrite Hv in Hstep. injection Hstep as <-.
    by rewrite lookup_insert_eq.
  - intros Hv Hu. rewrite Hv, Hu in Hstep. by injection Hstep as <-.
  - intros f ft Hfield Hkind. cbn zeta.
    rewrite Hfield, Hkind in Hstep.
    rewrite (bool_decide_eq_true_2 (reflect.Pointer = reflect.Pointer))
      in Hstep by done.
    split; [|split]; intros x ->; cbn in Hstep; injection Hstep as <-;
      by rewrite lookup_insert_eq.
Qed.

Lemma objectToMap_null_unknown_pointer_witness :
  exists m,
    objectToMap (fun _ => Ok None) optional_plan (Some optional_type) = Ok m
    /\ m !! "name"
       = Some (GInterface
                 (Some (GPointer (TBasic reflect.String)
                          (Some (GString EmptyString)))))
    /\ m !! "size" = Some (GInterface None)
    /\ m !! "note" = None.
Proof.
  destruct (objectToMap_scalars_total (fun _ => Ok None) optional_plan
              (Some optional_type) eq_refl eq_refl) as [m Hm].
  { intros k v Hk. unfold optional_plan in Hk. cbn [Attributes] in Hk.
    apply lookup_insert_Some in Hk as [[_ <-]|[_ Hk]]; [reflexivity|].
    apply lookup_insert_Some in Hk as [[_ <-]|[_ Hk]]; [reflexivity|].
    apply lookup_singleton_Some in Hk as [_ <-]. reflexivity. }
  exists m. split; [exact Hm|].
  destruct (objectToMap_null_unknown_pointer (fun _ => Ok None)
              optional_plan (Some optional_type) m Hm) as (_ & _ & _ & H).
  destruct (H "name" (StringValue EmptyString) eq_refl) as (_ & _ & Hname).
  destruct (H "size" Int64Null eq_refl) as (Hsize & _ & _).
  destruct (H "note" (VString ValueStateUnknown EmptyString) eq_refl)
    as (_ & Hnote & _).
  split; [|split].
  - destruct (Hname (tagged_field "Name" "name")
                (TPointer (TBasic reflect.String)) eq_refl eq_refl)
      as (Hs & _ & _).
    exact (Hs EmptyString eq_refl).
  - exact (Hsize eq_refl).
  - exact (Hnote eq_refl eq_refl).
Defined.

Lemma attrToInterface_decoded_scalar json_Unmarshal key val prototype :
  scalar_attr val = true ->
  attrToInterface json_Unmarshal key val prototype = Ok (decoded_scalar val).
Proof.
  unfold attrToInterface, decoded_scalar, skip.
  destruct val; try discriminate; intros _; cbn;
    by destruct (_ || _).
Qed.

Lemma listToInterface_scalars json_Unmarshal elemPrototype elems :
  Forall (fun e => scalar_attr e = true) elems ->
  listToInterface
    (fun k v p => attrToInterface_val json_Unmarshal v k p)
    elemPrototype elems
  = Ok ((fun e => GInterface (decoded_scalar e)) <$> elems).
Proof.
  induction 1 as [|e elems He _ IH]; [done|].
  change (listToInterface
            (fun k v p => attrToInterface_val json_Unmarshal v k p)
            elemPrototype (e :: elems))
    with (let* converted :=
            attrToInterface json_Unmarshal EmptyString e elemPrototype in
          let* list :=
            listToInterface
              (fun k v p => attrToInterface_val json_Unmarshal v k p)
              elemPrototype elems in
          Ok (GInterface converted :: list)).
  by rewrite IH, (attrToInterface_decoded_scalar _ _ _ _ He).
Qed.

Lemma attrToInterface_list_of_scalars json_Unmarshal key t elems prototype :
  Forall (fun e => scalar_attr e = true) elems ->
  attrToInterface json_Unmarshal key (VList t ValueStateKnown elems) prototype
  = Ok (Some (interface_slice
                ((fun e => GInterface (decoded_scalar e)) <$> elems))).
Proof.
  intros Hscalars. unfold attrToInterface. cbn.
  by rewrite (listToInterface_scalars json_Unmarshal _ elems Hscalars).
Qed.

(** X15. A resolved list, set or tuple of strings, integers, booleans
    and floats always decodes, to a slice with one entry per element in
    the order of the elements: a null or unknown element becomes a nil
    entry and a zero or empty element is kept, unlike a zero attribute of
    an object. *)
Theorem attrToInterface_keeps_elements
    (json_Unmarshal : string -> result (option GoValue))
    (key : string) (val : Value) (prototype : option GoType)
    (elems : list Value) :
  (exists t, val = VList t ValueStateKnown elems)
  \/ (exists t, val = VSet t ValueStateKnown elems)
  \/ (exists ts, val = VTuple ts ValueStateKnown elems) ->
  Forall (fun e => scalar_attr e = true) elems ->
  attrToInterface json_Unmarshal key val prototype
  = Ok (Some (interface_slice
                ((fun e => GInterface (decoded_scalar e)) <$> elems))).
Proof.
  intros [[t ->]|[[t ->]|[ts ->]]] Hscalars;
    unfold attrToInterface; cbn;
    rewrite (listToInterface_scalars json_Unmarshal _ elems Hscalars);
    done.
Qed.

Lemma attrToInterface_keeps_elements_witness :
  attrToInterface (fun _ => Ok None) "names"
    (VList StringType ValueStateKnown sample_names) None
  = Ok (Some (interface_slice
                [ GInterface (Some (GString "a")); GInterface None;
                  GInterface (Some (GString EmptyString)) ])).
Proof.
  apply (attrToInterface_keeps_elements (fun _ => Ok None) "names"
           (VList StringType ValueStateKnown sample_names) None sample_names).
  - left. by exists StringType.
  - repeat constructor.
Defined.

(** ** Encode and decode together *)

Section RoundTrip.
Variable ToSnake : string -> string.
Variable json_Marshal : option GoValue -> result string.
Variable json_Unmarshal : string -> result (option GoValue).

Let encode := interfaceTypeToAttr ToSnake json_Marshal.
Let returns := round_trip ToSnake json_Marshal json_Unmarshal.

Lemma encodeElements_strings fuel (l : list string) :
  encodeElements (encode (S fuel)) StringType (GString <$> l)
  = (Ok (StringValue <$> l), []).
Proof.
  induction l as [|s l IH]; [done|].
  change (encodeElements (encode (S fuel)) StringType (GString <$> s :: l))
    with (let+ elemAttr := lret (StringValue s) in
          let+ elems :=
            encodeElements (encode (S fuel)) StringType (GString <$> l) in
          lret (elemAttr :: elems)).
  by rewrite IH.
Qed.

End RoundTrip.

(** ** What [StructToStateObject] emits for a field *)

Section EncodeFieldValues.
Variable ToSnake : string -> string.
Variable json_Marshal : option GoValue -> result string.
Variables (fuel : nat) (schemaAttrs : gmap string AttrType).

Let step := encodeStateField ToSnake json_Marshal fuel schemaAttrs.
Let wire_name (fv : StructField * GoValue) :=
      resolveFieldName ToSnake fv.1.1.

Lemma encodeFields_last pairs acc l0 m log :
  foldl step (Ok acc, l0) pairs = (Ok m, log) ->
  forall (i : nat) fv t,
    pairs !! i = Some fv ->
    schemaAttrs !! wire_name fv = Some t ->
    (forall (j : nat) fv', (i < j)%nat -> pairs !! j = Some fv' ->
                           wire_name fv' <> wire_name fv) ->
    exists a l,
      interfaceTypeToAttr ToSnake json_Marshal fuel (Interface fv.2) t
      = (Ok a, l)
      /\ m !! wire_name fv = Some a.
Proof.
  revert m log. induction pairs as [|x pairs IH] using rev_ind;
    intros m log Hfold i fv t Hi Ht Hlater; [done|].
  rewrite foldl_app in Hfold. cbn in Hfold.
  destruct (foldl step (Ok acc, l0) pairs) as [r1 l1] eqn:H1.
  unfold step, encodeStateField in Hfold.
  apply lbind_Ok in Hfold as (m1 & l & l' & [= -> ->] & Hbody & ->).
  fold (wire_name x) in Hbody.
  destruct (decide (i < length pairs)%nat) as [Hlt|Hge].
  - rewrite lookup_app_l in Hi by done.
    destruct (IH m1 l eq_refl i fv t Hi Ht) as (a & la & Henc & Hm1).
    { intros j fv' Hij Hj. apply (Hlater j fv' Hij).
      rewrite lookup_app_l; [done|]. by eapply lookup_lt_Some. }
    exists a, la. split; [done|].
    assert (wire_name x <> wire_name fv) as Hne.
    { apply (Hlater (length pairs) x Hlt).
      rewrite lookup_app_r by lia. by rewrite Nat.sub_diag. }
    destruct (schemaAttrs !! wire_name x).
    + apply lbind_Ok in Hbody as (v & ? & ? & _ & [= <- <-] & _).
      by rewrite lookup_insert_ne.
    + cbn in Hbody. by injection Hbody as <- <-.
  - assert (i = length pairs) as ->.
    { apply lookup_lt_Some in Hi. rewrite length_app in Hi. cbn in Hi. lia. }
    rewrite lookup_app_r in Hi by lia.
    rewrite Nat.sub_diag in Hi. injection Hi as ->.
    rewrite Ht in Hbody.
    apply lbind_Ok in Hbody as (v & la & lb & Henc & [= <- <-] & _).
    destruct (interfaceTypeToAttr _ _ _ _ _) as [r lr].
    injection Henc as Hr ->. apply wrap_error_Ok in Hr as ->.
    exists v, la. split; [done|]. by rewrite lookup_insert_eq.
Qed.
End EncodeFieldValues.



(** ** The schema that is derived *)

Section SchemaOptions.
Variable ToSnake : string -> string.
Variables (setAsComputed : bool)
          (sensitiveAttrs extraRequiredAttrs computedAsSetAttrs : list string).
Variable nestedAttrs : GoType -> result (gmap string SchemaAttribute).
Variable fuel : nat.

Lemma options_coherent desc isRequired key :
  coherent_options setAsComputed sensitiveAttrs key
    (options setAsComputed desc isRequired
       (slices_Contains sensitiveAttrs key)).
Proof.
  unfold coherent_options, options.
  destruct setAsComputed; cbn; destruct isRequired; cbn; repeat split; done.
Qed.

Lemma withDefault_coherent key o d :
  coherent_options false sensitiveAttrs key o ->
  coherent_options false sensitiveAttrs key (withDefault d o).
Proof.
  unfold coherent_options. intros (Hs & Hr & Hreq & Hdef & _).
  cbn. repeat split; done.
Qed.

Lemma withValidator_coherent key o v :
  coherent_options false sensitiveAttrs key o ->
  coherent_options false sensitiveAttrs key (withValidator v o).
Proof.
  unfold coherent_options. intros (Hs & Hr & Hreq & Hdef & _).
  cbn. repeat split; try done; by apply Hreq.
Qed.

Lemma forceNewOptions_coherent key o isForceNew :
  coherent_options false sensitiveAttrs key o ->
  coherent_options false sensitiveAttrs key (forceNewOptions isForceNew o).
Proof.
  unfold coherent_options, forceNewOptions.
  intros (Hs & Hr & Hreq & Hdef & _).
  destruct isForceNew; cbn; repeat split; try done; by apply Hreq.
Qed.

Lemma fieldAttribute_coherent field a :
  fieldAttribute ToSnake setAsComputed sensitiveAttrs extraRequiredAttrs
    computedAsSetAttrs nestedAttrs fuel field = Ok (Some a) ->
  coherent_options setAsComputed sensitiveAttrs
    (resolveFieldName ToSnake field.1) (options_of a).
Proof.
  unfold fieldAttribute. cbn zeta.
  set (key := resolveFieldName ToSnake field.1).
  set (isRequired := _ || _ || _).
  pose proof (options_coherent (TagGet field.1 "desc") isRequired key)
    as Hplain.
  set (plain := options setAsComputed _ _ _) in *.
  clearbody plain isRequired key.
  set (fieldType := match field.2 with TPointer e => e | _ => field.2 end).
  clearbody fieldType.
  unfold rbind. intros H.
  destruct setAsComputed;
    repeat case_match; try discriminate;
    injection H as <-; cbn [options_of];
    repeat first [ apply forceNewOptions_coherent
                 | apply withValidator_coherent
                 | apply withDefault_coherent ];
    exact Hplain.
Qed.

Let step :=
      setFieldAttribute ToSnake setAsComputed sensitiveAttrs
        extraRequiredAttrs computedAsSetAttrs nestedAttrs fuel.

Lemma schema_fold_coherent init fields schema :
  foldl step (Ok init) fields = Ok schema ->
  (forall key a, init !! key = Some a ->
                 coherent_options setAsComputed sensitiveAttrs key
                   (options_of a)) ->
  forall key a, schema !! key = Some a ->
                coherent_options setAsComputed sensitiveAttrs key
                  (options_of a).
Proof.
  revert schema. induction fields as [|x fields IH] using rev_ind;
    intros schema Hfold Hinit key a Hkey.
  - injection Hfold as <-. by apply Hinit.
  - rewrite foldl_app in Hfold. cbn in Hfold.
    apply setFieldAttribute_Ok in Hfold as (s0 & ox & Hs0 & Hx & ->).
    destruct ox as [ax|]; [|by eapply IH].
    destruct (decide (resolveFieldName ToSnake x.1 = key)) as [<-|Hne].
    + rewrite lookup_insert_eq in Hkey. injection Hkey as <-.
      by apply fieldAttribute_coherent.
    + rewrite lookup_insert_ne in Hkey by done. by eapply IH.
Qed.
End SchemaOptions.

(** X18. The flags of every attribute of a derived schema fit together:
    it is required or else optional, a required attribute is neither
    computed nor has a default, a default stands only on a computed
    attribute, and the attribute is sensitive exactly when its wire name
    is listed as sensitive; in a schema derived as computed every
    attribute is optional and computed, without default, validator or
    plan modifier. *)
Theorem derived_options_fit_together
    (ToSnake : string -> string) (fuel : nat) (modelType : GoType)
    (setAsComputed : bool)
    (sensitiveAttrs extraRequiredAttrs computedAsSetAttrs : list string)
    (schema : gmap string SchemaAttribute) :
  resourceSchemaAttrsFromStruct ToSnake fuel modelType setAsComputed
    sensitiveAttrs extraRequiredAttrs computedAsSetAttrs = Ok schema ->
  forall key a,
    schema !! key = Some a ->
    coherent_options setAsComputed sensitiveAttrs key (options_of a).
Proof.
  destruct fuel as [|fuel']; [done|].
  cbn [resourceSchemaAttrsFromStruct]. intros Hschema.
  apply rbind_Ok in Hschema as (fields & _ & Hfold).
  intros key a Hkey.
  eapply schema_fold_coherent; [exact Hfold| |exact Hkey].
  intros k b Hk. by rewrite lookup_empty in Hk.
Qed.

Lemma derived_options_fit_together_witness :
  coherent_options false [] "size"
    (withDefault (Some (Int64Default 10))
       (declaredOptions EmptyString true false)).
Proof.
  apply (derived_options_fit_together (fun s => s) 2 volume_model false
           [] [] [] volume_schema
           ltac:(vm_compute; reflexivity) "size"
           (Int64Attribute
              (withDefault (Some (Int64Default 10))
                 (declaredOptions EmptyString true false)))
           eq_refl).
Defined.

Lemma addMissing_lookup {A} (extra schemaAttrs : gmap string A)
    (key : string) :
  map_fold (fun key a (acc : gmap string A) =>
              match acc !! key with
              | Some _ => acc
              | None => <[key := a]> acc
              end) schemaAttrs extra !! key
  = match schemaAttrs !! key with
    | Some a => Some a
    | None => extra !! key
    end.
Proof.
  rewrite map_fold_local.
  - destruct (extra !! key) as [a|]; [|by destruct (schemaAttrs !! key)].
    destruct (schemaAttrs !! key) eqn:Hk; [by rewrite Hk|].
    by rewrite lookup_insert_eq.
  - intros k v acc k' Hne. destruct (acc !! k); [done|].
    by rewrite lookup_insert_ne.
  - intros k v acc acc' Hacc. rewrite <- Hacc.
    destruct (acc !! k) eqn:Hk; [by rewrite Hk|].
    by rewrite !lookup_insert_eq.
Qed.

(** X19. In the schema generated for a resource the attributes of the
    create model stand as derived; the update model, derived as
    computed, only adds the attributes the create model lacks, and the
    state model, derived as computed, those that both lack.  No attribute
    comes from elsewhere, and the generation fails only where one of the
    derivations does. *)
Theorem GenerateResourceSchema_create_model_first
    (ToSnake : string -> string) (fuel : nat) (createModel : GoType)
    (updateModel stateModel : option GoType)
    (sensitiveAttrs extraRequiredAttrs computedAsSetAttrs : list string) :
  let derive model computed :=
    resourceSchemaAttrsFromStruct ToSnake fuel model computed sensitiveAttrs
      extraRequiredAttrs computedAsSetAttrs in
  let derived (model : option GoType) :=
    match model with
    | Some model => derive model true
    | None => Ok ∅
    end in
  let generated :=
    GenerateResourceSchemaFromStruct ToSnake fuel createModel updateModel
      stateModel sensitiveAttrs extraRequiredAttrs computedAsSetAttrs in
  (forall schema,
      generated = Ok schema ->
      exists created updated stated,
        derive createModel false = Ok created
        /\ derived updateModel = Ok updated
        /\ derived stateModel = Ok stated
        /\ forall key,
             schema !! key =
               match created !! key with
               | Some a => Some a
               | None => match updated !! key with
                         | Some a => Some a
                         | None => stated !! key
                         end
               end)
  /\ (forall created updated stated,
        derive createModel false = Ok created ->
        derived updateModel = Ok updated ->
        derived stateModel = Ok stated ->
        exists schema, generated = Ok schema).
Proof.
  cbn zeta. unfold GenerateResourceSchemaFromStruct. split.
  - intros schema Hgen.
    apply rbind_Ok in Hgen as (created & Hcreated & Hgen).
    apply rbind_Ok in Hgen as (withUpdate & Hupdate & Hgen).
    exists created.
    destruct updateModel as [updateModel'|].
    + apply rbind_Ok in Hupdate as (updated & Hupdated & [= <-]).
      exists updated.
      destruct stateModel as [stateModel'|].
      * apply rbind_Ok in Hgen as (stated & Hstated & [= <-]).
        exists stated. repeat split; try done.
        intros key. rewrite !addMissing_lookup.
        by destruct (created !! key).
      * injection Hgen as <-. exists ∅. repeat split; try done.
        intros key. rewrite addMissing_lookup, lookup_empty.
        by destruct (created !! key), (updated !! key).
    + injection Hupdate as <-. exists ∅.
      destruct stateModel as [stateModel'|].
      * apply rbind_Ok in Hgen as (stated & Hstated & [= <-]).
        exists stated. repeat split; try done.
        intros key. rewrite addMissing_lookup, lookup_empty. done.
      * injection Hgen as <-. exists ∅. repeat split; try done.
        intros key. rewrite !lookup_empty. by destruct (created !! key).
  - intros created updated stated -> Hupdated Hstated. cbn [rbind].
    destruct updateModel; [rewrite Hupdated|]; cbn [rbind];
      (destruct stateModel; [rewrite Hstated|]); cbn [rbind]; eauto.
Qed.

Module DeepCopyFrame.
Import DeepCopy.

Section CopyFrame.
Variable copy : value -> heap -> result (value * heap).
Hypothesis copy_frame :
  forall v (h : heap) v' h', copy v h = Ok (v', h') -> h ⊆ h'.

Lemma copyElems_frame vs (h : heap) vs' h' :
  copyElems copy vs h = Ok (vs', h') -> h ⊆ h'.
Proof.
  revert h vs' h'. induction vs as [|x xs IH]; intros h vs' h' H.
  - by injection H as <- <-.
  - cbn in H. apply rbind_Ok in H as ([x' h1] & Hx & H).
    apply rbind_Ok in H as ([xs' h2] & Hxs & [= <- <-]). cbn in *.
    etrans; [by eapply copy_frame|by eapply IH].
Qed.

Lemma copyEntries_frame {K} (es : list (K * value)) (h : heap) es' h' :
  copyEntries copy es h = Ok (es', h') -> h ⊆ h'.
Proof.
  revert h es' h'. induction es as [|[k x] xs IH]; intros h es' h' H.
  - by injection H as <- <-.
  - cbn in H. apply rbind_Ok in H as ([x' h1] & Hx & H).
    apply rbind_Ok in H as ([xs' h2] & Hxs & [= <- <-]). cbn in *.
    etrans; [by eapply copy_frame|by eapply IH].
Qed.

Lemma copyFields_frame fs (h : heap) fs' h' :
  copyFields copy fs h = Ok (fs', h') ->
  h ⊆ h'
  /\ length fs' = length fs
  /\ forall (i : nat) info x,
       fs !! i = Some (info, x) ->
       exists x', fs' !! i = Some (info, x')
                  /\ (CanSet info = false -> x' = zero_like x).
Proof.
  revert h fs' h'. induction fs as [|[info0 x0] xs IH]; intros h fs' h' H.
  - injection H as <- <-. done.
  - cbn in H. destruct (CanSet info0) eqn:Hset; cbn [negb] in H.
    + apply rbind_Ok in H as ([x' h1] & Hx & H).
      apply rbind_Ok in H as ([xs' h2] & Hxs & [= <- <-]). cbn in *.
      destruct (IH _ _ _ Hxs) as (Hsub & Hlen & Hfields).
      split; [etrans; [by eapply copy_frame|done]|].
      split; [by rewrite Hlen|].
      intros [|i] info x Hi; cbn in *.
      * injection Hi as -> ->. exists x'. split; [done|congruence].
      * by apply Hfields.
    + apply rbind_Ok in H as ([xs' h2] & Hxs & [= <- <-]). cbn in *.
      destruct (IH _ _ _ Hxs) as (Hsub & Hlen & Hfields).
      split; [done|]. split; [by rewrite Hlen|].
      intros [|i] info x Hi; cbn in *.
      * injection Hi as -> ->. by exists (zero_like x).
      * by apply Hfields.
Qed.
End CopyFrame.

Lemma deepCopy_frame n v (h : heap) v' h' :
  deepCopy n v h = Ok (v', h') -> h ⊆ h'.
Proof.
  revert v h v' h'. induction n as [|n IH]; intros v h v' h' H; [done|].
  destruct v as [s|[l|]|[x|]|[[[l off] len]|]|elems|[l|]|fields|c|c];
    cbn -[alloc] in H; try (by injection H as <- <-).
  - destruct (h !! l) as [[x| |]|]; try done.
    apply rbind_Ok in H as ([x' h1] & Hx & H). cbn -[alloc] in H.
    destruct (alloc (CVal x') h1) as [l' h2] eqn:Ha. injection H as <- <-.
    destruct (DeepCopyProperties.alloc_fresh _ _ _ _ Ha) as (_ & _ & Hsub).
    etrans; [by eapply IH|done].
  - apply rbind_Ok in H as ([x' h1] & Hx & [= <- <-]). by eapply IH.
  - destruct (h !! l) as [[|es|]|]; try done.
    destruct (bool_decide _); [|done].
    apply rbind_Ok in H as ([vs' h1] & Hx & H). cbn -[alloc] in H.
    destruct (alloc (CArr vs') h1) as [l' h2] eqn:Ha. injection H as <- <-.
    destruct (DeepCopyProperties.alloc_fresh _ _ _ _ Ha) as (_ & _ & Hsub).
    etrans; [by eapply copyElems_frame|done].
  - apply rbind_Ok in H as ([vs' h1] & Hx & [= <- <-]).
    by eapply copyElems_frame.
  - destruct (h !! l) as [[| |es]|]; try done.
    apply rbind_Ok in H as ([vs' h1] & Hx & H). cbn -[alloc] in H.
    destruct (alloc (CMap vs') h1) as [l' h2] eqn:Ha. injection H as <- <-.
    destruct (DeepCopyProperties.alloc_fresh _ _ _ _ Ha) as (_ & _ & Hsub).
    etrans; [by eapply copyEntries_frame|done].
  - apply rbind_Ok in H as ([fs' h1] & Hx & [= <- <-]).
    by eapply copyFields_frame.
Qed.

(** X20. Whatever the value, exported or not, with channels or
    without: when [deepCopy] returns, every cell that existed is
    unchanged, so the original reads as before; nil pointers, slices and
    maps are copied as nil, channels and functions are handed on as they
    are; and the copy of a struct has the same fields in the same order,
    where every field that cannot be set holds the zero value of its
    type. *)
Theorem deepCopy_touches_no_cell n v (h : heap) v' h' :
  deepCopy n v h = Ok (v', h') ->
  h ⊆ h'
  /\ (forall (l : loc) c, h !! l = Some c -> h' !! l = Some c)
  /\ (forall m t, reify m h v = Some t -> reify m h' v = Some t)
  /\ (match v with
      | Ptr None | Slice None | MapV None | Iface None | Chan _ | Func _
      | Scalar _ => v' = v /\ h' = h
      | _ => True
      end)
  /\ (forall fields,
        v = Struct fields ->
        exists fields',
          v' = Struct fields'
          /\ length fields' = length fields
          /\ forall (i : nat) info x,
               fields !! i = Some (info, x) ->
               exists x', fields' !! i = Some (info, x')
                          /\ (CanSet info = false -> x' = zero_like x)).
Proof.
  intros H. pose proof (deepCopy_frame _ _ _ _ _ H) as Hsub.
  split; [done|]. split; [|split; [|split]].
  - intros l c Hl. by eapply lookup_weaken.
  - intros m t Ht. by eapply DeepCopyProperties.reify_mono.
  - destruct n as [|n]; [done|].
    destruct v as [s|[l|]|[x|]|[[[l off] len]|]|elems|[l|]|fields|c|c];
      try done; cbn in H; by injection H as <- <-.
  - intros fields ->. destruct n as [|n]; [done|]. cbn in H.
    apply rbind_Ok in H as ([fs' h1] & Hfs & [= <- <-]).
    exists fs'. split; [done|].
    apply (copyFields_frame (deepCopy n) (deepCopy_frame n)) in Hfs
      as (_ & Hlen & Hfields).
    done.
Qed.

Lemma deepCopy_touches_no_cell_witness :
  exists fields',
    Struct [ (plain_field "Name", Scalar (SString "admin"));
             (hidden_field, Scalar (SInt reflect.Int 0)) ]
    = Struct fields'
    /\ length fields' = 2%nat
    /\ forall (i : nat) info x,
         [ (plain_field "Name", Scalar (SString "admin"));
           (hidden_field, Scalar (SInt reflect.Int 5)) ] !! i
         = Some (info, x) ->
         exists x', fields' !! i = Some (info, x')
                    /\ (CanSet info = false -> x' = zero_like x).
Proof.
  destruct (deepCopy_touches_no_cell 2 account_with_secret ∅
              (Struct [ (plain_field "Name", Scalar (SString "admin"));
                        (hidden_field, Scalar (SInt reflect.Int 0)) ])
              ∅ eq_refl) as (_ & _ & _ & _ & H).
  exact (H _ eq_refl).
Defined.
End DeepCopyFrame.
